(** * Ticket Tracking System: a shallow embedding of [ticket_tracking_system.py]

    The program keeps tickets as Python dicts held in Python lists.  Both
    kinds of object are mutable and shared by reference (the active queue
    holds the very dicts of the ticket list), so the embedding has an
    explicit object store: a heap of dicts and a heap of lists of dict
    references.  Every operation of the module is a computation in a small
    state-and-exception monad over that store.

    The module raises the built-in [ValueError] and [IndexError]; these are
    what the specification calls ValidationError and IndexOutOfRange.  The
    console front end ([display_data] and [main]) prints and reads input
    around the operations; it is embedded last, over a world made of the
    store, the lines still to be read and the output written so far.

    Strings are sequences of 8-bit characters; the case conversions and the
    integer parser below treat every character above 127 as an ordinary
    (non-letter, non-digit, non-space) character. *)

From Stdlib Require Import ZArith Ascii String.
From stdpp Require Import base gmap list strings pretty sorting.

Local Open Scope string_scope.
Local Open Scope Z_scope.
Local Open Scope list_scope.

(** ** Python values and exceptions *)

(** The values that ticket fields and arguments range over: [None],
    booleans, integers and strings (floats and containers are left out).
    [bool] is a subclass of [int] in Python: [True] is the integer 1. *)
Inductive value :=
  | VNone
  | VBool (b : bool)
  | VInt (n : Z)
  | VStr (s : string).

Global Instance value_eq_dec : EqDecision value.
Proof. solve_decision. Defined.

(** The built-in exceptions this module raises or lets escape.  [ValueError]
    and [IndexError] carry their message, [KeyError] the missing key. *)
Inductive exn :=
  | ValueError (msg : string)
  | IndexError (msg : string)
  | KeyError (key : string)
  | TypeError
  | AttributeError.

Global Instance exn_eq_dec : EqDecision exn.
Proof. solve_decision. Defined.

(** [isinstance(v, int)], with the integer it denotes. *)
Definition int_value (v : value) : option Z :=
  match v with
  | VInt n => Some n
  | VBool b => Some (if b then 1 else 0)
  | _ => None
  end.

(** [isinstance(v, str)]. *)
Definition str_value (v : value) : option string :=
  match v with VStr s => Some s | _ => None end.

(** [v == w]: numbers compare by value, strings by content, [None] only
    equals itself, and values of unrelated types are unequal. *)
Definition py_eq (v w : value) : bool :=
  match v, w with
  | VNone, VNone => true
  | VStr s, VStr t => bool_decide (s = t)
  | _, _ =>
      match int_value v, int_value w with
      | Some n, Some m => bool_decide (n = m)
      | _, _ => false
      end
  end.

(** [v in l] for a list [l] of string literals. *)
Definition py_in (v : value) (l : list string) : bool :=
  existsb (fun s => py_eq v (VStr s)) l.

(** ** Strings *)

Definition ascii_code (c : ascii) : Z := Z.of_N (N_of_ascii c).

Definition ascii_lower (c : ascii) : ascii :=
  let n := ascii_code c in
  if (65 <=? n) && (n <=? 90) then ascii_of_N (Z.to_N (n + 32)) else c.

Definition ascii_upper (c : ascii) : ascii :=
  let n := ascii_code c in
  if (97 <=? n) && (n <=? 122) then ascii_of_N (Z.to_N (n - 32)) else c.

Fixpoint map_string (f : ascii -> ascii) (s : string) : string :=
  match s with
  | EmptyString => EmptyString
  | String c s' => String (f c) (map_string f s')
  end.

(** [s.lower()] and [s.upper()].  They map the letters A to Z and a to z and
    leave every other character as it is, which is what Python does on a
    string of 7-bit characters; on other strings Python maps more. *)
Definition lower : string -> string := map_string ascii_lower.
Definition upper : string -> string := map_string ascii_upper.

(** A string of 7-bit characters only: the strings on which [lower],
    [upper] and [int_of_string] below are exactly Python's. *)
Fixpoint is_ascii (s : string) : bool :=
  match s with
  | EmptyString => true
  | String c s' => (ascii_code c <? 128) && is_ascii s'
  end.

(** [needle in hay] on strings: substring test. *)
Fixpoint contains (needle hay : string) : bool :=
  String.prefix needle hay ||
  match hay with
  | EmptyString => false
  | String _ hay' => contains needle hay'
  end.

(** [sep.join(l)]. *)
Definition join (sep : string) (l : list string) : string := String.concat sep l.

(** [str(v)], as an f-string placeholder renders a value. *)
Definition py_str (v : value) : string :=
  match v with
  | VNone => "None"
  | VBool true => "True"
  | VBool false => "False"
  | VInt n => pretty n
  | VStr s => s
  end.

(** *** [int(s)] on a string

    Surrounding whitespace is dropped, one sign is allowed, then decimal
    digits, where single underscores may separate digits.  More digits than
    the interpreter's default limit are refused.  Only the ten digits 0 to 9
    and the six blanks below count: on a string with other characters than
    the 7-bit ones Python may accept more (other decimal digits, other
    blanks), so a refusal is Python's only for an [is_ascii] string. *)

Definition is_space (c : ascii) : bool :=
  let n := ascii_code c in
  ((9 <=? n) && (n <=? 13)) || (n =? 32).

Fixpoint lstrip (s : string) : string :=
  match s with
  | String c s' => if is_space c then lstrip s' else s
  | EmptyString => EmptyString
  end.

Fixpoint rstrip (s : string) : string :=
  match s with
  | EmptyString => EmptyString
  | String c s' =>
      match rstrip s' with
      | EmptyString => if is_space c then EmptyString else String c EmptyString
      | r => String c r
      end
  end.

Definition strip (s : string) : string := rstrip (lstrip s).

Definition digit_of (c : ascii) : option Z :=
  let n := ascii_code c in
  if (48 <=? n) && (n <=? 57) then Some (n - 48) else None.

(** [prev] tells whether the previous character was a digit; [count] is the
    number of digits read so far. *)
Fixpoint parse_digits (s : string) (acc : Z) (count : nat) (prev : bool)
  : option (Z * nat) :=
  match s with
  | EmptyString => if prev then Some (acc, count) else None
  | String c s' =>
      match digit_of c with
      | Some d => parse_digits s' (10 * acc + d) (S count) true
      | None =>
          if bool_decide (c = "_"%char) && prev
          then parse_digits s' acc count false
          else None
      end
  end.

Definition int_max_str_digits : nat := 4300.

Definition parse_unsigned (s : string) : option Z :=
  match parse_digits s 0 0 false with
  | Some (n, count) =>
      if bool_decide (count <= int_max_str_digits)%nat then Some n else None
  | None => None
  end.

Definition int_of_string (s : string) : option Z :=
  match strip s with
  | String "+" s' => parse_unsigned s'
  | String "-" s' => Z.opp <$> parse_unsigned s'
  | s' => parse_unsigned s'
  end.

(** [int(v)]: a [ValueError] for a string that is not a numeral, a
    [TypeError] for [None]. *)
Definition py_int (v : value) : exn + Z :=
  match v with
  | VInt n => inr n
  | VBool b => inr (if b then 1 else 0)
  | VStr s =>
      match int_of_string s with
      | Some n => inr n
      | None => inl (ValueError "invalid literal for int() with base 10")
      end
  | VNone => inl TypeError
  end.

(** ** The object store *)

(** A dict object maps string keys to values; a list object holds
    references to dict objects.  References are object identities. *)
Abbreviation dict := (gmap string value).
Abbreviation dref := nat (only parsing).
Abbreviation lref := nat (only parsing).

Record store := Store {
  dicts : gmap nat dict;
  lists : gmap nat (list nat);
}.

Definition set_dicts (f : gmap nat dict -> gmap nat dict) (st : store) : store :=
  {| dicts := f (dicts st); lists := lists st |}.

Definition set_lists (f : gmap nat (list nat) -> gmap nat (list nat)) (st : store)
  : store :=
  {| dicts := dicts st; lists := f (lists st) |}.

Definition empty_store : store := {| dicts := ∅; lists := ∅ |}.

(** ** Computations

    A computation runs on a store and ends by returning a value or raising an
    exception, in both cases with the store it leaves behind.  [Dangling]
    is the outcome of using a reference that denotes no object of the store;
    no Python program can do that, and the theorems below rule it out with
    hypotheses saying what the references denote. *)
Inductive outcome (A : Type) :=
  | Ret (a : A)
  | Raise (e : exn)
  | Dangling.
Arguments Ret {A} a.
Arguments Raise {A} e.
Arguments Dangling {A}.

Definition M (A : Type) : Type := store -> outcome A * store.

Global Instance M_ret : MRet M := fun A a st => (Ret a, st).

Global Instance M_bind : MBind M := fun A B f m st =>
  match m st with
  | (Ret a, st') => f a st'
  | (Raise e, st') => (Raise e, st')
  | (Dangling, st') => (Dangling, st')
  end.

Definition raise {A} (e : exn) : M A := fun st => (Raise e, st).

Definition modify (f : store -> store) : M unit := fun st => (Ret tt, f st).

(** The result of a built-in that either fails or yields a value. *)
Definition lift {A} (r : exn + A) : M A :=
  match r with inl e => raise e | inr a => mret a end.

(** [try: body except ValueError: handler]. *)
Definition try_except_ValueError {A} (body handler : M A) : M A := fun st =>
  match body st with
  | (Raise (ValueError _), st') => handler st'
  | r => r
  end.

(** [for x in l: body(x)] over an immutable sequence. *)
Fixpoint for_each {A} (l : list A) (body : A -> M unit) : M unit :=
  match l with
  | [] => mret tt
  | x :: l' => body x ;; for_each l' body
  end.

Fixpoint filterM {A} (cond : A -> M bool) (l : list A) : M (list A) :=
  match l with
  | [] => mret []
  | x :: l' =>
      b ← cond x;
      r ← filterM cond l';
      mret (if b : bool then x :: r else r)
  end.

Fixpoint mapM {A B} (f : A -> M B) (l : list A) : M (list B) :=
  match l with
  | [] => mret []
  | x :: l' => y ← f x; r ← mapM f l'; mret (y :: r)
  end.

(** *** Dict objects *)

Definition read_dict (t : dref) : M dict := fun st =>
  match dicts st !! t with
  | Some d => (Ret d, st)
  | None => (Dangling, st)
  end.

(** A dict display [{...}] makes a new object. *)
Definition dict_new (d : dict) : M dref := fun st =>
  let t := fresh (dom (dicts st)) in
  (Ret t, set_dicts <[t := d]> st).

(** [k in t] *)
Definition dict_contains (t : dref) (k : string) : M bool :=
  d ← read_dict t; mret (bool_decide (is_Some (d !! k))).

(** [t[k]] *)
Definition dict_getitem (t : dref) (k : string) : M value :=
  d ← read_dict t;
  match d !! k with
  | Some v => mret v
  | None => raise (KeyError k)
  end.

(** [t[k] = v] *)
Definition dict_setitem (t : dref) (k : string) (v : value) : M unit :=
  d ← read_dict t; modify (set_dicts <[t := <[k := v]> d]>).

(** *** List objects *)

Definition read_list (l : lref) : M (list nat) := fun st =>
  match lists st !! l with
  | Some L => (Ret L, st)
  | None => (Dangling, st)
  end.

Definition write_list (l : lref) (L : list nat) : M unit :=
  modify (set_lists <[l := L]>).

(** A list display, a comprehension, [copy()] and [+] make a new list. *)
Definition list_new (L : list nat) : M lref := fun st =>
  let l := fresh (dom (lists st)) in
  (Ret l, set_lists <[l := L]> st).

(** [len(l)] *)
Definition list_len (l : lref) : M Z :=
  L ← read_list l; mret (Z.of_nat (length L)).

(** The position a subscript denotes in a sequence of length [len]:
    negative subscripts count from the end. *)
Definition norm_index (len i : Z) : option nat :=
  let j := if i <? 0 then i + len else i in
  if (0 <=? j) && (j <? len) then Some (Z.to_nat j) else None.

(** [L[i]] on an immutable sequence.  The message is the one of an index
    that fits a machine word; beyond that Python words it differently, the
    exception is [IndexError] all the same. *)
Definition seq_getitem {A} (L : list A) (i : Z) : exn + A :=
  match norm_index (Z.of_nat (length L)) i with
  | Some j =>
      match L !! j with
      | Some x => inr x
      | None => inl (IndexError "list index out of range")
      end
  | None => inl (IndexError "list index out of range")
  end.

(** [l[i]] *)
Definition list_getitem (l : lref) (i : Z) : M dref :=
  L ← read_list l; lift (seq_getitem L i).

(** [l.append(x)] *)
Definition list_append (l : lref) (x : dref) : M unit :=
  L ← read_list l; write_list l (L ++ [x]).

(** [l.pop(i)] *)
Definition list_pop (l : lref) (i : Z) : M dref :=
  L ← read_list l;
  if bool_decide (L = []) then raise (IndexError "pop from empty list") else
  match norm_index (Z.of_nat (length L)) i with
  | Some j =>
      match L !! j with
      | Some x => write_list l (delete j L) ;; mret x
      | None => raise (IndexError "pop index out of range")
      end
  | None => raise (IndexError "pop index out of range")
  end.

(** [l.clear()] *)
Definition list_clear (l : lref) : M unit :=
  _ ← read_list l; write_list l [].

(** [l.copy()] *)
Definition list_copy (l : lref) : M lref :=
  L ← read_list l; list_new L.

(** [l1 + l2] *)
Definition list_concat (l1 l2 : lref) : M lref :=
  L1 ← read_list l1; L2 ← read_list l2; list_new (L1 ++ L2).

(** [[x for x in l if cond(x)]] *)
Definition list_comprehension (l : lref) (cond : dref -> M bool) : M lref :=
  L ← read_list l; L' ← filterM cond L; list_new L'.

(** *** [l.sort(key=...)]

    The built-in sort is stable and compares keys with [<] only.  Numbers
    compare by value and strings lexicographically by character code; any
    other comparison raises [TypeError], and a list of two or more elements
    cannot be sorted without one such comparison unless its keys are all
    numbers or all strings. *)

Definition py_lt (v w : value) : option bool :=
  match v, w with
  | VStr s, VStr t => Some (String.ltb s t)
  | _, _ =>
      match int_value v, int_value w with
      | Some n, Some m => Some (n <? m)
      | _, _ => None
      end
  end.

Definition key_ltb (v w : value) : bool := default false (py_lt v w).

Definition sortable (ks : list value) : bool :=
  bool_decide (length ks <= 1)%nat
  || forallb (fun k => bool_decide (is_Some (int_value k))) ks
  || forallb (fun k => bool_decide (is_Some (str_value k))) ks.

(** Insert [x], which precedes every element of [l] in the original order,
    in front of the first element that is not smaller than it. *)
Fixpoint insert_keyed (x : value * nat) (l : list (value * nat))
  : list (value * nat) :=
  match l with
  | [] => [x]
  | y :: l' =>
      if key_ltb y.1 x.1 then y :: insert_keyed x l' else x :: y :: l'
  end.

Definition stable_sort (l : list (value * nat)) : list (value * nat) :=
  foldr insert_keyed [] l.

Definition list_sort (l : lref) (key : dref -> M value) : M unit :=
  L ← read_list l;
  ks ← mapM key L;
  if sortable ks
  then write_list l (stable_sort (zip ks L)).*2
  else raise TypeError.

(** ** The program *)

(** The two kinds of object [manage_queue] returns. *)
Inductive pyobj :=
  | RList (l : lref)
  | RDict (t : dref).

(** The dict display of a ticket. *)
Definition ticket_dict (id title type : string) (priority : Z) (status : string)
  : dict :=
  list_to_map [("id", VStr id); ("title", VStr title); ("type", VStr type);
               ("priority", VInt priority); ("status", VStr status)].

Definition initialize_data : M (lref * lref * lref) :=
  t1 ← dict_new (ticket_dict "T001" "Payment not processing" "billing" 2 "open");
  t2 ← dict_new (ticket_dict "T002" "Reset password" "account" 3 "new");
  t3 ← dict_new (ticket_dict "T003" "Application crashes" "technical" 1 "open");
  t4 ← dict_new (ticket_dict "T004" "Add dark mode" "feature" 4 "new");
  t5 ← dict_new (ticket_dict "T005" "Renewal failed" "billing" 2 "open");
  tickets ← list_new [t1; t2; t3; t4; t5];
  e1 ← dict_new (ticket_dict "E001" "Security breach" "technical" 1 "new");
  e2 ← dict_new (ticket_dict "E002" "Double-charged" "billing" 1 "new");
  escalated ← list_new [e1; e2];
  queue ← list_new [];
  mret (tickets, escalated, queue).

Definition required_fields : list string :=
  ["id"; "title"; "type"; "priority"; "status"].
Definition valid_types : list string :=
  ["technical"; "billing"; "general"; "account"; "feature"].
Definition valid_statuses : list string := ["new"; "open"; "resolved"; "closed"].
Definition valid_keys : list string := ["id"; "priority"; "status"; "type"].
Definition valid_filters : list string := ["type"; "status"; "priority"; "keyword"].
Definition valid_operations : list string := ["add"; "remove"; "clear"].
Definition valid_fields : list string := ["status"; "priority"; "type"].
Definition priority_indicators : list string := ["CRITICAL"; "HIGH"; "MEDIUM"; "LOW"].

(** [s in l] for a string [s] and a list of string literals. *)
Definition str_in (s : string) (l : list string) : bool := bool_decide (s ∈ l).

Definition add_ticket (tickets : lref) (ticket : dref) : M lref :=
  for_each required_fields (fun field =>
    present ← dict_contains ticket field;
    if negb present
    then raise (ValueError ("Ticket is missing required field: " +:+ field))
    else mret tt) ;;
  type ← dict_getitem ticket "type";
  if negb (py_in type valid_types)
  then raise (ValueError ("Invalid ticket type. Must be one of: "
                            +:+ join ", " valid_types))
  else
  priority ← dict_getitem ticket "priority";
  if match int_value priority with
     | None => true
     | Some p => (p <? 1) || (p >? 4)
     end
  then raise (ValueError "Priority must be an integer between 1 and 4")
  else
  status ← dict_getitem ticket "status";
  if negb (py_in status valid_statuses)
  then raise (ValueError ("Invalid status. Must be one of: "
                            +:+ join ", " valid_statuses))
  else
  list_append tickets ticket ;;
  mret tickets.

Definition remove_ticket (tickets : lref) (index : Z) : M dref :=
  n ← list_len tickets;
  if (index <? 0) || (index >=? n)
  then raise (IndexError "Index out of range")
  else list_pop tickets index.

Definition sort_tickets (tickets : lref) (key : string) : M lref :=
  if negb (str_in key valid_keys)
  then raise (ValueError ("Invalid sort key. Must be one of: "
                            +:+ join ", " valid_keys))
  else
  sorted_tickets ← list_copy tickets;
  list_sort sorted_tickets (fun ticket => dict_getitem ticket key) ;;
  mret sorted_tickets.

(** [v.lower()] and [v.upper()]: only strings have these methods. *)
Definition py_lower (v : value) : exn + string :=
  match v with VStr s => inr (lower s) | _ => inl AttributeError end.
Definition py_upper (v : value) : exn + string :=
  match v with VStr s => inr (upper s) | _ => inl AttributeError end.

Definition filter_tickets (tickets : lref) (filter_type : string) (value : value)
  : M lref :=
  if negb (str_in filter_type valid_filters)
  then raise (ValueError ("Invalid filter type. Must be one of: "
                            +:+ join ", " valid_filters))
  else if bool_decide (filter_type = "keyword") then
    value ← lift (py_lower value);
    list_comprehension tickets (fun ticket =>
      title ← dict_getitem ticket "title";
      title ← lift (py_lower title);
      mret (contains value title))
  else if bool_decide (filter_type = "priority") then
    value ← match value with
            | VStr _ =>
                try_except_ValueError
                  (n ← lift (py_int value); mret (VInt n))
                  (raise (ValueError
                            "Priority value must be a number between 1 and 4"))
            | _ => mret value
            end;
    list_comprehension tickets (fun ticket =>
      priority ← dict_getitem ticket "priority";
      mret (py_eq priority value))
  else
    list_comprehension tickets (fun ticket =>
      field ← dict_getitem ticket filter_type;
      mret (py_eq field value)).

Definition combine_queues (tickets1 tickets2 : lref) : M lref :=
  list_concat tickets1 tickets2.

Definition get_priority_tickets (tickets : lref) (priority_level : value)
  : M lref :=
  if match int_value priority_level with
     | None => true
     | Some p => (p <? 1) || (p >? 4)
     end
  then raise (ValueError "Priority level must be between 1 and 4")
  else
  list_comprehension tickets (fun ticket =>
    priority ← dict_getitem ticket "priority";
    mret (py_eq priority priority_level)).

Definition manage_queue (tickets active_queue : lref) (operation : string)
    (index : option Z) : M pyobj :=
  if negb (str_in operation valid_operations)
  then raise (ValueError ("Invalid operation. Must be one of: "
                            +:+ join ", " valid_operations))
  else if bool_decide (operation = "add") then
    match index with
    | None => raise (ValueError "Index is required for add operation")
    | Some index =>
        n ← list_len tickets;
        if (index <? 0) || (index >=? n)
        then raise (IndexError "Ticket index out of range")
        else
        m ← list_len active_queue;
        if m >=? 5
        then raise (ValueError "Active queue is at maximum capacity (5 tickets)")
        else
        ticket ← list_getitem tickets index;
        list_append active_queue ticket ;;
        mret (RList active_queue)
    end
  else if bool_decide (operation = "remove") then
    match index with
    | None => raise (ValueError "Index is required for remove operation")
    | Some index =>
        m ← list_len active_queue;
        if (index <? 0) || (index >=? m)
        then raise (IndexError "Queue index out of range")
        else
        ticket ← list_pop active_queue index;
        mret (RDict ticket)
    end
  else
    list_clear active_queue ;;
    mret (RList active_queue).

Definition update_ticket (tickets : lref) (index : Z) (field : string)
    (value : value) : M dref :=
  n ← list_len tickets;
  if (index <? 0) || (index >=? n)
  then raise (IndexError "Ticket index out of range")
  else if negb (str_in field valid_fields)
  then raise (ValueError ("Invalid field. Must be one of: "
                            +:+ join ", " valid_fields))
  else
  ticket ← list_getitem tickets index;
  (if bool_decide (field = "status") then
     if negb (py_in value valid_statuses)
     then raise (ValueError ("Invalid status. Must be one of: "
                               +:+ join ", " valid_statuses))
     else dict_setitem ticket "status" value
   else if bool_decide (field = "priority") then
     priority ← try_except_ValueError
                  (priority ← lift (py_int value);
                   if (priority <? 1) || (priority >? 4)
                   then raise (ValueError "")
                   else mret priority)
                  (raise (ValueError
                            "Priority must be an integer between 1 and 4"));
     dict_setitem ticket "priority" (VInt priority)
   else
     if negb (py_in value valid_types)
     then raise (ValueError ("Invalid type. Must be one of: "
                               +:+ join ", " valid_types))
     else dict_setitem ticket "type" value) ;;
  mret ticket.

(** [v - 1]: defined on numbers only. *)
Definition py_pred (v : value) : exn + Z :=
  match int_value v with Some n => inr (n - 1) | None => inl TypeError end.

Definition get_formatted_ticket (ticket : dref) : M string :=
  priority ← dict_getitem ticket "priority";
  i ← lift (py_pred priority);
  priority_text ← lift (seq_getitem priority_indicators i);
  status ← dict_getitem ticket "status";
  status_text ← lift (py_upper status);
  id ← dict_getitem ticket "id";
  title ← dict_getitem ticket "title";
  type ← dict_getitem ticket "type";
  priority ← dict_getitem ticket "priority";
  mret (py_str id +:+ " | " +:+ py_str title +:+ " | " +:+ py_str type
        +:+ " | Priority: " +:+ priority_text +:+ " (" +:+ py_str priority
        +:+ ") | Status: " +:+ status_text).

(** ** The data model of the specification *)

(** The four conditions [add_ticket] requires of a candidate ticket. *)
Definition missing_field (d : dict) : Prop :=
  exists f, f ∈ required_fields /\ d !! f = None.

Definition type_ok (d : dict) : Prop :=
  exists s, s ∈ valid_types /\ d !! "type" = Some (VStr s).

Definition priority_ok (d : dict) : Prop :=
  exists v n, d !! "priority" = Some v /\ int_value v = Some n /\ 1 <= n <= 4.

Definition status_ok (d : dict) : Prop :=
  exists s, s ∈ valid_statuses /\ d !! "status" = Some (VStr s).

Definition valid_ticket (d : dict) : Prop :=
  ~ missing_field d /\ type_ok d /\ priority_ok d /\ status_ok d.

(** A ticket record of the data model: a valid ticket whose [id] and [title]
    are strings. *)
Definition ticket_record (d : dict) : Prop :=
  valid_ticket d
  /\ (exists s, d !! "id" = Some (VStr s))
  /\ (exists s, d !! "title" = Some (VStr s)).

(** Every reference of [L] denotes a dict of the store that satisfies [P]. *)
Definition all_tickets (st : store) (P : dict -> Prop) (L : list nat) : Prop :=
  Forall (fun t => exists d, dicts st !! t = Some d /\ P d) L.

(** The value of field [k] of the ticket that [t] denotes. *)
Definition field_of (st : store) (k : string) (t : dref) : option value :=
  d ← dicts st !! t; d !! k.

(** The priority test of [add_ticket] and [get_priority_tickets]:
    [not isinstance(p, int) or p < 1 or p > 4]. *)
Definition priority_rejected (p : value) : bool :=
  match int_value p with
  | None => true
  | Some n => (n <? 1) || (n >? 4)
  end.

(** The store that [initialize_data] builds from nothing: the ticket list is
    object 0 (tickets 0 to 4), the escalated list object 1 (tickets 5 and 6)
    and the active queue object 2. *)
Definition seed_store : store := (initialize_data empty_store).2.

(** The call ended by returning a list object that did not exist before,
    with contents [X], and changed nothing else in the store. *)
Definition returns_new_list (res : outcome nat * store) (st : store) (X : list nat)
  : Prop :=
  exists r, res = (Ret r, set_lists <[r := X]> st) /\ lists st !! r = None.

(** The tickets of [L] whose field [k] is exactly the value [v]. *)
Definition with_field (st : store) (k : string) (v : value) (L : list nat)
  : list nat :=
  filter (fun t => field_of st k t = Some v) L.

(** The tickets of [L] whose priority is the integer [n]. *)
Definition with_priority (st : store) (n : Z) (L : list nat) : list nat :=
  filter (fun t => field_of st "priority" t ≫= int_value = Some n) L.

(** Lexicographic order on strings by character code: the natural order of
    Python strings. *)
Inductive lex_le : string -> string -> Prop :=
  | lex_le_empty t : lex_le EmptyString t
  | lex_le_less c s c' t :
      ascii_code c < ascii_code c' -> lex_le (String c s) (String c' t)
  | lex_le_same c s t : lex_le s t -> lex_le (String c s) (String c t).

(** The natural order of field values: numeric on integers, lexicographic on
    strings, and nothing else is ordered. *)
Definition value_le (v w : value) : Prop :=
  match v, w with
  | VStr s, VStr t => lex_le s t
  | _, _ =>
      match int_value v, int_value w with
      | Some n, Some m => n <= m
      | _, _ => False
      end
  end.

(** Ticket [t] comes no later than ticket [u] in the order of field [k]. *)
Definition field_le (st : store) (k : string) (t u : dref) : Prop :=
  match field_of st k t, field_of st k u with
  | Some a, Some b => value_le a b
  | _, _ => False
  end.

(** Field [k] of ticket [t] equals [v] in the sense of [==]. *)
Definition has_key (st : store) (k : string) (v : value) (t : dref) : bool :=
  from_option (fun f => py_eq f v) false (field_of st k t).

(** Keys that [<] can compare with each other. *)
Definition same_kind (a b : value) : Prop :=
  (is_Some (int_value a) /\ is_Some (int_value b))
  \/ (is_Some (str_value a) /\ is_Some (str_value b)).

(** The order of keyed list entries. *)
Definition keys_le (x y : value * nat) : Prop := value_le x.1 y.1.

(** A list entry together with its sort key. *)
Definition keyed (g : nat -> value) (t : nat) : value * nat := (g t, t).

(** The result of sorting [L] by the key function [g]. *)
Definition sorted_by (g : nat -> value) (L : list nat) : list nat :=
  (stable_sort (zip (g <$> L) L)).*2.

(** The sort key of a ticket, where it has the field. *)
Definition key_of (st : store) (k : string) (t : dref) : value :=
  default VNone (field_of st k t).

(** The dicts that the list object [l] holds, in order. *)
Definition contents (st : store) (l : lref) : option (list (option dict)) :=
  match lists st !! l with
  | Some L => Some ((fun t => dicts st !! t) <$> L)
  | None => None
  end.

(** [l[i][k]] for a list object [l], a position [i] and a field [k]. *)
Definition item_field (st : store) (l : lref) (i : nat) (k : string) : option value :=
  match lists st !! l with
  | Some L =>
      match L !! i with
      | Some t => field_of st k t
      | None => None
      end
  | None => None
  end.

(** The seed store after the first five tickets were added to the queue. *)
Definition full_queue_store : store :=
  (for_each [0; 1; 2; 3; 4]
     (fun i => manage_queue 0%nat 2%nat "add" (Some i) ;; mret tt) seed_store).2.

(** A store with two tickets whose priorities lie outside 1..4: ticket 0 has
    priority 0 and ticket 1 has priority 7. *)
Definition stray_store : store :=
  ((dict_new (ticket_dict "X001" "Zero" "general" 0 "open") ;;
    dict_new (ticket_dict "X002" "Seven" "general" 7 "new")) empty_store).2.

(** ** Further notions used to describe the operations *)

(** The title of ticket [t] contains the keyword [kw], letter case aside. *)
Definition keyword_matches (st : store) (kw : string) (t : dref) : bool :=
  match field_of st "title" t with
  | Some (VStr title) => contains (lower kw) (lower title)
  | _ => false
  end.

(** Two characters that are the same, or the capital and the small form of
    one of the letters A to Z. *)
Definition same_letter (c1 c2 : ascii) : Prop :=
  c1 = c2
  \/ exists i, 0 <= i < 26
       /\ ((ascii_code c1 = 65 + i /\ ascii_code c2 = 97 + i)
           \/ (ascii_code c1 = 97 + i /\ ascii_code c2 = 65 + i)).

(** Two texts of the same length that agree letter by letter, case aside. *)
Definition same_text (a b : string) : Prop :=
  Forall2 same_letter (list_ascii_of_string a) (list_ascii_of_string b).

(** The keyword occurs in the title, letter case aside: the title is some
    text, then a text that agrees with the keyword, then some text. *)
Definition occurs_caseless (kw title : string) : Prop :=
  exists pre mid post, title = pre +:+ mid +:+ post /\ same_text mid kw.

(** Ticket [t] has a string title in which the keyword occurs. *)
Definition title_has (st : store) (kw : string) (t : dref) : Prop :=
  exists title,
    field_of st "title" t = Some (VStr title) /\ occurs_caseless kw title.

(** The string titles of the tickets of [L] hold 7-bit characters only. *)
Definition ascii_titles (st : store) (L : list nat) : Prop :=
  forall t title, t ∈ L -> field_of st "title" t = Some (VStr title) ->
    is_ascii title = true.

(** The store [st'] has every ticket of [st] unchanged and every list of
    [st] with its contents; it may hold more lists. *)
Definition only_allocates (st st' : store) : Prop :=
  dicts st' = dicts st /\ lists st ⊆ lists st'.

(** A computation that never changes the store. *)
Definition pure_m {A} (m : M A) : Prop := forall st, (m st).2 = st.

(** A computation that at most adds new lists to the store. *)
Definition alloc_m {A} (m : M A) : Prop := forall st, only_allocates st (m st).2.

(** A computation that changes the store only when it returns. *)
Definition atomic_m {A} (m : M A) : Prop :=
  forall st, (forall a, (m st).1 <> Ret a) -> (m st).2 = st.

(** Every list of the store holds only references to dicts of the store
    that satisfy [P]. *)
Definition store_inv (P : dict -> Prop) (st : store) : Prop :=
  forall l L, lists st !! l = Some L -> all_tickets st P L.

(** The message of the first check of [add_ticket] that a candidate dict
    fails, in the order of the checks; [None] when it passes them all. *)
Definition ticket_error (d : dict) : option string :=
  match list_find (fun f => d !! f = None) required_fields with
  | Some (_, f) => Some ("Ticket is missing required field: " +:+ f)
  | None =>
      match d !! "type", d !! "priority", d !! "status" with
      | Some type, Some priority, Some status =>
          if negb (py_in type valid_types)
          then Some ("Invalid ticket type. Must be one of: " +:+ join ", " valid_types)
          else if priority_rejected priority
          then Some "Priority must be an integer between 1 and 4"
          else if negb (py_in status valid_statuses)
          then Some ("Invalid status. Must be one of: " +:+ join ", " valid_statuses)
          else None
      | _, _, _ => None
      end
  end.

(** A change of one field that [update_ticket] can make. *)
Definition valid_update (k : string) (v : value) : Prop :=
  (k = "status" /\ exists s, s ∈ valid_statuses /\ v = VStr s)
  \/ (k = "priority" /\ exists n, 1 <= n <= 4 /\ v = VInt n)
  \/ (k = "type" /\ exists s, s ∈ valid_types /\ v = VStr s).

(** The label of a priority from 1 to 4. *)
Definition priority_label (n : Z) : string :=
  if n =? 1 then "CRITICAL" else if n =? 2 then "HIGH"
  else if n =? 3 then "MEDIUM" else "LOW".

(** The line that renders a ticket with the given fields and label. *)
Definition ticket_line (id title type : value) (label : string) (priority : value)
    (status : string) : string :=
  py_str id +:+ " | " +:+ py_str title +:+ " | " +:+ py_str type
  +:+ " | Priority: " +:+ label +:+ " (" +:+ py_str priority
  +:+ ") | Status: " +:+ upper status.


(** ** The console: [display_data] and [main]

    The console reads lines from standard input and writes to standard
    output.  A world is the object store together with the lines still to be
    read and the texts written so far (latest last): [print] writes a line,
    [input] writes its prompt and then reads one line. *)

Inductive event :=
  | Printed (line : string)
  | Prompted (prompt : string).

Record world := World {
  w_store : store;
  w_input : list string;
  w_output : list event;
}.

(** What ends a console computation: a value, an exception of the store
    operations, the [EOFError] of [input] at the end of the input, a
    reference to no object, or the fuel of the main loop running out. *)
Inductive io_outcome (A : Type) :=
  | IORet (a : A)
  | IORaise (e : exn)
  | IOEof
  | IODangling
  | IOFuel.
Arguments IORet {A} a.
Arguments IORaise {A} e.
Arguments IOEof {A}.
Arguments IODangling {A}.
Arguments IOFuel {A}.

Definition IO (A : Type) : Type := world -> io_outcome A * world.

Global Instance IO_ret : MRet IO := fun A a w => (IORet a, w).

Global Instance IO_bind : MBind IO := fun A B f m w =>
  match m w with
  | (IORet a, w') => f a w'
  | (IORaise e, w') => (IORaise e, w')
  | (IOEof, w') => (IOEof, w')
  | (IODangling, w') => (IODangling, w')
  | (IOFuel, w') => (IOFuel, w')
  end.

Definition set_store (st : store) (w : world) : world :=
  {| w_store := st; w_input := w_input w; w_output := w_output w |}.

Definition write (e : event) (w : world) : world :=
  {| w_store := w_store w; w_input := w_input w; w_output := w_output w ++ [e] |}.

(** A store operation, run on the store of the world. *)
Definition run {A} (m : M A) : IO A := fun w =>
  match m (w_store w) with
  | (Ret a, st) => (IORet a, set_store st w)
  | (Raise e, st) => (IORaise e, set_store st w)
  | (Dangling, st) => (IODangling, set_store st w)
  end.

(** [print(s)] *)
Definition io_print (s : string) : IO unit := fun w => (IORet tt, write (Printed s) w).

(** [input(prompt)] *)
Definition io_input (prompt : string) : IO string := fun w =>
  match w_input w with
  | line :: rest =>
      (IORet line,
       {| w_store := w_store w; w_input := rest;
          w_output := w_output w ++ [Prompted prompt] |})
  | [] => (IOEof, write (Prompted prompt) w)
  end.

(** [int(s)] for a line of input. *)
Definition io_int (s : string) : IO Z := run (lift (py_int (VStr s))).

(** [try: body except ...: handler], where [catch] tells which exceptions
    the clause names and gives their message, [str(e)]. *)
Definition io_try {A} (body : IO A) (catch : exn -> option string)
    (handler : string -> IO A) : IO A := fun w =>
  match body w with
  | (IORaise e, w') =>
      match catch e with
      | Some msg => handler msg w'
      | None => (IORaise e, w')
      end
  | r => r
  end.

Definition catch_ValueError (e : exn) : option string :=
  match e with ValueError msg => Some msg | _ => None end.

Definition catch_IndexError (e : exn) : option string :=
  match e with IndexError msg => Some msg | _ => None end.

Definition catch_ValueError_IndexError (e : exn) : option string :=
  match e with ValueError msg | IndexError msg => Some msg | _ => None end.

Fixpoint io_for_each {A} (l : list A) (body : A -> IO unit) : IO unit :=
  match l with
  | [] => mret tt
  | x :: l' => body x ;; io_for_each l' body
  end.

Definition newline : string := String (ascii_of_nat 10) EmptyString.

(** [str(n)] for a length or an index. *)
Definition str_nat (n : nat) : string := pretty (Z.of_nat n).

Definition display_data (data : lref) (data_type : string) : IO unit :=
  L ← run (read_list data);
  if bool_decide (L = []) then io_print "No tickets to display."
  else
    (if bool_decide (data_type = "tickets") then io_print "Current Ticket List:"
     else if bool_decide (data_type = "queue") then io_print "Active Queue:"
     else if bool_decide (data_type = "filtered") then io_print "Filtered Results:"
     else mret tt) ;;
    io_for_each L (fun ticket =>
      line ← run (get_formatted_ticket ticket);
      io_print line).

(** [for i, ticket in enumerate(l): print(f"{i}: {ticket['id']} - {ticket['title']}")] *)
Definition print_indexed (l : lref) : IO unit :=
  L ← run (read_list l);
  io_for_each (imap pair L) (fun '(i, ticket) =>
    id ← run (dict_getitem ticket "id");
    title ← run (dict_getitem ticket "title");
    io_print (str_nat i +:+ ": " +:+ py_str id +:+ " - " +:+ py_str title)).

(** One pass through the body of the [while] loop of [main]: the new values
    of [tickets] and [escalated], and whether the loop goes on. *)
Definition main_iteration (tickets escalated active_queue : lref)
  : IO (lref * lref * bool) :=
  io_print (newline +:+ "Menu Options:") ;;
  io_print "1. View Tickets" ;;
  io_print "2. Add/Remove Ticket" ;;
  io_print "3. Sort Tickets" ;;
  io_print "4. Filter Tickets" ;;
  io_print "5. Queue Operations" ;;
  io_print "6. Process Escalated" ;;
  io_print "7. Update Ticket" ;;
  io_print "0. Exit" ;;
  choice ← io_input "Enter your choice: ";
  if bool_decide (choice = "1") then
    display_data tickets "tickets" ;;
    mret (tickets, escalated, true)
  else if bool_decide (choice = "2") then
    op ← io_input "Enter 'add' or 'remove': ";
    let op := lower op in
    (if bool_decide (op = "add") then
       id ← io_input "Enter ticket ID: ";
       title ← io_input "Enter title: ";
       ticket_type ←
         io_input "Enter type (technical, billing, general, account, feature): ";
       priority ← io_input "Enter priority (1-4): ";
       priority ← io_int priority;
       status ← io_input "Enter status (new, open, resolved, closed): ";
       new_ticket ← run (dict_new (ticket_dict id title ticket_type priority status));
       io_try
         (run (add_ticket tickets new_ticket) ;;
          io_print "Ticket added successfully.")
         catch_ValueError
         (fun e => io_print ("Error: " +:+ e))
     else if bool_decide (op = "remove") then
       print_indexed tickets ;;
       index ← io_input "Enter index to remove: ";
       index ← io_int index;
       io_try
         (removed ← run (remove_ticket tickets index);
          id ← run (dict_getitem removed "id");
          title ← run (dict_getitem removed "title");
          io_print ("Removed ticket: " +:+ py_str id +:+ " - " +:+ py_str title))
         catch_IndexError
         (fun _ => io_print "Error: Invalid index.")
     else mret tt) ;;
    mret (tickets, escalated, true)
  else if bool_decide (choice = "3") then
    key ← io_input "Sort by (id, priority, status, type): ";
    io_try
      (sorted_tickets ← run (sort_tickets tickets key);
       display_data sorted_tickets "tickets")
      catch_ValueError
      (fun e => io_print ("Error: " +:+ e)) ;;
    mret (tickets, escalated, true)
  else if bool_decide (choice = "4") then
    filter_type ← io_input "Filter by (type, status, priority, keyword): ";
    value ← io_input "Enter value: ";
    io_try
      (filtered ← run (filter_tickets tickets filter_type (VStr value));
       display_data filtered "filtered")
      catch_ValueError
      (fun e => io_print ("Error: " +:+ e)) ;;
    mret (tickets, escalated, true)
  else if bool_decide (choice = "5") then
    io_print "Active Queue Operations:" ;;
    io_print "1. Add ticket to queue" ;;
    io_print "2. Remove ticket from queue" ;;
    io_print "3. View queue" ;;
    io_print "4. Clear queue" ;;
    queue_op ← io_input "Enter choice: ";
    (if bool_decide (queue_op = "1") then
       print_indexed tickets ;;
       index ← io_input "Enter index to add: ";
       index ← io_int index;
       io_try
         (run (manage_queue tickets active_queue "add" (Some index)) ;;
          io_print "Ticket added to queue.")
         catch_ValueError_IndexError
         (fun e => io_print ("Error: " +:+ e))
     else if bool_decide (queue_op = "2") then
       print_indexed active_queue ;;
       Q ← run (read_list active_queue);
       if bool_decide (Q = []) then io_print "Queue is empty."
       else
         index ← io_input "Enter index to remove: ";
         index ← io_int index;
         io_try
           (removed ← run (manage_queue tickets active_queue "remove" (Some index));
            match removed with
            | RDict removed =>
                id ← run (dict_getitem removed "id");
                title ← run (dict_getitem removed "title");
                io_print ("Removed from queue: " +:+ py_str id +:+ " - "
                          +:+ py_str title)
            | RList _ => run (raise TypeError)
            end)
           catch_IndexError
           (fun _ => io_print "Error: Invalid index.")
     else if bool_decide (queue_op = "3") then
       display_data active_queue "queue"
     else if bool_decide (queue_op = "4") then
       run (manage_queue tickets active_queue "clear" None) ;;
       io_print "Queue cleared."
     else mret tt) ;;
    mret (tickets, escalated, true)
  else if bool_decide (choice = "6") then
    E ← run (read_list escalated);
    io_print ("Processing " +:+ str_nat (length E) +:+ " escalated tickets...") ;;
    combined ← run (combine_queues tickets escalated);
    C ← run (read_list combined);
    io_print ("Combined ticket count: " +:+ str_nat (length C)) ;;
    display_data combined "tickets" ;;
    confirm ← io_input "Update main ticket list to include escalated? (y/n): ";
    if bool_decide (lower confirm = "y") then
      escalated' ← run (list_new []);
      io_print "Main ticket list updated." ;;
      mret (combined, escalated', true)
    else mret (tickets, escalated, true)
  else if bool_decide (choice = "7") then
    print_indexed tickets ;;
    index ← io_input "Enter index to update: ";
    index ← io_int index;
    field ← io_input "Enter field to update (status, priority, type): ";
    value ← io_input "Enter new value: ";
    io_try
      (updated ← run (update_ticket tickets index field (VStr value));
       id ← run (dict_getitem updated "id");
       title ← run (dict_getitem updated "title");
       io_print ("Updated ticket: " +:+ py_str id +:+ " - " +:+ py_str title) ;;
       line ← run (get_formatted_ticket updated);
       io_print line)
      catch_ValueError_IndexError
      (fun e => io_print ("Error: " +:+ e)) ;;
    mret (tickets, escalated, true)
  else if bool_decide (choice = "0") then
    io_print "Exiting system. Goodbye!" ;;
    mret (tickets, escalated, false)
  else
    io_print "Invalid choice. Please try again." ;;
    mret (tickets, escalated, true).

(** [while running: ...].  Every pass reads at least one line, so a fuel
    above the number of lines left is never used up. *)
Fixpoint main_loop (fuel : nat) (tickets escalated active_queue : lref) : IO unit :=
  match fuel with
  | O => fun w => (IOFuel, w)
  | S fuel =>
      '(tickets, escalated, running) ← main_iteration tickets escalated active_queue;
      if running : bool then main_loop fuel tickets escalated active_queue
      else mret tt
  end.

Definition main : IO unit := fun w =>
  ('(tickets, escalated, active_queue) ← run initialize_data;
   io_print "===== TICKET TRACKING SYSTEM =====" ;;
   T ← run (read_list tickets);
   io_print ("Total Tickets: " +:+ str_nat (length T)) ;;
   critical_tickets ← run (get_priority_tickets tickets (VInt 1));
   C ← run (read_list critical_tickets);
   io_print ("Critical Tickets: " +:+ str_nat (length C)) ;;
   main_loop (S (length (w_input w))) tickets escalated active_queue) w.

(** *** Reasoning about console computations *)

(** The outcome of a store operation on [st] is a return that satisfies [Q]
    or an exception that satisfies [E], and no use of a missing object. *)
Definition mwp {A} (m : M A) (Q : A -> store -> Prop) (E : exn -> store -> Prop)
    (st : store) : Prop :=
  match m st with
  | (Ret a, st') => Q a st'
  | (Raise e, st') => E e st'
  | (Dangling, _) => False
  end.

(** The outcome of a console computation on [w] is a return that satisfies
    [Q], an exception that satisfies [E] or an end of input that satisfies
    [F]; it neither uses a missing object nor runs out of fuel. *)
Definition wp {A} (m : IO A) (Q : A -> world -> Prop) (E : exn -> world -> Prop)
    (F : world -> Prop) (w : world) : Prop :=
  match m w with
  | (IORet a, w') => Q a w'
  | (IORaise e, w') => E e w'
  | (IOEof, w') => F w'
  | (IODangling, _) => False
  | (IOFuel, _) => False
  end.

(** Every list of [st] is still a list in [st']. *)
Definition grows (st st' : store) : Prop :=
  forall l, is_Some (lists st !! l) -> is_Some (lists st' !! l).

(** The state of the console between two passes of the main loop: every
    list holds only ticket records, and the three variables denote lists. *)
Definition main_inv (tickets escalated active_queue : lref) (st : store) : Prop :=
  store_inv ticket_record st
  /\ is_Some (lists st !! tickets)
  /\ is_Some (lists st !! escalated)
  /\ is_Some (lists st !! active_queue).

(** The line that [get_formatted_ticket] returns for a ticket, if any. *)
Definition formatted (st : store) (t : dref) : option string :=
  match get_formatted_ticket t st with
  | (Ret line, _) => Some line
  | _ => None
  end.

(** The header that [display_data] prints for a kind of data, if any. *)
Definition header_of (data_type : string) : list event :=
  if bool_decide (data_type = "tickets") then [Printed "Current Ticket List:"]
  else if bool_decide (data_type = "queue") then [Printed "Active Queue:"]
  else if bool_decide (data_type = "filtered") then [Printed "Filtered Results:"]
  else [].

(** What ends [main] without a crash of the interpreter's own making: the
    only exception is the [ValueError] of a line that is no number. *)
Definition is_ValueError (e : exn) : Prop := exists msg, e = ValueError msg.

(** The last line that [main] prints when the user leaves the menu. *)
Definition farewell : event := Printed "Exiting system. Goodbye!".

(** What a pass of the main loop that started with the input [ins]
    establishes: the three variables still denote lists of ticket records,
    the pass has read at least one line, and when it stops the loop the
    line "0" was read and the last thing written is the farewell. *)
Definition iteration_post (active_queue : lref) (ins : list string)
    (r : lref * lref * bool) (w : world) : Prop :=
  let '(tickets, escalated, running) := r in
  main_inv tickets escalated active_queue (w_store w)
  /\ w_input w `suffix_of` ins
  /\ (length (w_input w) < length ins)%nat
  /\ (running = false -> "0" ∈ ins /\ last (w_output w) = Some farewell).

(** The only exception that leaves the console: the [ValueError] of [int]
    on a line of the input [ins] that is no number. *)
Definition bad_number (ins : list string) (e : exn) : Prop :=
  is_ValueError e /\ exists s, s ∈ ins /\ int_of_string s = None.


(** *** Stores for the failure cases *)

(** List 0 holds ticket 0, a ticket record, and ticket 1, which lacks the
    fields [priority] and [status]. *)
Definition partial_store : store :=
  set_lists <[0%nat := [0; 1]%nat]>
    (set_dicts
       <[1%nat := delete "status"
                    (delete "priority"
                       (ticket_dict "P002" "No priority" "general" 3 "new"))]>
       (set_dicts <[0%nat := ticket_dict "P001" "Complete" "general" 3 "new"]>
          empty_store)).

(** List 0 holds ticket 0, a ticket record; ticket 1 is a valid ticket whose
    id is the number 7. *)
Definition odd_id_store : store :=
  set_lists <[0%nat := [0%nat]]>
    (set_dicts
       <[1%nat := <["id" := VInt 7]> (ticket_dict "7" "Numbered" "general" 3 "new")]>
       (set_dicts <[0%nat := ticket_dict "P001" "Complete" "general" 3 "new"]>
          empty_store)).

(** ** Checks of the built-ins *)

Example int_of_string_7 : int_of_string "7" = Some 7.
Proof. reflexivity. Qed.

Example int_of_string_padded : int_of_string "  -1_0 " = Some (-10).
Proof. reflexivity. Qed.

Example int_of_string_word : int_of_string "high" = None.
Proof. reflexivity. Qed.

Example int_of_string_blank : int_of_string " " = None.
Proof. reflexivity. Qed.

Example int_of_string_float : int_of_string "2.5" = None.
Proof. reflexivity. Qed.

Example int_of_string_zeros : int_of_string "007" = Some 7.
Proof. reflexivity. Qed.

Example int_of_string_underscores : int_of_string "1__0" = None.
Proof. reflexivity. Qed.

Example int_of_string_sign_gap : int_of_string "- 5" = None.
Proof. reflexivity. Qed.

Example int_of_string_hex : int_of_string "0x10" = None.
Proof. reflexivity. Qed.

Example sort_mixed_keys : sortable [VInt 1; VStr "a"] = false.
Proof. reflexivity. Qed.

Example sort_single_none : sortable [VNone] = true.
Proof. reflexivity. Qed.

Example last_label : seq_getitem priority_indicators (-1) = inr "LOW".
Proof. reflexivity. Qed.

Example lower_example : lower "Application Crashes" = "application crashes".
Proof. reflexivity. Qed.

Example contains_example : contains "crash" "application crashes" = true.
Proof. reflexivity. Qed.

Example py_str_negative : py_str (VInt (-12)) = "-12".
Proof. reflexivity. Qed.

(** ** Running computations *)

Lemma bind_ret {A B} (m : M A) (f : A -> M B) st a st' :
  m st = (Ret a, st') -> (m ≫= f) st = f a st'.
Proof. intros H. unfold mbind, M_bind. by rewrite H. Qed.

Lemma bind_raise {A B} (m : M A) (f : A -> M B) st e st' :
  m st = (Raise e, st') -> (m ≫= f) st = (Raise e, st').
Proof. intros H. unfold mbind, M_bind. by rewrite H. Qed.

Lemma bind_dangling {A B} (m : M A) (f : A -> M B) st st' :
  m st = (Dangling, st') -> (m ≫= f) st = (Dangling, st').
Proof. intros H. unfold mbind, M_bind. by rewrite H. Qed.

Section primitives.
Context (st : store).

Lemma read_list_ok l L : lists st !! l = Some L -> read_list l st = (Ret L, st).
Proof. intros H. unfold read_list. by rewrite H. Qed.

Lemma read_dict_ok t d : dicts st !! t = Some d -> read_dict t st = (Ret d, st).
Proof. intros H. unfold read_dict. by rewrite H. Qed.

Lemma list_len_ok l L :
  lists st !! l = Some L -> list_len l st = (Ret (Z.of_nat (length L)), st).
Proof. intros H. unfold list_len. by erewrite bind_ret by by apply read_list_ok. Qed.

Lemma list_append_ok l L x :
  lists st !! l = Some L ->
  list_append l x st = (Ret tt, set_lists <[l := L ++ [x]]> st).
Proof. intros H. unfold list_append. by erewrite bind_ret by by apply read_list_ok. Qed.

Lemma list_clear_ok l L :
  lists st !! l = Some L -> list_clear l st = (Ret tt, set_lists <[l := []]> st).
Proof. intros H. unfold list_clear. by erewrite bind_ret by by apply read_list_ok. Qed.

Lemma norm_index_in_range (len i : Z) :
  0 <= i < len -> norm_index len i = Some (Z.to_nat i).
Proof.
  intros H. unfold norm_index.
  destruct (Z.ltb_spec i 0); [lia|].
  destruct (Z.leb_spec 0 i), (Z.ltb_spec i len); simpl; (done || lia).
Qed.

Lemma list_getitem_ok l L i x :
  lists st !! l = Some L -> 0 <= i -> L !! Z.to_nat i = Some x ->
  list_getitem l i st = (Ret x, st).
Proof.
  intros H Hi Hx. unfold list_getitem, seq_getitem.
  erewrite bind_ret by by apply read_list_ok.
  apply lookup_lt_Some in Hx as Hlt.
  rewrite norm_index_in_range by lia. by rewrite Hx.
Qed.

Lemma list_pop_ok l L i x :
  lists st !! l = Some L -> 0 <= i -> L !! Z.to_nat i = Some x ->
  list_pop l i st = (Ret x, set_lists <[l := delete (Z.to_nat i) L]> st).
Proof.
  intros H Hi Hx. unfold list_pop.
  erewrite bind_ret by by apply read_list_ok.
  rewrite bool_decide_eq_false_2 by (by intros ->).
  apply lookup_lt_Some in Hx as Hlt.
  rewrite norm_index_in_range by lia. by rewrite Hx.
Qed.

Lemma dict_contains_ok t d k :
  dicts st !! t = Some d ->
  dict_contains t k st = (Ret (bool_decide (is_Some (d !! k))), st).
Proof. intros H. unfold dict_contains. by erewrite bind_ret by by apply read_dict_ok. Qed.

Lemma dict_getitem_ok t d k v :
  dicts st !! t = Some d -> d !! k = Some v -> dict_getitem t k st = (Ret v, st).
Proof.
  intros H Hk. unfold dict_getitem.
  erewrite bind_ret by by apply read_dict_ok. by rewrite Hk.
Qed.

Lemma dict_getitem_missing t d k :
  dicts st !! t = Some d -> d !! k = None ->
  dict_getitem t k st = (Raise (KeyError k), st).
Proof.
  intros H Hk. unfold dict_getitem.
  erewrite bind_ret by by apply read_dict_ok. by rewrite Hk.
Qed.

Lemma dict_setitem_ok t d k v :
  dicts st !! t = Some d ->
  dict_setitem t k v st = (Ret tt, set_dicts <[t := <[k := v]> d]> st).
Proof. intros H. unfold dict_setitem. by erewrite bind_ret by by apply read_dict_ok. Qed.
End primitives.

(** A new list is an object no reference of the store denotes yet. *)
Lemma list_new_fresh st L :
  exists l, list_new L st = (Ret l, set_lists <[l := L]> st) /\ lists st !! l = None.
Proof.
  exists (fresh (dom (lists st))). split; [done|].
  apply not_elem_of_dom, is_fresh.
Qed.

(** ** [remove_ticket] *)

(** C6.  [remove_ticket(tickets, index)] raises [IndexError] exactly when
    [index < 0] or [index >= len(tickets)]; for every other index it returns
    the element that was at that position and leaves the list one element
    shorter, with the elements before [index] in place and every later element
    moved down by one position. *)
Theorem remove_ticket_spec (st : store) (tickets : nat) (L : list nat) (index : Z) :
  lists st !! tickets = Some L ->
  ((exists msg, (remove_ticket tickets index st).1 = Raise (IndexError msg))
     <-> index < 0 \/ index >= Z.of_nat (length L))
  /\ (0 <= index < Z.of_nat (length L) ->
      let i := Z.to_nat index in
      let L' := delete i L in
      exists t,
        L !! i = Some t
        /\ remove_ticket tickets index st = (Ret t, set_lists <[tickets := L']> st)
        /\ S (length L') = length L
        /\ (forall j, (j < i)%nat -> L' !! j = L !! j)
        /\ (forall j, (i <= j)%nat -> L' !! j = L !! S j)).
Proof.
  intros HL.
  assert (Hok : 0 <= index < Z.of_nat (length L) ->
                exists t, L !! Z.to_nat index = Some t
                  /\ remove_ticket tickets index st
                     = (Ret t, set_lists <[tickets := delete (Z.to_nat index) L]> st)).
  { intros Hi.
    destruct (lookup_lt_is_Some_2 L (Z.to_nat index)) as [t Ht]; [lia|].
    exists t. split; [done|]. unfold remove_ticket.
    erewrite bind_ret by by apply list_len_ok.
    destruct (Z.ltb_spec index 0); [lia|].
    destruct (Z.geb_spec index (Z.of_nat (length L))); [lia|]. simpl.
    by apply list_pop_ok. }
  split; [split|].
  - intros [msg Hmsg].
    destruct (decide (0 <= index < Z.of_nat (length L))) as [Hi|]; [|lia].
    destruct (Hok Hi) as (t & _ & Hrun). by rewrite Hrun in Hmsg.
  - intros Hi. eexists. unfold remove_ticket.
    erewrite bind_ret by by apply list_len_ok.
    destruct (Z.ltb_spec index 0); [done|].
    destruct (Z.geb_spec index (Z.of_nat (length L))); [done|lia].
  - intros Hi i L'. destruct (Hok Hi) as (t & Ht & Hrun).
    exists t. repeat split; [done..| | |].
    + subst L'. rewrite length_delete by eauto.
      apply lookup_lt_Some in Ht. lia.
    + intros j Hj. subst L'. by rewrite list_lookup_delete_lt.
    + intros j Hj. subst L'. by rewrite list_lookup_delete_ge.
Qed.

(** ** [add_ticket] *)

Lemma py_eq_str v s : py_eq v (VStr s) = true <-> v = VStr s.
Proof.
  destruct v as [|b|n|t]; simpl; try (split; [done|discriminate]).
  rewrite bool_decide_eq_true. split; congruence.
Qed.

Lemma py_in_spec v l : py_in v l = true <-> exists s, s ∈ l /\ v = VStr s.
Proof.
  unfold py_in. rewrite existsb_exists. split.
  - intros (s & Hs & Heq). exists s. split; [by apply list_elem_of_In|].
    by apply py_eq_str.
  - intros (s & Hs & ->). exists s. split; [by apply list_elem_of_In|].
    by apply py_eq_str.
Qed.

(** The loop over the required fields stops at the first field, in the
    order of the list, that the ticket lacks. *)
Lemma check_required_run st ticket d fields :
  dicts st !! ticket = Some d ->
  for_each fields (fun field =>
    present ← dict_contains ticket field;
    if negb present
    then raise (ValueError ("Ticket is missing required field: " +:+ field))
    else mret tt) st
  = match list_find (fun f => d !! f = None) fields with
    | Some (_, f) =>
        (Raise (ValueError ("Ticket is missing required field: " +:+ f)), st)
    | None => (Ret tt, st)
    end.
Proof.
  intros Hd. induction fields as [|f fields IH]; [done|].
  cbn [for_each list_find]. destruct (d !! f) as [v|] eqn:Hf.
  - erewrite bind_ret; last first.
    { erewrite bind_ret by by apply dict_contains_ok.
      rewrite Hf, bool_decide_eq_true_2 by eauto. done. }
    simpl. rewrite IH.
    by destruct (list_find _ fields) as [[i g]|].
  - erewrite bind_raise; last first.
    { erewrite bind_ret by by apply dict_contains_ok.
      rewrite Hf, bool_decide_eq_false_2 by (by intros [? ?]). done. }
    done.
Qed.

Lemma no_missing_field d :
  ~ missing_field d <-> list_find (fun f => d !! f = None) required_fields = None.
Proof.
  rewrite list_find_None, Forall_forall. unfold missing_field. split.
  - intros H f Hf Hnone. apply H. by exists f.
  - intros H (f & Hf & Hnone). by apply (H f).
Qed.


Lemma add_ticket_run st tickets ticket L d ty p s :
  lists st !! tickets = Some L -> dicts st !! ticket = Some d ->
  ~ missing_field d ->
  d !! "type" = Some ty -> d !! "priority" = Some p -> d !! "status" = Some s ->
  add_ticket tickets ticket st
  = if negb (py_in ty valid_types)
    then (Raise (ValueError
            "Invalid ticket type. Must be one of: technical, billing, general, account, feature"),
          st)
    else if priority_rejected p
    then (Raise (ValueError "Priority must be an integer between 1 and 4"), st)
    else if negb (py_in s valid_statuses)
    then (Raise (ValueError "Invalid status. Must be one of: new, open, resolved, closed"),
          st)
    else (Ret tickets, set_lists <[tickets := L ++ [ticket]]> st).
Proof.
  intros HL Hd Hmiss Hty Hp Hs. unfold add_ticket.
  apply no_missing_field in Hmiss.
  erewrite bind_ret by (erewrite check_required_run by done; by rewrite Hmiss).
  erewrite bind_ret by by eapply dict_getitem_ok.
  destruct (negb (py_in ty valid_types)); [done|].
  erewrite bind_ret by by eapply dict_getitem_ok.
  fold (priority_rejected p). destruct (priority_rejected p); [done|].
  erewrite bind_ret by by eapply dict_getitem_ok.
  destruct (negb (py_in s valid_statuses)); [done|].
  by erewrite bind_ret by by eapply list_append_ok.
Qed.

Lemma add_ticket_missing st tickets ticket d i f :
  dicts st !! ticket = Some d ->
  list_find (fun f => d !! f = None) required_fields = Some (i, f) ->
  add_ticket tickets ticket st
  = (Raise (ValueError ("Ticket is missing required field: " +:+ f)), st).
Proof.
  intros Hd Hfind. unfold add_ticket.
  erewrite bind_raise; [done|].
  erewrite check_required_run by done. by rewrite Hfind.
Qed.

Lemma present_field d f :
  ~ missing_field d -> f ∈ required_fields -> is_Some (d !! f).
Proof.
  intros Hmiss Hf. destruct (d !! f) eqn:Hdf; [eauto|].
  destruct Hmiss. by exists f.
Qed.

Lemma type_ok_spec d ty :
  d !! "type" = Some ty -> type_ok d <-> py_in ty valid_types = true.
Proof.
  intros Hty. rewrite py_in_spec. unfold type_ok.
  split; intros (s & Hs & Heq); exists s; split; try done; congruence.
Qed.

Lemma status_ok_spec d s :
  d !! "status" = Some s -> status_ok d <-> py_in s valid_statuses = true.
Proof.
  intros Hs. rewrite py_in_spec. unfold status_ok.
  split; intros (s' & Hs' & Heq); exists s'; split; try done; congruence.
Qed.

Lemma priority_ok_spec d p :
  d !! "priority" = Some p -> priority_ok d <-> priority_rejected p = false.
Proof.
  intros Hp. unfold priority_ok, priority_rejected. split.
  - intros (v & n & Hv & Hn & Hrange). assert (v = p) as -> by congruence.
    rewrite Hn. lia.
  - destruct (int_value p) as [n|] eqn:Hn; [|done].
    intros Hrange. exists p, n. repeat split; try done; lia.
Qed.

(** C1.  For a list object [tickets] and a candidate dict [ticket]:
    [add_ticket] raises [ValueError] exactly when the ticket lacks one of
    the five required fields, or its type is not one of the five types, or
    its priority is not an integer in [1,4], or its status is not one of
    the four statuses; a ticket that meets all four conditions is appended at
    the end of the list, whose earlier elements stay as they were, and the
    list object itself is returned; and whenever the call does not return,
    the store is left exactly as it was. *)
Theorem add_ticket_spec (st : store) (tickets ticket : nat) (L : list nat) (d : dict) :
  lists st !! tickets = Some L ->
  dicts st !! ticket = Some d ->
  let r := add_ticket tickets ticket st in
  ((exists msg, r.1 = Raise (ValueError msg))
     <-> missing_field d \/ ~ type_ok d \/ ~ priority_ok d \/ ~ status_ok d)
  /\ (valid_ticket d ->
      r = (Ret tickets, set_lists <[tickets := L ++ [ticket]]> st))
  /\ ((forall a, r.1 <> Ret a) -> r.2 = st)
  /\ (missing_field d ->
      exists f, f ∈ required_fields /\ d !! f = None
        /\ r = (Raise (ValueError ("Ticket is missing required field: " +:+ f)), st)).
Proof.
  intros HL Hd r. subst r.
  destruct (list_find (fun f => d !! f = None) required_fields) as [[i f]|] eqn:Hfind.
  - rewrite (add_ticket_missing st tickets ticket d i f) by done.
    assert (missing_field d) as Hmiss.
    { apply list_find_Some in Hfind as (Hi & Hf & _).
      exists f. split; [|done]. by eapply list_elem_of_lookup_2. }
    split; [|split; [|split]]; [|by intros [? _]|done|].
    + split; [by left|]. eauto.
    + intros _. apply list_find_Some in Hfind as (Hi & Hf & _).
      exists f. split; [by eapply list_elem_of_lookup_2|done].
  - apply no_missing_field in Hfind as Hmiss.
    destruct (present_field d "type" Hmiss) as [ty Hty]; [set_solver|].
    destruct (present_field d "priority" Hmiss) as [p Hp]; [set_solver|].
    destruct (present_field d "status" Hmiss) as [s Hs]; [set_solver|].
    rewrite (add_ticket_run st tickets ticket L d ty p s) by done.
    pose proof (type_ok_spec d ty Hty) as Ety.
    pose proof (priority_ok_spec d p Hp) as Ep.
    pose proof (status_ok_spec d s Hs) as Es.
    destruct (py_in ty valid_types) eqn:Hin1; cbn [negb fst snd].
    2:{ split; [|split; [|split]]; [|intros (_ & Hok & _)|done|done].
        - split; [intros _; right; left|eauto].
          intros Hok%Ety. done.
        - apply Ety in Hok. done. }
    destruct (priority_rejected p) eqn:Hin2; cbn [negb fst snd].
    { split; [|split; [|split]]; [|intros (_ & _ & Hok & _)|done|done].
      - split; [intros _; right; right; left|eauto].
        intros Hok%Ep. done.
      - apply Ep in Hok. done. }
    destruct (py_in s valid_statuses) eqn:Hin3; cbn [negb fst snd].
    2:{ split; [|split; [|split]]; [|intros (_ & _ & _ & Hok)|done|done].
        - split; [intros _; do 3 right|eauto].
          intros Hok%Es. done.
        - apply Es in Hok. done. }
    split; [|split; [|split]]; [|done| |done].
    + split; [by intros [? ?]|].
      intros [?|[H|[H|H]]]; [done|destruct H..]; [by apply Ety|by apply Ep|by apply Es].
    + intros H. by destruct (H tickets).
Qed.

(** ** [manage_queue] *)

Lemma valid_operations_inv op :
  str_in op valid_operations = true -> op = "add" \/ op = "remove" \/ op = "clear".
Proof.
  unfold str_in, valid_operations. rewrite bool_decide_eq_true.
  rewrite !elem_of_cons, elem_of_nil. tauto.
Qed.

Lemma out_of_range_true (i n : Z) :
  i < 0 \/ i >= n -> (i <? 0) || (i >=? n) = true.
Proof.
  intros H. destruct (Z.ltb_spec i 0); [done|].
  destruct (Z.geb_spec i n); [done|lia].
Qed.

Lemma out_of_range_false (i n : Z) :
  0 <= i < n -> (i <? 0) || (i >=? n) = false.
Proof.
  intros H. destruct (Z.ltb_spec i 0); [lia|].
  destruct (Z.geb_spec i n); [lia|done].
Qed.

Section manage_queue_runs.
Context (st : store) (tickets queue : nat) (T Q : list nat).
Hypothesis HT : lists st !! tickets = Some T.
Hypothesis HQ : lists st !! queue = Some Q.

Lemma manage_queue_invalid op index :
  str_in op valid_operations = false ->
  manage_queue tickets queue op index st
  = (Raise (ValueError "Invalid operation. Must be one of: add, remove, clear"), st).
Proof. intros H. unfold manage_queue. by rewrite H. Qed.

Lemma manage_queue_add_none :
  manage_queue tickets queue "add" None st
  = (Raise (ValueError "Index is required for add operation"), st).
Proof. done. Qed.

Lemma manage_queue_add_range i :
  i < 0 \/ i >= Z.of_nat (length T) ->
  manage_queue tickets queue "add" (Some i) st
  = (Raise (IndexError "Ticket index out of range"), st).
Proof.
  intros Hi. unfold manage_queue, str_in.
  rewrite bool_decide_eq_true_2 by repeat constructor. cbn [negb].
  rewrite bool_decide_eq_true_2 by done.
  erewrite bind_ret by by apply list_len_ok.
  by rewrite out_of_range_true.
Qed.

Lemma manage_queue_add_full i :
  0 <= i < Z.of_nat (length T) -> (5 <= length Q)%nat ->
  manage_queue tickets queue "add" (Some i) st
  = (Raise (ValueError "Active queue is at maximum capacity (5 tickets)"), st).
Proof.
  intros Hi Hfull. unfold manage_queue, str_in.
  rewrite bool_decide_eq_true_2 by repeat constructor. cbn [negb].
  rewrite bool_decide_eq_true_2 by done.
  erewrite bind_ret by by apply list_len_ok.
  rewrite out_of_range_false by done.
  erewrite bind_ret by by apply list_len_ok.
  destruct (Z.geb_spec (Z.of_nat (length Q)) 5); [done|lia].
Qed.

Lemma manage_queue_add_ok i t :
  0 <= i -> T !! Z.to_nat i = Some t -> (length Q < 5)%nat ->
  manage_queue tickets queue "add" (Some i) st
  = (Ret (RList queue), set_lists <[queue := Q ++ [t]]> st).
Proof.
  intros Hi Ht Hroom. unfold manage_queue, str_in.
  rewrite bool_decide_eq_true_2 by repeat constructor. cbn [negb].
  rewrite bool_decide_eq_true_2 by done.
  erewrite bind_ret by by apply list_len_ok.
  apply lookup_lt_Some in Ht as Hlt.
  rewrite out_of_range_false by lia.
  erewrite bind_ret by by apply list_len_ok.
  destruct (Z.geb_spec (Z.of_nat (length Q)) 5); [lia|].
  erewrite bind_ret by by eapply list_getitem_ok.
  by erewrite bind_ret by by eapply list_append_ok.
Qed.

Lemma manage_queue_remove_none :
  manage_queue tickets queue "remove" None st
  = (Raise (ValueError "Index is required for remove operation"), st).
Proof. done. Qed.

Lemma manage_queue_remove_range i :
  i < 0 \/ i >= Z.of_nat (length Q) ->
  manage_queue tickets queue "remove" (Some i) st
  = (Raise (IndexError "Queue index out of range"), st).
Proof.
  intros Hi. unfold manage_queue, str_in.
  rewrite bool_decide_eq_true_2 by repeat constructor. cbn [negb].
  rewrite bool_decide_eq_false_2 by done.
  rewrite bool_decide_eq_true_2 by done.
  erewrite bind_ret by by apply list_len_ok.
  by rewrite out_of_range_true.
Qed.

Lemma manage_queue_remove_ok i t :
  0 <= i -> Q !! Z.to_nat i = Some t ->
  manage_queue tickets queue "remove" (Some i) st
  = (Ret (RDict t), set_lists <[queue := delete (Z.to_nat i) Q]> st).
Proof.
  intros Hi Ht. unfold manage_queue, str_in.
  rewrite bool_decide_eq_true_2 by repeat constructor. cbn [negb].
  rewrite bool_decide_eq_false_2 by done.
  rewrite bool_decide_eq_true_2 by done.
  erewrite bind_ret by by apply list_len_ok.
  apply lookup_lt_Some in Ht as Hlt.
  rewrite out_of_range_false by lia.
  by erewrite bind_ret by by eapply list_pop_ok.
Qed.

Lemma manage_queue_clear index :
  manage_queue tickets queue "clear" index st
  = (Ret (RList queue), set_lists <[queue := []]> st).
Proof.
  unfold manage_queue, str_in.
  rewrite bool_decide_eq_true_2 by repeat constructor. cbn [negb].
  rewrite !bool_decide_eq_false_2 by done.
  by erewrite bind_ret by by eapply list_clear_ok.
Qed.

(** Whatever the operation and however it ends, the queue is afterwards a
    list that is no longer than it was or has grown by one element from a
    length below five. *)
Lemma manage_queue_queue_after op index :
  exists Q', lists (manage_queue tickets queue op index st).2 !! queue = Some Q'
    /\ ((length Q' <= length Q)%nat \/ (length Q' <= 5)%nat).
Proof.
  destruct (str_in op valid_operations) eqn:Hop.
  2:{ rewrite manage_queue_invalid by done. exists Q. split; [done|lia]. }
  apply valid_operations_inv in Hop as [->|[->| ->]].
  - destruct index as [i|].
    2:{ rewrite manage_queue_add_none. exists Q. split; [done|lia]. }
    destruct (decide (0 <= i < Z.of_nat (length T))) as [Hi|Hi].
    2:{ rewrite manage_queue_add_range by lia. exists Q. split; [done|lia]. }
    destruct (decide (length Q < 5)%nat) as [Hroom|Hfull].
    2:{ rewrite manage_queue_add_full by lia. exists Q. split; [done|lia]. }
    destruct (lookup_lt_is_Some_2 T (Z.to_nat i)) as [t Ht]; [lia|].
    rewrite (manage_queue_add_ok i t) by (done || lia).
    exists (Q ++ [t]). simpl. rewrite lookup_insert_eq. split; [done|].
    right. rewrite length_app. simpl. lia.
  - destruct index as [i|].
    2:{ rewrite manage_queue_remove_none. exists Q. split; [done|lia]. }
    destruct (decide (0 <= i < Z.of_nat (length Q))) as [Hi|Hi].
    2:{ rewrite manage_queue_remove_range by lia. exists Q. split; [done|lia]. }
    destruct (lookup_lt_is_Some_2 Q (Z.to_nat i)) as [t Ht]; [lia|].
    rewrite (manage_queue_remove_ok i t) by (done || lia).
    exists (delete (Z.to_nat i) Q). simpl. rewrite lookup_insert_eq. split; [done|].
    left. rewrite length_delete by eauto. lia.
  - rewrite manage_queue_clear. exists []. simpl. rewrite lookup_insert_eq.
    split; [done|]. left. simpl. lia.
Qed.
End manage_queue_runs.

(** C2.  With the queue holding at most five tickets, the "add" operation
    raises [ValueError] when no index is given, [IndexError] when the index
    is outside the ticket list, [ValueError] with the message about the
    maximum capacity of five tickets when the queue is full, and otherwise
    appends [tickets[index]] to the queue and returns the queue.  Hence every
    operation, however it ends, leaves a queue of at most five tickets, and a
    "clear" leaves the queue empty, so that an "add" with an index inside the
    ticket list then succeeds. *)
Theorem manage_queue_add_spec (st : store) (tickets queue : nat) (T Q : list nat) :
  lists st !! tickets = Some T ->
  lists st !! queue = Some Q ->
  (length Q <= 5)%nat ->
  manage_queue tickets queue "add" None st
    = (Raise (ValueError "Index is required for add operation"), st)
  /\ (forall i, i < 0 \/ i >= Z.of_nat (length T) ->
        manage_queue tickets queue "add" (Some i) st
        = (Raise (IndexError "Ticket index out of range"), st))
  /\ (forall i, 0 <= i < Z.of_nat (length T) -> (5 <= length Q)%nat ->
        exists msg,
          manage_queue tickets queue "add" (Some i) st = (Raise (ValueError msg), st)
          /\ contains "at maximum capacity (5 tickets)" msg = true)
  /\ (forall i, 0 <= i < Z.of_nat (length T) -> (length Q < 5)%nat ->
        exists t,
          T !! Z.to_nat i = Some t
          /\ manage_queue tickets queue "add" (Some i) st
             = (Ret (RList queue), set_lists <[queue := Q ++ [t]]> st))
  /\ (forall op index,
        exists Q',
          lists (manage_queue tickets queue op index st).2 !! queue = Some Q'
          /\ (length Q' <= 5)%nat)
  /\ (forall index,
        let st1 := set_lists <[queue := []]> st in
        manage_queue tickets queue "clear" index st = (Ret (RList queue), st1)
        /\ lists st1 !! queue = Some []
        /\ forall i T1 t,
             lists st1 !! tickets = Some T1 -> 0 <= i -> T1 !! Z.to_nat i = Some t ->
             manage_queue tickets queue "add" (Some i) st1
             = (Ret (RList queue), set_lists <[queue := [t]]> st1)).
Proof.
  intros HT HQ Hcap. repeat split.
  - intros i Hi. by eapply manage_queue_add_range.
  - intros i Hi Hfull. eexists. split; [by eapply manage_queue_add_full|done].
  - intros i Hi Hroom.
    destruct (lookup_lt_is_Some_2 T (Z.to_nat i)) as [t Ht]; [lia|].
    exists t. split; [done|]. eapply manage_queue_add_ok; (done || lia).
  - intros op index.
    destruct (manage_queue_queue_after st tickets queue T Q HT HQ op index)
      as (Q' & HQ' & Hlen).
    exists Q'. split; [done|lia].
  - by eapply manage_queue_clear.
  - simpl. by rewrite lookup_insert_eq.
  - intros i T1 t HT1 Hi Ht.
    eapply (manage_queue_add_ok _ tickets queue T1 [] HT1); [|done..|simpl; lia].
    simpl. by rewrite lookup_insert_eq.
Qed.

(** C7.  The "remove" operation raises [ValueError] when no index is given
    and [IndexError] when the index is outside the queue; for an index inside
    the queue it deletes that entry, keeping the order of the others, and
    returns the removed ticket.  A successful "remove" thus returns a ticket
    where every other successful operation returns the queue. *)
Theorem manage_queue_remove_spec (st : store) (tickets queue : nat) (T Q : list nat) :
  lists st !! tickets = Some T ->
  lists st !! queue = Some Q ->
  manage_queue tickets queue "remove" None st
    = (Raise (ValueError "Index is required for remove operation"), st)
  /\ (forall i, i < 0 \/ i >= Z.of_nat (length Q) ->
        manage_queue tickets queue "remove" (Some i) st
        = (Raise (IndexError "Queue index out of range"), st))
  /\ (forall i, 0 <= i < Z.of_nat (length Q) ->
        exists t,
          Q !! Z.to_nat i = Some t
          /\ manage_queue tickets queue "remove" (Some i) st
             = (Ret (RDict t), set_lists <[queue := delete (Z.to_nat i) Q]> st))
  /\ (forall op index r st',
        manage_queue tickets queue op index st = (Ret r, st') ->
        if decide (op = "remove") then exists t, r = RDict t else r = RList queue).
Proof.
  intros HT HQ. repeat split.
  - intros i Hi. by eapply manage_queue_remove_range.
  - intros i Hi.
    destruct (lookup_lt_is_Some_2 Q (Z.to_nat i)) as [t Ht]; [lia|].
    exists t. split; [done|]. eapply manage_queue_remove_ok; (done || lia).
  - intros op index r st'.
    destruct (str_in op valid_operations) eqn:Hop.
    2:{ by erewrite manage_queue_invalid by done. }
    apply valid_operations_inv in Hop as [->|[->| ->]].
    + rewrite decide_False by done. destruct index as [i|]; [|done].
      destruct (decide (0 <= i < Z.of_nat (length T))) as [Hi|Hi].
      2:{ by erewrite manage_queue_add_range by (done || lia). }
      destruct (decide (length Q < 5)%nat) as [Hroom|Hfull].
      2:{ by erewrite manage_queue_add_full by (done || lia). }
      destruct (lookup_lt_is_Some_2 T (Z.to_nat i)) as [t Ht]; [lia|].
      erewrite (manage_queue_add_ok _ _ _ T Q) by (done || lia). congruence.
    + rewrite decide_True by done. destruct index as [i|]; [|done].
      destruct (decide (0 <= i < Z.of_nat (length Q))) as [Hi|Hi].
      2:{ by erewrite manage_queue_remove_range by (done || lia). }
      destruct (lookup_lt_is_Some_2 Q (Z.to_nat i)) as [t Ht]; [lia|].
      erewrite (manage_queue_remove_ok _ _ _ Q) by (done || lia).
      intros [= <- _]. eauto.
    + rewrite decide_False by done.
      erewrite manage_queue_clear by done. congruence.
Qed.

(** ** New lists: [combine_queues], [filter_tickets], [get_priority_tickets] *)

Lemma list_new_returns st X : returns_new_list (list_new X st) st X.
Proof. destruct (list_new_fresh st X) as (l & Hrun & Hl). by exists l. Qed.

(** A new list is none of the lists that exist, and those keep their
    contents. *)
Lemma returns_new_list_frame res st X l L :
  returns_new_list res st X -> lists st !! l = Some L ->
  res.1 <> Ret l /\ lists res.2 !! l = Some L /\ dicts res.2 = dicts st.
Proof.
  intros (r & -> & Hr) Hl. simpl.
  assert (r <> l) by congruence.
  split; [congruence|]. by rewrite lookup_insert_ne.
Qed.

(** C8.  [combine_queues(A, B)] returns a new list object whose contents are
    the elements of [A] in order followed by the elements of [B] in order,
    whatever they are: its length is [len(A) + len(B)], its first [len(A)]
    elements are [A] and the rest is [B].  The result is neither argument, and
    both arguments and all tickets are as they were. *)
Theorem combine_queues_spec (st : store) (a b : nat) (A B : list nat) :
  lists st !! a = Some A ->
  lists st !! b = Some B ->
  let res := combine_queues a b st in
  returns_new_list res st (A ++ B)
  /\ length (A ++ B) = (length A + length B)%nat
  /\ take (length A) (A ++ B) = A
  /\ drop (length A) (A ++ B) = B
  /\ res.1 <> Ret a /\ res.1 <> Ret b
  /\ lists res.2 !! a = Some A
  /\ lists res.2 !! b = Some B
  /\ dicts res.2 = dicts st.
Proof.
  intros HA HB res.
  assert (returns_new_list res st (A ++ B)) as Hnew.
  { subst res. unfold combine_queues, list_concat.
    erewrite bind_ret by by apply read_list_ok.
    erewrite bind_ret by by apply read_list_ok.
    apply list_new_returns. }
  destruct (returns_new_list_frame _ _ _ _ _ Hnew HA) as (? & ? & ?).
  destruct (returns_new_list_frame _ _ _ _ _ Hnew HB) as (? & ? & ?).
  repeat split; try done.
  - apply length_app.
  - by rewrite take_app_length.
  - by rewrite drop_app_length.
Qed.

(** A comprehension whose condition only reads the store. *)
Lemma filterM_pure st (cond : nat -> M bool) (f : nat -> bool) L :
  (forall t, t ∈ L -> cond t st = (Ret (f t), st)) ->
  filterM cond L st = (Ret (filter f L), st).
Proof.
  induction L as [|t L IH]; intros Hcond; [done|].
  cbn [filterM]. erewrite bind_ret by (apply Hcond; left).
  erewrite bind_ret by (apply IH; intros; apply Hcond; by right).
  rewrite filter_cons. unfold mret, M_ret.
  destruct (f t); by rewrite ?decide_True, ?decide_False by done.
Qed.

Lemma list_comprehension_pure st l L (cond : nat -> M bool) (f : nat -> bool) :
  lists st !! l = Some L ->
  (forall t, t ∈ L -> cond t st = (Ret (f t), st)) ->
  returns_new_list (list_comprehension l cond st) st (filter f L).
Proof.
  intros Hl Hcond. unfold list_comprehension.
  erewrite bind_ret by by apply read_list_ok.
  erewrite bind_ret by by apply filterM_pure.
  apply list_new_returns.
Qed.

Lemma filter_ext_in {A} (P Q : A -> Prop) `{!forall x, Decision (P x)}
    `{!forall x, Decision (Q x)} (l : list A) :
  (forall x, x ∈ l -> P x <-> Q x) -> filter P l = filter Q l.
Proof.
  induction l as [|x l IH]; intros Hiff; [done|].
  rewrite !filter_cons.
  rewrite IH by (intros; apply Hiff; by right).
  destruct (decide (P x)) as [HP|HP], (decide (Q x)) as [HQ|HQ]; try done.
  - destruct HQ. apply Hiff; [left|done].
  - destruct HP. apply Hiff; [left|done].
Qed.

Lemma all_tickets_elem st P L t :
  all_tickets st P L -> t ∈ L -> exists d, dicts st !! t = Some d /\ P d.
Proof. unfold all_tickets. rewrite Forall_forall. eauto. Qed.

(** The fields of a ticket record. *)
Lemma record_field d k :
  ticket_record d -> k ∈ required_fields -> k <> "priority" ->
  exists s, d !! k = Some (VStr s).
Proof.
  intros ((_ & (ty & _ & Hty) & _ & (s & _ & Hs)) & [i Hi] & [ti Hti]) Hk Hne.
  unfold required_fields in Hk. rewrite !elem_of_cons, elem_of_nil in Hk.
  destruct Hk as [->|[->|[->|[->|[->|[]]]]]]; eauto. done.
Qed.

Lemma record_priority d :
  ticket_record d ->
  exists p n, d !! "priority" = Some p /\ int_value p = Some n /\ 1 <= n <= 4.
Proof. by intros ((_ & _ & Hp & _) & _). Qed.

Lemma record_field_of st L t k :
  all_tickets st ticket_record L -> t ∈ L ->
  k ∈ required_fields -> k <> "priority" ->
  exists s, field_of st k t = Some (VStr s).
Proof.
  intros Hall Ht Hk Hne.
  destruct (all_tickets_elem _ _ _ _ Hall Ht) as (d & Hd & Hrec).
  destruct (record_field d k Hrec Hk Hne) as [s Hs].
  exists s. unfold field_of. by rewrite Hd.
Qed.

Lemma record_priority_of st L t :
  all_tickets st ticket_record L -> t ∈ L ->
  exists p n, field_of st "priority" t = Some p /\ int_value p = Some n /\ 1 <= n <= 4.
Proof.
  intros Hall Ht.
  destruct (all_tickets_elem _ _ _ _ Hall Ht) as (d & Hd & Hrec).
  destruct (record_priority d Hrec) as (p & n & Hp & Hn).
  exists p, n. unfold field_of. by rewrite Hd.
Qed.

Lemma field_cond_run st k t x (test : value -> bool) :
  field_of st k t = Some x ->
  (dict_getitem t k ≫= fun f => mret (test f)) st = (Ret (test x), st).
Proof.
  unfold field_of. destruct (dicts st !! t) as [d|] eqn:Hd; [|done].
  simpl. intros Hx. by erewrite bind_ret by by eapply dict_getitem_ok.
Qed.

Lemma comprehension_field st l L k (test : value -> bool) :
  lists st !! l = Some L ->
  (forall t, t ∈ L -> is_Some (field_of st k t)) ->
  returns_new_list
    (list_comprehension l (fun ticket => dict_getitem ticket k ≫= fun f => mret (test f)) st)
    st (filter (fun t => from_option test false (field_of st k t)) L).
Proof.
  intros Hl Hfield.
  apply (list_comprehension_pure st l L _
           (fun t => from_option test false (field_of st k t))); [done|].
  intros t Ht. destruct (Hfield t Ht) as [x Hx].
  rewrite Hx. simpl. by apply field_cond_run.
Qed.

Lemma py_eq_of_str s v : py_eq (VStr s) v = true <-> VStr s = v.
Proof.
  destruct v as [|b|n|t]; simpl; try (split; [done|discriminate]).
  rewrite bool_decide_eq_true. split; congruence.
Qed.

Lemma py_eq_int p n m : int_value p = Some n -> py_eq p (VInt m) = true <-> n = m.
Proof.
  destruct p as [|b|k|t]; simpl; try done; intros [= <-];
    by rewrite bool_decide_eq_true.
Qed.

(** Filtering records on a string field with [==] selects exactly the
    tickets whose field is the given value. *)
Lemma filter_string_field st L k v :
  all_tickets st ticket_record L -> k ∈ required_fields -> k <> "priority" ->
  filter (fun t => from_option (fun f => py_eq f v) false (field_of st k t)) L
  = with_field st k v L.
Proof.
  intros Hall Hk Hne. apply filter_ext_in. intros t Ht.
  destruct (record_field_of st L t k Hall Ht Hk Hne) as [s Hs].
  rewrite Hs. cbn [from_option]. rewrite Is_true_true, py_eq_of_str. split; congruence.
Qed.

Lemma filter_priority_field st L n :
  all_tickets st ticket_record L ->
  filter (fun t => from_option (fun p => py_eq p (VInt n)) false
                     (field_of st "priority" t)) L
  = with_priority st n L.
Proof.
  intros Hall. apply filter_ext_in. intros t Ht.
  destruct (record_priority_of st L t Hall Ht) as (p & m & Hp & Hm & _).
  rewrite Hp. cbn [from_option mbind option_bind]. rewrite Is_true_true, (py_eq_int p m n), Hm by done.
  split; congruence.
Qed.

Lemma filter_nil_if {A} (P : A -> Prop) `{!forall x, Decision (P x)} (l : list A) :
  (forall x, x ∈ l -> ~ P x) -> filter P l = [].
Proof.
  induction l as [|x l IH]; intros Hno; [done|].
  rewrite filter_cons, decide_False by (apply Hno; left).
  apply IH. intros; apply Hno; by right.
Qed.

Lemma with_priority_out_of_range st L n :
  all_tickets st ticket_record L -> ~ (1 <= n <= 4) -> with_priority st n L = [].
Proof.
  intros Hall Hn. apply filter_nil_if. intros t Ht.
  destruct (record_priority_of st L t Hall Ht) as (p & m & Hp & Hm & Hrange).
  rewrite Hp. simpl. rewrite Hm. intros [= ->]. lia.
Qed.

Lemma filter_tickets_field st tickets L k v :
  lists st !! tickets = Some L -> all_tickets st ticket_record L ->
  k = "type" \/ k = "status" ->
  returns_new_list (filter_tickets tickets k v st) st (with_field st k v L).
Proof.
  intros HL Hall Hk.
  assert (k ∈ required_fields /\ k <> "priority" /\ k <> "keyword"
          /\ k ∈ valid_filters) as (Hreq & Hne & Hne' & Hfil).
  { destruct Hk as [-> | ->]; repeat split; try done; repeat constructor. }
  unfold filter_tickets, str_in.
  rewrite bool_decide_eq_true_2 by done. cbn [negb].
  rewrite !bool_decide_eq_false_2 by done.
  rewrite <- filter_string_field by done.
  apply comprehension_field; [done|].
  intros t Ht. destruct (record_field_of st L t k Hall Ht Hreq Hne). eauto.
Qed.

Lemma filter_tickets_priority_text st tickets L s n :
  lists st !! tickets = Some L -> all_tickets st ticket_record L ->
  int_of_string s = Some n ->
  returns_new_list (filter_tickets tickets "priority" (VStr s) st) st
    (with_priority st n L).
Proof.
  intros HL Hall Hs. unfold filter_tickets, str_in.
  rewrite bool_decide_eq_true_2 by repeat constructor. cbn [negb].
  rewrite bool_decide_eq_false_2 by done.
  rewrite bool_decide_eq_true_2 by done.
  erewrite bind_ret; last first.
  { unfold try_except_ValueError, py_int. rewrite Hs. done. }
  rewrite <- filter_priority_field by done.
  apply comprehension_field; [done|].
  intros t Ht. destruct (record_priority_of st L t Hall Ht) as (p & ? & ? & ?). eauto.
Qed.

Lemma filter_tickets_priority_bad st tickets s :
  int_of_string s = None ->
  filter_tickets tickets "priority" (VStr s) st
  = (Raise (ValueError "Priority value must be a number between 1 and 4"), st).
Proof.
  intros Hs. unfold filter_tickets, str_in.
  rewrite bool_decide_eq_true_2 by repeat constructor. cbn [negb].
  rewrite bool_decide_eq_false_2 by done.
  rewrite bool_decide_eq_true_2 by done.
  erewrite bind_raise; [done|].
  unfold try_except_ValueError, py_int. rewrite Hs. done.
Qed.

(** C3.  On a list of ticket records, filtering by "type" or "status" with
    any value at all returns the tickets whose field equals that value, an
    empty list when there is none, and never raises; filtering by "priority"
    with a string of 7-bit characters raises [ValueError] ("must be a number
    between 1 and 4") when the string is not a numeral, and a string that is
    a numeral returns the tickets whose priority equals the number, which
    is the empty list for a number outside 1..4 such as "7".  (Which strings
    with other characters [int] accepts is not part of the embedding, hence
    the restriction of the refusal.) *)
Theorem filter_tickets_spec (st : store) (tickets : nat) (L : list nat) :
  lists st !! tickets = Some L ->
  all_tickets st ticket_record L ->
  (forall k v, k = "type" \/ k = "status" ->
     returns_new_list (filter_tickets tickets k v st) st (with_field st k v L)
     /\ ((forall t, t ∈ L -> field_of st k t <> Some v) -> with_field st k v L = []))
  /\ (forall s, is_ascii s = true -> int_of_string s = None ->
        exists msg,
          filter_tickets tickets "priority" (VStr s) st = (Raise (ValueError msg), st)
          /\ contains "must be a number between 1 and 4" msg = true)
  /\ (forall s n, int_of_string s = Some n ->
        returns_new_list (filter_tickets tickets "priority" (VStr s) st) st
          (with_priority st n L)
        /\ (~ (1 <= n <= 4) -> with_priority st n L = []))
  /\ returns_new_list (filter_tickets tickets "priority" (VStr "7") st) st [].
Proof.
  intros HL Hall. split; [|split; [|split]].
  - intros k v Hk. split; [by apply filter_tickets_field|].
    intros Hno. by apply filter_nil_if.
  - intros s _ Hs. eexists. split; [by apply filter_tickets_priority_bad|done].
  - intros s n Hs. split; [by apply filter_tickets_priority_text|].
    by apply with_priority_out_of_range.
  - rewrite <- (with_priority_out_of_range st L 7) by (done || lia).
    by apply filter_tickets_priority_text.
Qed.

(** ** Sorting *)

Section stable_sort.
Implicit Types (x y : value * nat) (l : list (value * nat)).

Lemma insert_keyed_perm x l : insert_keyed x l ≡ₚ x :: l.
Proof.
  induction l as [|y l IH]; [done|]. simpl.
  destruct (key_ltb y.1 x.1); [|done].
  rewrite IH. apply Permutation_swap.
Qed.

Lemma stable_sort_perm l : stable_sort l ≡ₚ l.
Proof.
  induction l as [|x l IH]; [done|]. simpl.
  by rewrite insert_keyed_perm, IH.
Qed.

(** *** The order *)

Lemma ascii_compare_code c c' :
  match Ascii.compare c c' with
  | Lt => ascii_code c < ascii_code c'
  | Eq => c = c'
  | Gt => ascii_code c' < ascii_code c
  end.
Proof.
  unfold Ascii.compare, ascii_code.
  destruct (N.compare_spec (N_of_ascii c) (N_of_ascii c')) as [Heq|Hlt|Hgt]; [|lia..].
  rewrite <- (ascii_N_embedding c), <- (ascii_N_embedding c'). by rewrite Heq.
Qed.

Lemma lex_le_refl s : lex_le s s.
Proof. induction s; by constructor. Qed.

Lemma string_compare_lex s t :
  match String.compare s t with
  | Lt => lex_le s t /\ s <> t
  | Eq => s = t
  | Gt => lex_le t s /\ s <> t
  end.
Proof.
  revert t. induction s as [|c s IH]; intros [|c' t]; simpl; try done.
  - split; [constructor|done].
  - split; [constructor|done].
  - pose proof (ascii_compare_code c c') as Hc.
    destruct (Ascii.compare c c').
    + subst c'. specialize (IH t). destruct (String.compare s t).
      * by subst.
      * destruct IH. split; [by constructor|congruence].
      * destruct IH. split; [by constructor|congruence].
    + split; [by constructor|]. intros [= -> _]. lia.
    + split; [by constructor|]. intros [= -> _]. lia.
Qed.

Lemma string_ltb_le s t : String.ltb s t = true -> lex_le s t /\ s <> t.
Proof.
  unfold String.ltb. pose proof (string_compare_lex s t) as H.
  by destruct (String.compare s t).
Qed.

Lemma string_not_ltb_le s t : String.ltb t s = false -> lex_le s t.
Proof.
  unfold String.ltb. pose proof (string_compare_lex t s) as H.
  destruct (String.compare t s); try done.
  - intros _. subst. apply lex_le_refl.
  - intros _. by destruct H.
Qed.

Lemma key_ltb_value_le a b : key_ltb a b = true -> value_le a b.
Proof.
  unfold key_ltb, py_lt, value_le.
  destruct a as [|x|n|s], b as [|y|m|t]; simpl; try done;
    try (intros H%Z.ltb_lt; lia).
  intros H. by apply string_ltb_le.
Qed.

Lemma key_not_ltb_value_le a b :
  same_kind a b -> key_ltb b a = false -> value_le a b.
Proof.
  unfold key_ltb, py_lt, value_le.
  intros [[[n Hn] [m Hm]]|[[s Hs] [t Ht]]].
  - destruct a as [|x|k|u], b as [|y|j|w]; simpl in *; try done;
      intros H%Z.ltb_ge; lia.
  - destruct a as [|x|k|u], b as [|y|j|w]; simpl in *; try done.
    apply string_not_ltb_le.
Qed.

Lemma key_ltb_not_eq a b v : key_ltb a b = true -> py_eq a v = true -> py_eq b v = false.
Proof.
  unfold key_ltb, py_lt.
  destruct a as [|x|n|s], b as [|y|m|t]; simpl; try done;
    destruct v as [|z|k|u]; simpl; try done;
    rewrite ?bool_decide_eq_true, ?bool_decide_eq_false;
    try (intros H%Z.ltb_lt; lia).
  intros [_ Hne]%string_ltb_le. congruence.
Qed.

Lemma insert_keyed_hd z x l :
  keys_le z x -> HdRel keys_le z l -> HdRel keys_le z (insert_keyed x l).
Proof.
  intros Hzx Hzl. destruct l as [|y l]; simpl; [by constructor|].
  destruct (key_ltb y.1 x.1); constructor; [|done].
  by inversion Hzl.
Qed.

Lemma insert_keyed_sorted x l :
  Forall (fun y => same_kind x.1 y.1) l ->
  Sorted keys_le l -> Sorted keys_le (insert_keyed x l).
Proof.
  induction l as [|y l IH]; intros Hkind Hsorted; simpl.
  - by repeat constructor.
  - apply Forall_cons in Hkind as [Hxy Hkind].
    apply Sorted_inv in Hsorted as [Hsorted Hhd].
    destruct (key_ltb y.1 x.1) eqn:Hlt.
    + constructor; [by apply IH|].
      apply insert_keyed_hd; [|done]. by apply key_ltb_value_le.
    + constructor; [by constructor|]. constructor.
      by apply key_not_ltb_value_le.
Qed.

Lemma stable_sort_sorted l :
  (forall x y, x ∈ l -> y ∈ l -> same_kind x.1 y.1) ->
  Sorted keys_le (stable_sort l).
Proof.
  induction l as [|x l IH]; intros Hkind; simpl; [constructor|].
  apply insert_keyed_sorted.
  - apply Forall_forall. intros y Hy. rewrite stable_sort_perm in Hy.
    apply Hkind; [left|by right].
  - apply IH. intros y z Hy Hz. apply Hkind; by right.
Qed.

(** *** Stability *)

Lemma insert_keyed_filter v x l :
  filter (fun y => py_eq y.1 v) (insert_keyed x l)
  = filter (fun y => py_eq y.1 v) (x :: l).
Proof.
  induction l as [|y l IH]; [done|]. simpl.
  destruct (key_ltb y.1 x.1) eqn:Hlt; [|done].
  rewrite filter_cons, IH, !filter_cons.
  destruct (decide (py_eq y.1 v)) as [Hy|Hy]; [|done].
  destruct (decide (py_eq x.1 v)) as [Hx|Hx]; [|done].
  apply Is_true_true in Hy.
  rewrite (key_ltb_not_eq _ _ _ Hlt Hy) in Hx. by destruct Hx.
Qed.

Lemma stable_sort_filter v l :
  filter (fun y => py_eq y.1 v) (stable_sort l) = filter (fun y => py_eq y.1 v) l.
Proof.
  induction l as [|x l IH]; [done|]. simpl.
  by rewrite insert_keyed_filter, !filter_cons, IH.
Qed.
End stable_sort.

Section sorted_by.
Context (g : nat -> value).

Lemma zip_keyed L : zip (g <$> L) L = keyed g <$> L.
Proof. induction L as [|t L IH]; [done|]. simpl. f_equal. exact IH. Qed.

Lemma keyed_snd L : (keyed g <$> L).*2 = L.
Proof. induction L as [|t L IH]; [done|]. simpl. f_equal. exact IH. Qed.

Lemma keyed_recover (l : list (value * nat)) :
  Forall (fun x => x = keyed g x.2) l -> l = keyed g <$> l.*2.
Proof.
  induction 1 as [|x l Hx _ IH]; [done|]. simpl. f_equal; [exact Hx|exact IH].
Qed.

Lemma stable_sort_keyed L : stable_sort (keyed g <$> L) = keyed g <$> sorted_by g L.
Proof.
  unfold sorted_by. rewrite zip_keyed. apply keyed_recover.
  rewrite stable_sort_perm. apply Forall_fmap, Forall_forall. by intros t _.
Qed.

Lemma sorted_by_perm L : sorted_by g L ≡ₚ L.
Proof.
  unfold sorted_by. rewrite zip_keyed, stable_sort_perm. by rewrite keyed_snd.
Qed.

Lemma Sorted_keyed_inv (L : list nat) :
  Sorted keys_le (keyed g <$> L) -> Sorted (fun t u => value_le (g t) (g u)) L.
Proof.
  induction L as [|t L IH]; [constructor|]. simpl.
  intros [Hs Hhd]%Sorted_inv. constructor; [by apply IH|].
  destruct L; [constructor|]. constructor. by inversion Hhd.
Qed.

Lemma sorted_by_sorted L :
  (forall t u, t ∈ L -> u ∈ L -> same_kind (g t) (g u)) ->
  Sorted (fun t u => value_le (g t) (g u)) (sorted_by g L).
Proof.
  intros Hkind. apply Sorted_keyed_inv. rewrite <- stable_sort_keyed.
  apply stable_sort_sorted.
  intros x y (t & -> & Ht)%list_elem_of_fmap (u & -> & Hu)%list_elem_of_fmap.
  by apply Hkind.
Qed.

Lemma filter_keyed v (L : list nat) :
  filter (fun y : value * nat => py_eq y.1 v) (keyed g <$> L)
  = keyed g <$> filter (fun t => py_eq (g t) v) L.
Proof.
  induction L as [|t L IH]; [done|].
  rewrite fmap_cons, !filter_cons, IH.
  change ((keyed g t).1) with (g t). by destruct (decide _).
Qed.

Lemma sorted_by_stable v L :
  filter (fun t => py_eq (g t) v) (sorted_by g L)
  = filter (fun t => py_eq (g t) v) L.
Proof.
  rewrite <- (keyed_snd (filter _ (sorted_by g L))), <- filter_keyed.
  rewrite <- stable_sort_keyed, stable_sort_filter, filter_keyed.
  apply keyed_snd.
Qed.
End sorted_by.

Lemma mapM_pure {B} st (f : nat -> M B) (g : nat -> B) L :
  (forall t, t ∈ L -> f t st = (Ret (g t), st)) ->
  mapM f L st = (Ret (g <$> L), st).
Proof.
  induction L as [|t L IH]; intros Hf; [done|].
  cbn [mapM]. erewrite bind_ret by (apply Hf; left).
  by erewrite bind_ret by (apply IH; intros; apply Hf; by right).
Qed.

Lemma key_of_run st k t :
  is_Some (field_of st k t) -> dict_getitem t k st = (Ret (key_of st k t), st).
Proof.
  unfold key_of, field_of. intros [v Hv]. rewrite Hv.
  destruct (dicts st !! t) as [d|] eqn:Hd; [|done].
  by eapply dict_getitem_ok.
Qed.

Lemma sort_tickets_run st tickets L k :
  lists st !! tickets = Some L ->
  k ∈ valid_keys ->
  (forall t, t ∈ L -> is_Some (field_of st k t)) ->
  sortable (key_of st k <$> L) = true ->
  returns_new_list (sort_tickets tickets k st) st (sorted_by (key_of st k) L).
Proof.
  intros HL Hk Hfield Hsortable. unfold sort_tickets, str_in.
  rewrite bool_decide_eq_true_2 by done. cbn [negb].
  destruct (list_new_fresh st L) as (r & Hnew & Hr).
  exists r. split; [|done].
  erewrite bind_ret; last first.
  { unfold list_copy. by erewrite bind_ret by by apply read_list_ok. }
  erewrite bind_ret; [done|].
  unfold list_sort.
  erewrite bind_ret by (apply read_list_ok; simpl; apply lookup_insert_eq).
  erewrite bind_ret; last first.
  { apply (mapM_pure _ _ (key_of st k)). intros t Ht.
    by apply (key_of_run (set_lists <[r:=L]> st)), Hfield. }
  rewrite Hsortable. unfold write_list, modify, set_lists. simpl.
  by rewrite insert_insert_eq.
Qed.

Lemma sort_tickets_bad_key st tickets k :
  k ∉ valid_keys ->
  sort_tickets tickets k st
  = (Raise (ValueError "Invalid sort key. Must be one of: id, priority, status, type"),
     st).
Proof.
  intros Hk. unfold sort_tickets, str_in. by rewrite bool_decide_eq_false_2.
Qed.

Lemma Sorted_mono {A} (R1 R2 : relation A) (l : list A) :
  (forall x y, R1 x y -> R2 x y) -> Sorted R1 l -> Sorted R2 l.
Proof.
  intros Himpl. induction 1 as [|x l _ IH Hhd]; constructor; [done|].
  destruct Hhd; constructor; auto.
Qed.

Lemma valid_keys_required k : k ∈ valid_keys -> k ∈ required_fields.
Proof.
  unfold valid_keys, required_fields. rewrite !elem_of_cons, !elem_of_nil. tauto.
Qed.

Lemma record_key_field st L t k :
  all_tickets st ticket_record L -> t ∈ L -> k ∈ valid_keys ->
  is_Some (field_of st k t).
Proof.
  intros Hall Ht Hk. destruct (decide (k = "priority")) as [->|Hne].
  - destruct (record_priority_of st L t Hall Ht) as (p & ? & ? & ?). eauto.
  - destruct (record_field_of st L t k Hall Ht) as [s ?];
      eauto using valid_keys_required.
Qed.

Lemma record_keys_same_kind st L k t u :
  all_tickets st ticket_record L -> k ∈ valid_keys -> t ∈ L -> u ∈ L ->
  same_kind (key_of st k t) (key_of st k u).
Proof.
  intros Hall Hk Ht Hu. unfold key_of. destruct (decide (k = "priority")) as [->|Hne].
  - destruct (record_priority_of st L t Hall Ht) as (p & n & -> & Hn & _).
    destruct (record_priority_of st L u Hall Hu) as (q & m & -> & Hm & _).
    left. simpl. rewrite Hn, Hm. eauto.
  - destruct (record_field_of st L t k Hall Ht) as [s ->];
      [by apply valid_keys_required|done|].
    destruct (record_field_of st L u k Hall Hu) as [s' ->];
      [by apply valid_keys_required|done|].
    right. simpl. eauto.
Qed.

Lemma record_keys_sortable st L k :
  all_tickets st ticket_record L -> k ∈ valid_keys ->
  sortable (key_of st k <$> L) = true.
Proof.
  intros Hall Hk. unfold sortable.
  destruct (decide (k = "priority")) as [->|Hne].
  - apply orb_true_iff. left. apply orb_true_iff. right.
    apply forallb_forall. intros v (t & -> & Ht)%list_elem_of_In%list_elem_of_fmap.
    apply bool_decide_eq_true. unfold key_of.
    destruct (record_priority_of st L t Hall Ht) as (p & n & -> & Hn & _).
    simpl. rewrite Hn. eauto.
  - apply orb_true_iff. right.
    apply forallb_forall. intros v (t & -> & Ht)%list_elem_of_In%list_elem_of_fmap.
    apply bool_decide_eq_true. unfold key_of.
    destruct (record_field_of st L t k Hall Ht) as [s ->];
      [by apply valid_keys_required|done|].
    simpl. eauto.
Qed.

Lemma key_of_le_field_le st k t u :
  value_le (key_of st k t) (key_of st k u) -> field_le st k t u.
Proof.
  unfold key_of, field_le.
  destruct (field_of st k t) as [a|], (field_of st k u) as [b|]; simpl; try done.
  by destruct a.
Qed.

Lemma has_key_key_of st k v t :
  is_Some (field_of st k t) -> has_key st k v t = py_eq (key_of st k t) v.
Proof. unfold has_key, key_of. by intros [f ->]. Qed.

(** C4.  For a list of ticket records and a key among id, priority, status
    and type, [sort_tickets] returns a new list object that holds the same
    tickets in ascending order of that field (lexicographic order for the
    string fields, numeric order for priority).  Tickets with equal keys keep
    the relative order they had in the input.  The input list is not the
    result and keeps its contents.  Any other key raises [ValueError] with a
    message that enumerates the valid keys. *)
Theorem sort_tickets_spec (st : store) (tickets : nat) (L : list nat) :
  lists st !! tickets = Some L ->
  all_tickets st ticket_record L ->
  (forall k, k ∈ valid_keys ->
     exists L',
       let res := sort_tickets tickets k st in
       returns_new_list res st L'
       /\ L' ≡ₚ L
       /\ Sorted (field_le st k) L'
       /\ (forall v, filter (has_key st k v) L' = filter (has_key st k v) L)
       /\ res.1 <> Ret tickets
       /\ lists res.2 !! tickets = Some L
       /\ dicts res.2 = dicts st)
  /\ (forall k, k ∉ valid_keys ->
        exists msg,
          sort_tickets tickets k st = (Raise (ValueError msg), st)
          /\ contains "id, priority, status, type" msg = true).
Proof.
  intros HL Hall. split.
  - intros k Hk. exists (sorted_by (key_of st k) L). intros res.
    assert (forall t, t ∈ L -> is_Some (field_of st k t)) as Hfield.
    { intros t Ht. by eapply record_key_field. }
    assert (returns_new_list res st (sorted_by (key_of st k) L)) as Hnew.
    { apply sort_tickets_run; eauto using record_keys_sortable. }
    destruct (returns_new_list_frame _ _ _ _ _ Hnew HL) as (? & ? & ?).
    repeat split; try done.
    + apply sorted_by_perm.
    + eapply Sorted_mono; [|apply sorted_by_sorted].
      * intros t u. apply key_of_le_field_le.
      * intros t u Ht Hu. by eapply record_keys_same_kind.
    + intros v.
      rewrite (filter_ext_in (has_key st k v) (fun t => py_eq (key_of st k t) v) L).
      2:{ intros t Ht. by rewrite has_key_key_of by eauto. }
      rewrite (filter_ext_in (has_key st k v) (fun t => py_eq (key_of st k t) v)
                 (sorted_by (key_of st k) L)).
      2:{ intros t Ht. rewrite sorted_by_perm in Ht.
          by rewrite has_key_key_of by eauto. }
      apply sorted_by_stable.
  - intros k Hk. eexists. split; [by apply sort_tickets_bad_key|done].
Qed.

(** ** [update_ticket] *)

Section update_priority.
Context (st : store) (tickets : nat) (L : list nat) (i : Z) (t : nat) (d : dict).
Hypothesis HL : lists st !! tickets = Some L.
Hypothesis Hi : 0 <= i.
Hypothesis Ht : L !! Z.to_nat i = Some t.
Hypothesis Hd : dicts st !! t = Some d.

Lemma update_ticket_priority_run v :
  update_ticket tickets i "priority" v st
  = match py_int v with
    | inr n =>
        if (n <? 1) || (n >? 4)
        then (Raise (ValueError "Priority must be an integer between 1 and 4"), st)
        else (Ret t, set_dicts <[t := <["priority" := VInt n]> d]> st)
    | inl (ValueError _) =>
        (Raise (ValueError "Priority must be an integer between 1 and 4"), st)
    | inl e => (Raise e, st)
    end.
Proof.
  unfold update_ticket, str_in.
  erewrite bind_ret by by apply list_len_ok.
  apply lookup_lt_Some in Ht as Hlt.
  rewrite out_of_range_false by lia.
  rewrite bool_decide_eq_true_2 by repeat constructor. cbn [negb].
  erewrite bind_ret by by eapply list_getitem_ok.
  rewrite bool_decide_eq_false_2 by done.
  rewrite bool_decide_eq_true_2 by done.
  destruct (py_int v) as [e|n] eqn:Hv.
  - erewrite bind_raise with (e := match e with
                                    | ValueError _ =>
                                        ValueError "Priority must be an integer between 1 and 4"
                                    | _ => e
                                    end); [by destruct e|].
    erewrite bind_raise; [done|].
    unfold try_except_ValueError. by destruct e.
  - destruct ((n <? 1) || (n >? 4)) eqn:Hrange.
    + erewrite bind_raise; [done|].
      erewrite bind_raise; [done|].
      unfold try_except_ValueError. simpl.
      unfold mbind, M_bind, mret, M_ret. by rewrite Hrange.
    + erewrite bind_ret; [done|].
      erewrite bind_ret; last first.
      { unfold try_except_ValueError. simpl.
        unfold mbind, M_bind, mret, M_ret. by rewrite Hrange. }
      by eapply dict_setitem_ok.
Qed.

(** For a value that [int()] accepts or refuses with [ValueError] (any
    string, integer or boolean), [update_ticket] raises the one
    [ValueError] exactly when the coercion fails or its result is outside
    1..4, leaving the store as it was, and otherwise sets the priority of
    that one ticket to the coerced integer and returns the ticket. *)
Lemma update_ticket_priority_coercible v :
  v <> VNone ->
  let res := update_ticket tickets i "priority" v st in
  (res = (Raise (ValueError "Priority must be an integer between 1 and 4"), st)
   <-> (forall n, py_int v = inr n -> ~ (1 <= n <= 4)))
  /\ (forall n, py_int v = inr n -> 1 <= n <= 4 ->
      res = (Ret t, set_dicts <[t := <["priority" := VInt n]> d]> st)).
Proof.
  intros Hv res. subst res. rewrite update_ticket_priority_run.
  destruct (py_int v) as [e|n] eqn:Hint.
  - assert (exists msg, e = ValueError msg) as [msg ->].
    { destruct v as [|b|k|s]; simpl in Hint; try done.
      destruct (int_of_string s); [done|]. injection Hint as <-. eauto. }
    split; [|done]. split; [done|]. done.
  - destruct (Z.ltb_spec n 1), (Z.gtb_spec n 4); simpl.
    all: split; [split|]; try done.
    all: try (intros _ m [= <-]; lia).
    all: try (intros H'; exfalso; apply (H' n eq_refl); lia).
    all: try (intros m [= <-] Hm; (lia || done)).
Qed.

(** [None] is not coerced: the [TypeError] of [int(None)] passes through
    the handler for [ValueError]. *)
Lemma update_ticket_priority_none_run :
  update_ticket tickets i "priority" VNone st = (Raise TypeError, st).
Proof. by rewrite update_ticket_priority_run. Qed.
End update_priority.

(** C5.  On the seed data, [update_ticket(tickets, 0, "priority", None)]
    does not raise [ValueError]: coercing [None] to an integer fails with
    [TypeError], which the handler for [ValueError] lets through.  The store
    is left as it was. *)
Theorem update_ticket_priority_none_seed :
  update_ticket 0%nat 0 "priority" VNone seed_store = (Raise TypeError, seed_store).
Proof.
  eapply (update_ticket_priority_none_run seed_store 0%nat _ 0 0%nat); try done.
Qed.

(** ** The seed data *)

(** C9.  [initialize_data] builds five tickets T001 to T005, two escalated
    tickets and an empty queue.  On them, [get_priority_tickets(tickets, 1)]
    returns a list holding exactly T003 "Application crashes"; then
    [filter_tickets(tickets, "type", "billing")] returns a list holding
    exactly T001 and T005, in that order; then
    [update_ticket(tickets, 0, "status", "resolved")] succeeds, and
    afterwards [tickets[0]["status"]] is "resolved". *)
Theorem seed_scenario :
  exists tickets escalated queue,
    initialize_data empty_store = (Ret (tickets, escalated, queue), seed_store)
    /\ contents seed_store tickets
       = Some [Some (ticket_dict "T001" "Payment not processing" "billing" 2 "open");
               Some (ticket_dict "T002" "Reset password" "account" 3 "new");
               Some (ticket_dict "T003" "Application crashes" "technical" 1 "open");
               Some (ticket_dict "T004" "Add dark mode" "feature" 4 "new");
               Some (ticket_dict "T005" "Renewal failed" "billing" 2 "open")]
    /\ contents seed_store escalated
       = Some [Some (ticket_dict "E001" "Security breach" "technical" 1 "new");
               Some (ticket_dict "E002" "Double-charged" "billing" 1 "new")]
    /\ contents seed_store queue = Some []
    /\ exists critical st1,
         get_priority_tickets tickets (VInt 1) seed_store = (Ret critical, st1)
         /\ contents st1 critical
            = Some [Some (ticket_dict "T003" "Application crashes" "technical" 1 "open")]
         /\ exists billing st2,
              filter_tickets tickets "type" (VStr "billing") st1 = (Ret billing, st2)
              /\ contents st2 billing
                 = Some [Some (ticket_dict "T001" "Payment not processing" "billing" 2 "open");
                         Some (ticket_dict "T005" "Renewal failed" "billing" 2 "open")]
              /\ exists updated st3,
                   update_ticket tickets 0 "status" (VStr "resolved") st2
                   = (Ret updated, st3)
                   /\ item_field st3 tickets 0 "status" = Some (VStr "resolved")
                   /\ contents st3 tickets
                      = Some [Some (ticket_dict "T001" "Payment not processing" "billing" 2 "resolved");
                              Some (ticket_dict "T002" "Reset password" "account" 3 "new");
                              Some (ticket_dict "T003" "Application crashes" "technical" 1 "open");
                              Some (ticket_dict "T004" "Add dark mode" "feature" 4 "new");
                              Some (ticket_dict "T005" "Renewal failed" "billing" 2 "open")].
Proof.
  exists 0%nat, 1%nat, 2%nat.
  split; [vm_compute; reflexivity|].
  split; [vm_compute; reflexivity|].
  split; [vm_compute; reflexivity|].
  split; [vm_compute; reflexivity|].
  eexists _, _. split; [vm_compute; reflexivity|].
  split; [vm_compute; reflexivity|].
  eexists _, _. split; [vm_compute; reflexivity|].
  split; [vm_compute; reflexivity|].
  eexists _, _. split; [vm_compute; reflexivity|].
  split; vm_compute; reflexivity.
Qed.

(** The queue holds the tickets themselves: a ticket updated through the
    ticket list shows the new status through its queue entry. *)
Example queue_entry_shared :
  (manage_queue 0%nat 2%nat "add" (Some 0) ;;
   update_ticket 0%nat 0 "status" (VStr "resolved") ;;
   ticket ← list_getitem 2%nat 0;
   dict_getitem ticket "status") seed_store
  = (Ret (VStr "resolved"),
     set_dicts <[0%nat := ticket_dict "T001" "Payment not processing" "billing" 2 "resolved"]>
       (set_lists <[2%nat := [0%nat]]> seed_store)).
Proof. vm_compute. reflexivity. Qed.

(** ** [get_formatted_ticket] *)

Lemma norm_index_too_large (len i : Z) : 0 <= len <= i -> norm_index len i = None.
Proof.
  intros H. unfold norm_index.
  destruct (Z.ltb_spec i 0); [lia|].
  destruct (Z.leb_spec 0 i), (Z.ltb_spec i len); simpl; (done || lia).
Qed.

(** C10.  [get_formatted_ticket] does not fail on a ticket of priority 0:
    the label is looked up at index -1, the last of the four labels, so the
    ticket is rendered as "LOW".  On a ticket whose priority is an integer
    of 5 or more the lookup fails, and the call raises [IndexError], not
    [ValueError], whatever the other fields are. *)
Theorem get_formatted_ticket_out_of_range (st : store) (t : nat) (d : dict) :
  dicts st !! t = Some d ->
  (forall id title type status,
     d !! "priority" = Some (VInt 0) ->
     d !! "id" = Some id -> d !! "title" = Some title -> d !! "type" = Some type ->
     d !! "status" = Some (VStr status) ->
     seq_getitem priority_indicators (0 - 1) = inr "LOW"
     /\ get_formatted_ticket t st
        = (Ret (py_str id +:+ " | " +:+ py_str title +:+ " | " +:+ py_str type
                +:+ " | Priority: LOW (0) | Status: " +:+ upper status), st))
  /\ (forall n,
        5 <= n -> d !! "priority" = Some (VInt n) ->
        get_formatted_ticket t st = (Raise (IndexError "list index out of range"), st)
        /\ forall msg, (get_formatted_ticket t st).1 <> Raise (ValueError msg)).
Proof.
  intros Hd. split.
  - intros id title type status Hp Hid Htitle Htype Hstatus. split; [done|].
    unfold get_formatted_ticket.
    erewrite bind_ret by by eapply dict_getitem_ok.
    erewrite bind_ret by done.
    erewrite bind_ret by done.
    erewrite bind_ret by by eapply dict_getitem_ok.
    erewrite bind_ret by done.
    erewrite bind_ret by by eapply dict_getitem_ok.
    erewrite bind_ret by by eapply dict_getitem_ok.
    erewrite bind_ret by by eapply dict_getitem_ok.
    erewrite bind_ret by by eapply dict_getitem_ok.
    done.
  - intros n Hn Hp.
    assert (get_formatted_ticket t st
            = (Raise (IndexError "list index out of range"), st)) as Hrun.
    { unfold get_formatted_ticket.
      erewrite bind_ret by by eapply dict_getitem_ok.
      erewrite bind_ret by done.
      erewrite bind_raise; [done|].
      unfold seq_getitem. by rewrite norm_index_too_large by (simpl; lia). }
    split; [done|]. intros msg. by rewrite Hrun.
Qed.

(** ** The theorems at concrete inputs *)

Lemma ticket_dict_record id title type priority status :
  type ∈ valid_types -> 1 <= priority <= 4 -> status ∈ valid_statuses ->
  ticket_record (ticket_dict id title type priority status).
Proof.
  intros Hty Hp Hs. repeat split.
  - intros (f & Hf & Hnone). unfold required_fields in Hf.
    rewrite !elem_of_cons, elem_of_nil in Hf.
    by destruct Hf as [->|[->|[->|[->|[->|[]]]]]].
  - by exists type.
  - by exists (VInt priority), priority.
  - by exists status.
  - by exists id.
  - by exists title.
Qed.

Lemma seed_records : all_tickets seed_store ticket_record [0; 1; 2; 3; 4]%nat.
Proof.
  assert (forall t id title type priority status,
            dicts seed_store !! t = Some (ticket_dict id title type priority status) ->
            type ∈ valid_types -> 1 <= priority <= 4 -> status ∈ valid_statuses ->
            exists d, dicts seed_store !! t = Some d /\ ticket_record d) as Hrec.
  { intros t id title type priority status Ht Hty Hp Hs.
    eexists. split; [exact Ht|]. by apply ticket_dict_record. }
  repeat apply Forall_cons_2; [..|apply Forall_nil_2].
  - apply (Hrec _ "T001" "Payment not processing" "billing" 2 "open");
      [vm_compute; reflexivity|repeat constructor|lia|repeat constructor].
  - apply (Hrec _ "T002" "Reset password" "account" 3 "new");
      [vm_compute; reflexivity|repeat constructor|lia|repeat constructor].
  - apply (Hrec _ "T003" "Application crashes" "technical" 1 "open");
      [vm_compute; reflexivity|repeat constructor|lia|repeat constructor].
  - apply (Hrec _ "T004" "Add dark mode" "feature" 4 "new");
      [vm_compute; reflexivity|repeat constructor|lia|repeat constructor].
  - apply (Hrec _ "T005" "Renewal failed" "billing" 2 "open");
      [vm_compute; reflexivity|repeat constructor|lia|repeat constructor].
Qed.

Lemma add_ticket_spec_witness :
  lists seed_store !! 0%nat = Some [0; 1; 2; 3; 4]%nat
  /\ dicts seed_store !! 5%nat
     = Some (ticket_dict "E001" "Security breach" "technical" 1 "new")
  /\ valid_ticket (ticket_dict "E001" "Security breach" "technical" 1 "new")
  /\ add_ticket 0%nat 5%nat seed_store
     = (Ret 0%nat, set_lists <[0%nat := [0; 1; 2; 3; 4; 5]%nat]> seed_store).
Proof.
  assert (lists seed_store !! 0%nat = Some [0; 1; 2; 3; 4]%nat) as HL
    by (vm_compute; reflexivity).
  assert (dicts seed_store !! 5%nat
          = Some (ticket_dict "E001" "Security breach" "technical" 1 "new")) as Hd
    by (vm_compute; reflexivity).
  assert (valid_ticket (ticket_dict "E001" "Security breach" "technical" 1 "new"))
    as Hvalid
    by (apply ticket_dict_record; [repeat constructor|lia|repeat constructor]).
  split; [exact HL|]. split; [exact Hd|]. split; [exact Hvalid|].
  exact (proj1 (proj2 (add_ticket_spec seed_store 0%nat 5%nat _ _ HL Hd)) Hvalid).
Defined.

Lemma remove_ticket_spec_witness :
  lists seed_store !! 0%nat = Some [0; 1; 2; 3; 4]%nat
  /\ exists t,
       [0; 1; 2; 3; 4]%nat !! 1%nat = Some t
       /\ remove_ticket 0%nat 1 seed_store
          = (Ret t, set_lists <[0%nat := [0; 2; 3; 4]%nat]> seed_store).
Proof.
  assert (lists seed_store !! 0%nat = Some [0; 1; 2; 3; 4]%nat) as HL
    by (vm_compute; reflexivity).
  split; [exact HL|].
  destruct (proj2 (remove_ticket_spec seed_store 0%nat _ 1 HL)) as (t & Ht & Hrun & _);
    [simpl; lia|].
  exists t. split; [exact Ht|exact Hrun].
Defined.

Lemma manage_queue_add_spec_witness :
  lists full_queue_store !! 0%nat = Some [0; 1; 2; 3; 4]%nat
  /\ lists full_queue_store !! 2%nat = Some [0; 1; 2; 3; 4]%nat
  /\ (length [0; 1; 2; 3; 4]%nat <= 5)%nat
  /\ (exists msg,
        manage_queue 0%nat 2%nat "add" (Some 0) full_queue_store
        = (Raise (ValueError msg), full_queue_store)
        /\ contains "at maximum capacity (5 tickets)" msg = true)
  /\ manage_queue 0%nat 2%nat "clear" None full_queue_store
     = (Ret (RList 2%nat), set_lists <[2%nat := []]> full_queue_store)
  /\ manage_queue 0%nat 2%nat "add" (Some 0) (set_lists <[2%nat := []]> full_queue_store)
     = (Ret (RList 2%nat),
        set_lists <[2%nat := [0%nat]]> (set_lists <[2%nat := []]> full_queue_store)).
Proof.
  assert (lists full_queue_store !! 0%nat = Some [0; 1; 2; 3; 4]%nat) as HT
    by (vm_compute; reflexivity).
  assert (lists full_queue_store !! 2%nat = Some [0; 1; 2; 3; 4]%nat) as HQ
    by (vm_compute; reflexivity).
  assert (length [0; 1; 2; 3; 4]%nat <= 5)%nat as Hcap by (simpl; lia).
  destruct (manage_queue_add_spec full_queue_store 0%nat 2%nat _ _ HT HQ Hcap)
    as (_ & _ & Hfull & _ & _ & Hclear).
  split; [exact HT|]. split; [exact HQ|]. split; [exact Hcap|].
  split; [apply Hfull; simpl; lia|].
  split; [exact (proj1 (Hclear None))|].
  apply (proj2 (proj2 (Hclear None)) 0 [0; 1; 2; 3; 4]%nat 0%nat);
    [vm_compute; reflexivity|lia|reflexivity].
Defined.

Lemma manage_queue_remove_spec_witness :
  lists full_queue_store !! 0%nat = Some [0; 1; 2; 3; 4]%nat
  /\ lists full_queue_store !! 2%nat = Some [0; 1; 2; 3; 4]%nat
  /\ exists t,
       [0; 1; 2; 3; 4]%nat !! 1%nat = Some t
       /\ manage_queue 0%nat 2%nat "remove" (Some 1) full_queue_store
          = (Ret (RDict t), set_lists <[2%nat := [0; 2; 3; 4]%nat]> full_queue_store).
Proof.
  assert (lists full_queue_store !! 0%nat = Some [0; 1; 2; 3; 4]%nat) as HT
    by (vm_compute; reflexivity).
  assert (lists full_queue_store !! 2%nat = Some [0; 1; 2; 3; 4]%nat) as HQ
    by (vm_compute; reflexivity).
  destruct (manage_queue_remove_spec full_queue_store 0%nat 2%nat _ _ HT HQ)
    as (_ & _ & Hremove & _).
  split; [exact HT|]. split; [exact HQ|].
  apply (Hremove 1). simpl. lia.
Defined.

Lemma combine_queues_spec_witness :
  lists seed_store !! 0%nat = Some [0; 1; 2; 3; 4]%nat
  /\ lists seed_store !! 1%nat = Some [5; 6]%nat
  /\ returns_new_list (combine_queues 0%nat 1%nat seed_store) seed_store
       [0; 1; 2; 3; 4; 5; 6]%nat.
Proof.
  assert (lists seed_store !! 0%nat = Some [0; 1; 2; 3; 4]%nat) as HA
    by (vm_compute; reflexivity).
  assert (lists seed_store !! 1%nat = Some [5; 6]%nat) as HB
    by (vm_compute; reflexivity).
  split; [exact HA|]. split; [exact HB|].
  exact (proj1 (combine_queues_spec seed_store 0%nat 1%nat _ _ HA HB)).
Defined.

Lemma filter_tickets_spec_witness :
  lists seed_store !! 0%nat = Some [0; 1; 2; 3; 4]%nat
  /\ all_tickets seed_store ticket_record [0; 1; 2; 3; 4]%nat
  /\ returns_new_list (filter_tickets 0%nat "type" (VStr "billing") seed_store)
       seed_store (with_field seed_store "type" (VStr "billing") [0; 1; 2; 3; 4]%nat)
  /\ returns_new_list (filter_tickets 0%nat "status" (VStr "pending") seed_store)
       seed_store (with_field seed_store "status" (VStr "pending") [0; 1; 2; 3; 4]%nat)
  /\ is_ascii "high" = true
  /\ int_of_string "high" = None
  /\ (exists msg,
        filter_tickets 0%nat "priority" (VStr "high") seed_store
        = (Raise (ValueError msg), seed_store)
        /\ contains "must be a number between 1 and 4" msg = true)
  /\ returns_new_list (filter_tickets 0%nat "priority" (VStr "7") seed_store)
       seed_store [].
Proof.
  assert (lists seed_store !! 0%nat = Some [0; 1; 2; 3; 4]%nat) as HL
    by (vm_compute; reflexivity).
  destruct (filter_tickets_spec seed_store 0%nat _ HL seed_records)
    as (Hfield & Hbad & _ & Hseven).
  split; [exact HL|]. split; [exact seed_records|].
  split; [apply Hfield; by left|].
  split; [apply Hfield; by right|].
  split; [reflexivity|]. split; [reflexivity|].
  split; [apply Hbad; reflexivity|exact Hseven].
Defined.

Lemma sort_tickets_spec_witness :
  lists seed_store !! 0%nat = Some [0; 1; 2; 3; 4]%nat
  /\ all_tickets seed_store ticket_record [0; 1; 2; 3; 4]%nat
  /\ (exists L',
        returns_new_list (sort_tickets 0%nat "priority" seed_store) seed_store L'
        /\ L' ≡ₚ [0; 1; 2; 3; 4]%nat
        /\ Sorted (field_le seed_store "priority") L')
  /\ (exists msg,
        sort_tickets 0%nat "title" seed_store = (Raise (ValueError msg), seed_store)
        /\ contains "id, priority, status, type" msg = true).
Proof.
  assert (lists seed_store !! 0%nat = Some [0; 1; 2; 3; 4]%nat) as HL
    by (vm_compute; reflexivity).
  destruct (sort_tickets_spec seed_store 0%nat _ HL seed_records) as (Hsort & Hbad).
  split; [exact HL|]. split; [exact seed_records|]. split.
  - destruct (Hsort "priority") as (L' & Hnew & Hperm & Hsorted & _);
      [repeat constructor|].
    exists L'. split; [exact Hnew|]. split; [exact Hperm|exact Hsorted].
  - apply Hbad. unfold valid_keys. rewrite !elem_of_cons, elem_of_nil.
    intros [H|[H|[H|[H|[]]]]]; discriminate H.
Defined.

Lemma get_formatted_ticket_out_of_range_witness :
  dicts stray_store !! 0%nat = Some (ticket_dict "X001" "Zero" "general" 0 "open")
  /\ dicts stray_store !! 1%nat = Some (ticket_dict "X002" "Seven" "general" 7 "new")
  /\ get_formatted_ticket 0%nat stray_store
     = (Ret "X001 | Zero | general | Priority: LOW (0) | Status: OPEN", stray_store)
  /\ get_formatted_ticket 1%nat stray_store
     = (Raise (IndexError "list index out of range"), stray_store).
Proof.
  assert (dicts stray_store !! 0%nat
          = Some (ticket_dict "X001" "Zero" "general" 0 "open")) as H0
    by (vm_compute; reflexivity).
  assert (dicts stray_store !! 1%nat
          = Some (ticket_dict "X002" "Seven" "general" 7 "new")) as H1
    by (vm_compute; reflexivity).
  split; [exact H0|]. split; [exact H1|]. split.
  - apply (proj1 (get_formatted_ticket_out_of_range stray_store 0%nat _ H0)
             (VStr "X001") (VStr "Zero") (VStr "general") "open"); reflexivity.
  - apply (proj2 (get_formatted_ticket_out_of_range stray_store 1%nat _ H1) 7);
      [lia|reflexivity].
Defined.

(** ** More on [get_priority_tickets] and [filter_tickets] *)

Lemma py_eq_ints p q n m :
  int_value p = Some n -> int_value q = Some m -> py_eq p q = true <-> n = m.
Proof.
  destruct p as [|b|k|s], q as [|c|j|u]; simpl; try done;
    intros [= <-] [= <-]; by rewrite bool_decide_eq_true.
Qed.

Lemma filter_priority_level st L level n :
  all_tickets st ticket_record L -> int_value level = Some n ->
  filter (fun t => from_option (fun p => py_eq p level) false
                     (field_of st "priority" t)) L
  = with_priority st n L.
Proof.
  intros Hall Hlevel. apply filter_ext_in. intros t Ht.
  destruct (record_priority_of st L t Hall Ht) as (p & m & Hp & Hm & _).
  rewrite Hp. cbn [from_option mbind option_bind].
  rewrite Is_true_true, (py_eq_ints p level m n), Hm by done.
  split; congruence.
Qed.

Lemma record_has_priority st L t :
  all_tickets st ticket_record L -> t ∈ L -> is_Some (field_of st "priority" t).
Proof.
  intros Hall Ht.
  destruct (record_priority_of st L t Hall Ht) as (p & ? & ? & ?). eauto.
Qed.

Lemma get_priority_tickets_ok st tickets L level n :
  lists st !! tickets = Some L -> all_tickets st ticket_record L ->
  int_value level = Some n -> 1 <= n <= 4 ->
  returns_new_list (get_priority_tickets tickets level st) st (with_priority st n L).
Proof.
  intros HL Hall Hlevel Hn. unfold get_priority_tickets. rewrite Hlevel.
  destruct (Z.ltb_spec n 1); [lia|]. destruct (Z.gtb_spec n 4); [lia|].
  cbn [orb]. rewrite <- (filter_priority_level st L level n) by done.
  apply comprehension_field; [done|].
  intros t Ht. by eapply record_has_priority.
Qed.

Lemma get_priority_tickets_bad st tickets level :
  ~ (exists n, int_value level = Some n /\ 1 <= n <= 4) ->
  get_priority_tickets tickets level st
  = (Raise (ValueError "Priority level must be between 1 and 4"), st).
Proof.
  intros Hbad. unfold get_priority_tickets.
  destruct (int_value level) as [n|]; [|done].
  destruct (Z.ltb_spec n 1); [done|]. destruct (Z.gtb_spec n 4); [done|].
  destruct Hbad. exists n. split; [done|lia].
Qed.

(** X1.  On a list of ticket records, [get_priority_tickets] with a level
    that is an integer from 1 to 4 returns a new list holding, in their
    original order, the tickets whose priority equals the level; with any
    other level (an integer outside 1..4, a string, [None]) it raises
    [ValueError] and leaves the store as it was. *)
Theorem get_priority_tickets_spec (st : store) (tickets : nat) (L : list nat)
    (level : value) :
  lists st !! tickets = Some L ->
  all_tickets st ticket_record L ->
  (forall n, int_value level = Some n -> 1 <= n <= 4 ->
     returns_new_list (get_priority_tickets tickets level st) st
       (with_priority st n L))
  /\ (~ (exists n, int_value level = Some n /\ 1 <= n <= 4) ->
      get_priority_tickets tickets level st
      = (Raise (ValueError "Priority level must be between 1 and 4"), st)).
Proof.
  intros HL Hall. split.
  - intros n Hlevel Hn. by apply get_priority_tickets_ok.
  - apply get_priority_tickets_bad.
Qed.

Lemma filter_tickets_priority_plain st tickets L v n :
  lists st !! tickets = Some L -> all_tickets st ticket_record L ->
  (forall s, v <> VStr s) -> int_value v = Some n ->
  returns_new_list (filter_tickets tickets "priority" v st) st (with_priority st n L).
Proof.
  intros HL Hall Hv Hn. unfold filter_tickets, str_in.
  rewrite bool_decide_eq_true_2 by repeat constructor. cbn [negb].
  rewrite bool_decide_eq_false_2 by done.
  rewrite bool_decide_eq_true_2 by done.
  erewrite bind_ret; last first.
  { by destruct v. }
  rewrite <- (filter_priority_level st L v n) by done.
  apply comprehension_field; [done|].
  intros t Ht. by eapply record_has_priority.
Qed.

Lemma int_of_string_level n :
  1 <= n <= 4 -> int_of_string (pretty n) = Some n.
Proof.
  intros Hn.
  assert (n = 1 \/ n = 2 \/ n = 3 \/ n = 4) as [->|[->|[->| ->]]] by lia;
    reflexivity.
Qed.

(** X2.  On a list of ticket records the three ways to select by priority
    agree for a level [n] from 1 to 4: [get_priority_tickets] with [n],
    [filter_tickets] by "priority" with [n], and [filter_tickets] by
    "priority" with the decimal text of [n] all return a new list of the
    tickets of priority [n].  They differ outside that range: for an
    integer [n] below 1 or above 4, [filter_tickets] still returns (an empty
    list) where [get_priority_tickets] raises [ValueError]. *)
Theorem priority_selection_agrees (st : store) (tickets : nat) (L : list nat) (n : Z) :
  lists st !! tickets = Some L ->
  all_tickets st ticket_record L ->
  (1 <= n <= 4 ->
     returns_new_list (get_priority_tickets tickets (VInt n) st) st
       (with_priority st n L)
     /\ returns_new_list (filter_tickets tickets "priority" (VInt n) st) st
          (with_priority st n L)
     /\ returns_new_list (filter_tickets tickets "priority" (VStr (pretty n)) st) st
          (with_priority st n L))
  /\ (~ (1 <= n <= 4) ->
      returns_new_list (filter_tickets tickets "priority" (VInt n) st) st []
      /\ get_priority_tickets tickets (VInt n) st
         = (Raise (ValueError "Priority level must be between 1 and 4"), st)).
Proof.
  intros HL Hall. split.
  - intros Hn. split; [|split].
    + by apply (get_priority_tickets_ok st tickets L (VInt n)).
    + by apply filter_tickets_priority_plain.
    + apply filter_tickets_priority_text; [done..|]. by apply int_of_string_level.
  - intros Hn. split.
    + rewrite <- (with_priority_out_of_range st L n) by done.
      by apply filter_tickets_priority_plain.
    + apply get_priority_tickets_bad. intros (m & [= <-] & Hm). lia.
Qed.


(** *** The keyword filter *)

Lemma contains_empty s : contains EmptyString s = true.
Proof. by destruct s. Qed.

Lemma filter_all {A} (f : A -> bool) (l : list A) :
  (forall x, x ∈ l -> f x = true) -> filter f l = l.
Proof.
  induction l as [|x l IH]; intros Hall; [done|].
  rewrite filter_cons, decide_True by (rewrite Hall; [done|left]).
  f_equal. apply IH. intros y Hy. apply Hall. by right.
Qed.

Lemma keyword_cond_run st kw t title :
  field_of st "title" t = Some (VStr title) ->
  (dict_getitem t "title" ≫= fun v =>
     lift (py_lower v) ≫= fun s => mret (contains (lower kw) s)) st
  = (Ret (keyword_matches st kw t), st).
Proof.
  intros Htitle. unfold keyword_matches. rewrite Htitle.
  unfold field_of in Htitle.
  destruct (dicts st !! t) as [d|] eqn:Hd; [|done]. simpl in Htitle.
  by erewrite bind_ret by by eapply dict_getitem_ok.
Qed.

Lemma filter_tickets_keyword st tickets L kw :
  lists st !! tickets = Some L -> all_tickets st ticket_record L ->
  returns_new_list (filter_tickets tickets "keyword" (VStr kw) st) st
    (filter (keyword_matches st kw) L).
Proof.
  intros HL Hall. unfold filter_tickets, str_in.
  rewrite bool_decide_eq_true_2 by repeat constructor. cbn [negb].
  rewrite bool_decide_eq_true_2 by done.
  erewrite bind_ret by done.
  apply list_comprehension_pure; [done|].
  intros t Ht.
  destruct (record_field_of st L t "title" Hall Ht) as [title Htitle];
    [repeat constructor|done|].
  by apply (keyword_cond_run st kw t title).
Qed.

Lemma ascii_code_range c : 0 <= ascii_code c < 256.
Proof.
  unfold ascii_code. pose proof (N_ascii_bounded c). lia.
Qed.

Lemma ascii_code_inj c1 c2 : ascii_code c1 = ascii_code c2 -> c1 = c2.
Proof.
  unfold ascii_code. intros H. apply N2Z.inj in H.
  rewrite <- (ascii_N_embedding c1), <- (ascii_N_embedding c2). by rewrite H.
Qed.

Lemma ascii_code_of n : 0 <= n < 256 -> ascii_code (ascii_of_N (Z.to_N n)) = n.
Proof.
  intros Hn. unfold ascii_code. rewrite N_ascii_embedding by lia. lia.
Qed.

Lemma ascii_lower_code c :
  ascii_code (ascii_lower c)
  = if (65 <=? ascii_code c) && (ascii_code c <=? 90) then ascii_code c + 32
    else ascii_code c.
Proof.
  unfold ascii_lower. cbv zeta.
  destruct ((65 <=? ascii_code c) && (ascii_code c <=? 90)) eqn:Hup; [|done].
  apply ascii_code_of. pose proof (ascii_code_range c). lia.
Qed.

Lemma ascii_lower_same c1 c2 : ascii_lower c1 = ascii_lower c2 <-> same_letter c1 c2.
Proof.
  split.
  - intros H. apply (f_equal ascii_code) in H. rewrite !ascii_lower_code in H.
    destruct ((65 <=? ascii_code c1) && (ascii_code c1 <=? 90)) eqn:H1;
      destruct ((65 <=? ascii_code c2) && (ascii_code c2 <=? 90)) eqn:H2.
    + left. apply ascii_code_inj. lia.
    + right. exists (ascii_code c1 - 65). split; [lia|]. left. lia.
    + right. exists (ascii_code c2 - 65). split; [lia|]. right. lia.
    + left. by apply ascii_code_inj.
  - intros [->|(i & Hi & [[H1 H2]|[H1 H2]])]; [done|..];
      apply ascii_code_inj; rewrite !ascii_lower_code, H1, H2;
      repeat match goal with
             | |- context [(?a <=? ?b)] => destruct (Z.leb_spec a b); try lia
             end; simpl; lia.
Qed.

Lemma lower_same_text a b : lower a = lower b <-> same_text a b.
Proof.
  unfold same_text, lower. revert b.
  induction a as [|c a IH]; intros [|c' b]; simpl.
  - split; [constructor|done].
  - split; [done|]. intros H. inversion H.
  - split; [done|]. intros H. inversion H.
  - rewrite Forall2_cons, <- IH, <- ascii_lower_same. split.
    + intros [= H1 H2]. done.
    + intros [H1 H2]. by rewrite H1, H2.
Qed.

Lemma map_string_app f a b :
  map_string f (a +:+ b) = map_string f a +:+ map_string f b.
Proof. induction a as [|c a IH]; simpl; [done|]. by rewrite IH. Qed.

Lemma map_string_app_inv f s a b :
  map_string f s = a +:+ b ->
  exists x y, s = x +:+ y /\ map_string f x = a /\ map_string f y = b.
Proof.
  revert s. induction a as [|c a IH]; intros s H.
  - simpl in H. by exists "", s.
  - destruct s as [|c' s]; [done|]. simpl in H. injection H as Hc H.
    destruct (IH s H) as (x & y & -> & Hx & Hy).
    exists (String c' x), y. simpl. by rewrite Hc, Hx.
Qed.

Lemma prefix_app a b : String.prefix a b = true <-> exists post, b = a +:+ post.
Proof.
  revert b. induction a as [|c a IH]; intros b; simpl.
  - split; [intros _; by exists b|intros _; by destruct b].
  - destruct b as [|c' b]; simpl; [split; [done|by intros [? ?]]|].
    destruct (Ascii.ascii_dec c c') as [->|Hne].
    + rewrite IH. split; intros [post H]; exists post; [by rewrite H|by injection H].
    + split; [done|]. intros [post [= ? ?]]. done.
Qed.

Lemma contains_app needle hay :
  contains needle hay = true <-> exists pre post, hay = pre +:+ needle +:+ post.
Proof.
  induction hay as [|c hay IH].
  - cbn [contains]. rewrite orb_false_r, prefix_app. split.
    + intros [post H]. by exists "", post.
    + intros (pre & post & H). destruct pre; [by exists post|done].
  - cbn [contains]. rewrite orb_true_iff, IH, prefix_app. split.
    + intros [[post H]|(pre & post & H)].
      * by exists "", post.
      * exists (String c pre), post. simpl. by rewrite H.
    + intros (pre & post & H). destruct pre as [|c' pre].
      * left. by exists post.
      * right. simpl in H. injection H as _ H. by exists pre, post.
Qed.

Lemma contains_lower_occurs kw title :
  contains (lower kw) (lower title) = true <-> occurs_caseless kw title.
Proof.
  rewrite contains_app. unfold occurs_caseless, lower. split.
  - intros (pre' & post' & H).
    apply map_string_app_inv in H as (pre & rest & -> & Hpre & H).
    apply map_string_app_inv in H as (mid & post & -> & Hmid & Hpost).
    exists pre, mid, post. split; [done|]. by apply lower_same_text.
  - intros (pre & mid & post & -> & Hmid). apply lower_same_text in Hmid.
    exists (lower pre), (lower post). unfold lower in *.
    by rewrite !map_string_app, Hmid.
Qed.

Lemma keyword_matches_spec st kw t :
  keyword_matches st kw t = true <-> title_has st kw t.
Proof.
  unfold keyword_matches, title_has.
  destruct (field_of st "title" t) as [[| | |title]|].
  1-3,5: split; [done|by intros (? & ? & _)].
  rewrite contains_lower_occurs. split.
  - intros H. by exists title.
  - by intros (title' & [= <-] & H).
Qed.

(** X3.  On a list of ticket records whose titles hold 7-bit characters
    only, [filter_tickets] by "keyword" with a string of 7-bit characters
    returns a new list of the tickets, in their original order, in whose
    title the keyword occurs, letter case aside: the title is some text,
    then a text that agrees with the keyword letter by letter up to the
    case of the letters A to Z, then some text.  With the empty keyword that
    is every ticket.  (The case mapping of other characters is not part of
    the embedding, hence the restriction.) *)
Theorem filter_tickets_keyword_spec (st : store) (tickets : nat) (L : list nat) :
  lists st !! tickets = Some L ->
  all_tickets st ticket_record L ->
  ascii_titles st L ->
  (forall kw, is_ascii kw = true ->
     exists sel : nat -> bool,
       returns_new_list (filter_tickets tickets "keyword" (VStr kw) st) st
         (filter (fun t => sel t = true) L)
       /\ (forall t, sel t = true <-> title_has st kw t))
  /\ returns_new_list (filter_tickets tickets "keyword" (VStr "") st) st L.
Proof.
  intros HL Hall _. split.
  - intros kw _. exists (keyword_matches st kw). split.
    + pose proof (filter_tickets_keyword st tickets L kw HL Hall) as Hrun.
      replace (filter (fun t => keyword_matches st kw t = true) L)
        with (filter (keyword_matches st kw) L); [done|].
      apply list_filter_iff. intros t. apply Is_true_true.
    + intros t. apply keyword_matches_spec.
  - pose proof (filter_tickets_keyword st tickets L "" HL Hall) as Hrun.
    rewrite filter_all in Hrun; [done|].
    intros t Ht.
    destruct (record_field_of st L t "title" Hall Ht) as [title Htitle];
      [repeat constructor|done|].
    unfold keyword_matches. rewrite Htitle. apply contains_empty.
Qed.

Lemma ascii_lower_upper c : ascii_lower (ascii_upper c) = ascii_lower c.
Proof. by destruct c as [[] [] [] [] [] [] [] []]. Qed.

Lemma lower_upper s : lower (upper s) = lower s.
Proof.
  induction s as [|c s IH]; [done|].
  unfold lower, upper in *. simpl. by rewrite ascii_lower_upper, IH.
Qed.

Lemma ascii_lower_idemp c : ascii_lower (ascii_lower c) = ascii_lower c.
Proof. by destruct c as [[] [] [] [] [] [] [] []]. Qed.

Lemma lower_idemp s : lower (lower s) = lower s.
Proof.
  induction s as [|c s IH]; [done|].
  unfold lower in *. simpl. by rewrite ascii_lower_idemp, IH.
Qed.

(** X4.  The keyword filter ignores the letter case of the keyword: on a
    list of ticket records, an ASCII keyword, its upper-cased form and its
    lower-cased form select the same tickets.  (The case mapping of other
    characters is not part of the embedding, hence the restriction.) *)
Theorem filter_tickets_keyword_case (st : store) (tickets : nat) (L : list nat)
    (kw : string) :
  lists st !! tickets = Some L ->
  all_tickets st ticket_record L ->
  is_ascii kw = true ->
  exists X,
    returns_new_list (filter_tickets tickets "keyword" (VStr kw) st) st X
    /\ returns_new_list (filter_tickets tickets "keyword" (VStr (upper kw)) st) st X
    /\ returns_new_list (filter_tickets tickets "keyword" (VStr (lower kw)) st) st X.
Proof.
  intros HL Hall _. exists (filter (keyword_matches st kw) L).
  split; [by apply filter_tickets_keyword|]. split.
  - replace (filter (keyword_matches st kw) L)
      with (filter (keyword_matches st (upper kw)) L).
    + by apply filter_tickets_keyword.
    + apply filter_ext_in. intros t _. unfold keyword_matches.
      by rewrite lower_upper.
  - replace (filter (keyword_matches st kw) L)
      with (filter (keyword_matches st (lower kw)) L).
    + by apply filter_tickets_keyword.
    + apply filter_ext_in. intros t _. unfold keyword_matches.
      by rewrite lower_idemp.
Qed.

(** *** Failures of [filter_tickets] *)

Lemma filterM_raise {A} st (cond : A -> M bool) L1 x L2 e :
  (forall y, y ∈ L1 -> exists b, cond y st = (Ret b, st)) ->
  cond x st = (Raise e, st) ->
  filterM cond (L1 ++ x :: L2) st = (Raise e, st).
Proof.
  intros Hok Hx. induction L1 as [|y L1 IH]; simpl.
  - by erewrite bind_raise.
  - destruct (Hok y) as [b Hb]; [left|].
    erewrite bind_ret by done.
    erewrite bind_raise; [done|]. apply IH. intros z Hz. apply Hok. by right.
Qed.

Lemma filter_tickets_bad_type st tickets k v :
  k ∉ valid_filters ->
  filter_tickets tickets k v st
  = (Raise (ValueError
       "Invalid filter type. Must be one of: type, status, priority, keyword"), st).
Proof. intros Hk. unfold filter_tickets, str_in. by rewrite bool_decide_eq_false_2. Qed.

Lemma filter_tickets_keyword_not_str st tickets v :
  (forall s, v <> VStr s) ->
  filter_tickets tickets "keyword" v st = (Raise AttributeError, st).
Proof.
  intros Hv. unfold filter_tickets, str_in.
  rewrite bool_decide_eq_true_2 by repeat constructor. cbn [negb].
  rewrite bool_decide_eq_true_2 by done.
  erewrite bind_raise; [done|]. destruct v; try done. by destruct (Hv s).
Qed.

Lemma filter_tickets_missing_field st tickets k v L1 t L2 d :
  k = "type" \/ k = "status" ->
  lists st !! tickets = Some (L1 ++ t :: L2) ->
  (forall u, u ∈ L1 -> is_Some (field_of st k u)) ->
  dicts st !! t = Some d -> d !! k = None ->
  filter_tickets tickets k v st = (Raise (KeyError k), st).
Proof.
  intros Hk HL Hfield Hd Hmiss.
  assert (k <> "priority" /\ k <> "keyword" /\ k ∈ valid_filters) as (Hne & Hne' & Hfil).
  { destruct Hk as [-> | ->]; repeat split; try done; repeat constructor. }
  unfold filter_tickets, str_in.
  rewrite bool_decide_eq_true_2 by done. cbn [negb].
  rewrite !bool_decide_eq_false_2 by done.
  unfold list_comprehension.
  erewrite bind_ret by by apply read_list_ok.
  erewrite bind_raise; [done|].
  apply filterM_raise.
  - intros u Hu. destruct (Hfield u Hu) as [x Hx]. eexists.
    by apply field_cond_run.
  - erewrite bind_raise; [done|]. by eapply dict_getitem_missing.
Qed.

(** X5.  How [filter_tickets] fails.  A filter type other than type, status,
    priority and keyword raises [ValueError] with a message that lists the
    four; a keyword that is not a string raises [AttributeError]; and a
    "type" or "status" filter raises [KeyError] for the field at the first
    ticket that lacks it.  In each case the store is left as it was. *)
Theorem filter_tickets_failures (st : store) (tickets : nat) :
  (forall k v, k ∉ valid_filters ->
     exists msg,
       filter_tickets tickets k v st = (Raise (ValueError msg), st)
       /\ contains "type, status, priority, keyword" msg = true)
  /\ (forall v, (forall s, v <> VStr s) ->
        filter_tickets tickets "keyword" v st = (Raise AttributeError, st))
  /\ (forall k v L1 t L2 d,
        k = "type" \/ k = "status" ->
        lists st !! tickets = Some (L1 ++ t :: L2) ->
        (forall u, u ∈ L1 -> is_Some (field_of st k u)) ->
        dicts st !! t = Some d -> d !! k = None ->
        filter_tickets tickets k v st = (Raise (KeyError k), st)).
Proof.
  split; [|split].
  - intros k v Hk. eexists. split; [by apply filter_tickets_bad_type|done].
  - apply filter_tickets_keyword_not_str.
  - intros k v L1 t L2 d. apply filter_tickets_missing_field.
Qed.


(** ** Operations that only read *)

Section frames.

Lemma only_allocates_refl st : only_allocates st st.
Proof. by split. Qed.

Lemma only_allocates_trans st1 st2 st3 :
  only_allocates st1 st2 -> only_allocates st2 st3 -> only_allocates st1 st3.
Proof.
  intros [Hd1 Hl1] [Hd2 Hl2]. split; [congruence|]. by etrans.
Qed.

Lemma only_allocates_insert st l X :
  lists st !! l = None -> only_allocates st (set_lists <[l := X]> st).
Proof. intros Hl. split; [done|]. simpl. by apply insert_subseteq. Qed.

Lemma pure_alloc {A} (m : M A) : pure_m m -> alloc_m m.
Proof. intros Hm st. rewrite Hm. apply only_allocates_refl. Qed.

Lemma pure_ret {A} (a : A) : pure_m (mret a).
Proof. done. Qed.

Lemma pure_raise {A} e : pure_m (@raise A e).
Proof. done. Qed.

Lemma pure_lift {A} (r : exn + A) : pure_m (lift r).
Proof. by destruct r. Qed.

Lemma pure_bind {A B} (m : M A) (f : A -> M B) :
  pure_m m -> (forall a, pure_m (f a)) -> pure_m (m ≫= f).
Proof.
  intros Hm Hf st. unfold mbind, M_bind. specialize (Hm st).
  destruct (m st) as [[a|e|] st1]; simpl in *; subst; [apply Hf|done..].
Qed.

Lemma alloc_bind {A B} (m : M A) (f : A -> M B) :
  alloc_m m -> (forall a, alloc_m (f a)) -> alloc_m (m ≫= f).
Proof.
  intros Hm Hf st. unfold mbind, M_bind. specialize (Hm st).
  destruct (m st) as [[a|e|] st1]; simpl in *; [|done..].
  eapply only_allocates_trans; [done|]. apply Hf.
Qed.

Lemma pure_try_except {A} (body handler : M A) :
  pure_m body -> pure_m handler -> pure_m (try_except_ValueError body handler).
Proof.
  intros Hb Hh st. unfold try_except_ValueError. specialize (Hb st).
  destruct (body st) as [[a|[]|] st1]; simpl in *; subst; first [done|apply Hh].
Qed.

Lemma pure_read_list l : pure_m (read_list l).
Proof. intros st. unfold read_list. by destruct (lists st !! l). Qed.

Lemma pure_read_dict t : pure_m (read_dict t).
Proof. intros st. unfold read_dict. by destruct (dicts st !! t). Qed.

Lemma pure_dict_getitem t k : pure_m (dict_getitem t k).
Proof.
  apply pure_bind; [apply pure_read_dict|].
  intros d. destruct (d !! k); [apply pure_ret|apply pure_raise].
Qed.

Lemma pure_dict_contains t k : pure_m (dict_contains t k).
Proof. apply pure_bind; [apply pure_read_dict|]. intros d. apply pure_ret. Qed.

Lemma pure_list_len l : pure_m (list_len l).
Proof. apply pure_bind; [apply pure_read_list|]. intros L. apply pure_ret. Qed.

Lemma pure_list_getitem l i : pure_m (list_getitem l i).
Proof. apply pure_bind; [apply pure_read_list|]. intros L. apply pure_lift. Qed.

Lemma pure_filterM {A} (cond : A -> M bool) L :
  (forall x, pure_m (cond x)) -> pure_m (filterM cond L).
Proof.
  intros Hcond. induction L as [|x L IH]; [apply pure_ret|].
  cbn [filterM]. apply pure_bind; [done|]. intros b.
  apply pure_bind; [done|]. intros r. apply pure_ret.
Qed.

Lemma pure_mapM {A B} (f : A -> M B) L :
  (forall x, pure_m (f x)) -> pure_m (mapM f L).
Proof.
  intros Hf. induction L as [|x L IH]; [apply pure_ret|].
  cbn [mapM]. apply pure_bind; [done|]. intros b.
  apply pure_bind; [done|]. intros r. apply pure_ret.
Qed.

Lemma pure_for_each {A} (body : A -> M unit) L :
  (forall x, pure_m (body x)) -> pure_m (for_each L body).
Proof.
  intros Hbody. induction L as [|x L IH]; [apply pure_ret|].
  cbn [for_each]. apply pure_bind; [done|]. by intros _.
Qed.

Lemma alloc_list_new L : alloc_m (list_new L).
Proof.
  intros st. destruct (list_new_fresh st L) as (l & -> & Hl).
  by apply only_allocates_insert.
Qed.

Lemma alloc_list_comprehension l (cond : nat -> M bool) :
  (forall t, pure_m (cond t)) -> alloc_m (list_comprehension l cond).
Proof.
  intros Hcond. apply alloc_bind; [apply pure_alloc, pure_read_list|].
  intros L. apply alloc_bind; [by apply pure_alloc, pure_filterM|].
  intros L'. apply alloc_list_new.
Qed.

Lemma alloc_filter_tickets tickets k v : alloc_m (filter_tickets tickets k v).
Proof.
  unfold filter_tickets.
  destruct (negb _); [apply pure_alloc, pure_raise|].
  destruct (bool_decide (k = "keyword")).
  { apply alloc_bind; [apply pure_alloc, pure_lift|]. intros kw.
    apply alloc_list_comprehension. intros t.
    apply pure_bind; [apply pure_dict_getitem|]. intros title.
    apply pure_bind; [apply pure_lift|]. intros s. apply pure_ret. }
  destruct (bool_decide (k = "priority")).
  { apply alloc_bind.
    - apply pure_alloc. destruct v; try apply pure_ret.
      apply pure_try_except; [|apply pure_raise].
      apply pure_bind; [apply pure_lift|]. intros n. apply pure_ret.
    - intros w. apply alloc_list_comprehension. intros t.
      apply pure_bind; [apply pure_dict_getitem|]. intros p. apply pure_ret. }
  apply alloc_list_comprehension. intros t.
  apply pure_bind; [apply pure_dict_getitem|]. intros p. apply pure_ret.
Qed.

Lemma alloc_get_priority_tickets tickets level :
  alloc_m (get_priority_tickets tickets level).
Proof.
  unfold get_priority_tickets.
  destruct (match int_value level with None => true | Some p => _ end);
    [apply pure_alloc, pure_raise|].
  apply alloc_list_comprehension. intros t.
  apply pure_bind; [apply pure_dict_getitem|]. intros p. apply pure_ret.
Qed.

Lemma alloc_combine_queues a b : alloc_m (combine_queues a b).
Proof.
  unfold combine_queues, list_concat.
  apply alloc_bind; [apply pure_alloc, pure_read_list|]. intros A.
  apply alloc_bind; [apply pure_alloc, pure_read_list|]. intros B.
  apply alloc_list_new.
Qed.

(** Sorting a list in place changes at most that list. *)
Lemma list_sort_store st l (key : nat -> M value) :
  (forall t, pure_m (key t)) ->
  (list_sort l key st).2 = st
  \/ exists X, (list_sort l key st).2 = set_lists <[l := X]> st.
Proof.
  intros Hkey. unfold list_sort, mbind, M_bind.
  pose proof (pure_read_list l st) as Hread.
  destruct (read_list l st) as [[L|e|] st1]; simpl in Hread; subst; [|by left..].
  pose proof (pure_mapM key L Hkey st) as Hmap.
  destruct (mapM key L st) as [[ks|e|] st1]; simpl in Hmap; subst; [|by left..].
  destruct (sortable ks); [|by left]. right. by eexists.
Qed.

Lemma bind_cases {A B} (m : M A) (f : A -> M B) st :
  (exists a st1, m st = (Ret a, st1) /\ (m ≫= f) st = f a st1)
  \/ ((forall a, (m st).1 <> Ret a) /\ ((m ≫= f) st).2 = (m st).2).
Proof.
  unfold mbind, M_bind. destruct (m st) as [[a|e|] st1]; [left; eauto|by right..].
Qed.

Lemma list_copy_cases st l :
  (exists L r, lists st !! l = Some L /\ lists st !! r = None
     /\ list_copy l st = (Ret r, set_lists <[r := L]> st))
  \/ ((forall r, (list_copy l st).1 <> Ret r) /\ (list_copy l st).2 = st).
Proof.
  unfold list_copy, mbind, M_bind, read_list.
  destruct (lists st !! l) as [L|] eqn:Hl; [|by right].
  destruct (list_new_fresh st L) as (r & Hnew & Hr). left. by exists L, r.
Qed.

Lemma alloc_sort_tickets tickets k : alloc_m (sort_tickets tickets k).
Proof.
  intros st. unfold sort_tickets.
  destruct (negb _); [apply only_allocates_refl|].
  destruct (bind_cases (list_copy tickets)
              (fun r => list_sort r (fun ticket => dict_getitem ticket k) ;; mret r) st)
    as [(r & st1 & Hcopy & ->)|[_ ->]].
  2:{ destruct (list_copy_cases st tickets) as [(L & r & _ & Hr & ->)|[_ ->]];
        [by apply only_allocates_insert|apply only_allocates_refl]. }
  destruct (list_copy_cases st tickets) as [(L & r' & _ & Hr & Hcopy')|[Hno _]].
  2:{ destruct (Hno r). by rewrite Hcopy. }
  rewrite Hcopy' in Hcopy. injection Hcopy as <- <-.
  assert (((list_sort r' (fun ticket => dict_getitem ticket k) ;; mret r')
             (set_lists <[r':=L]> st)).2
          = (list_sort r' (fun ticket => dict_getitem ticket k)
               (set_lists <[r':=L]> st)).2) as ->.
  { unfold mbind, M_bind. by destruct (list_sort _ _ _) as [[[]|e|] st1]. }
  destruct (list_sort_store (set_lists <[r':=L]> st) r'
              (fun ticket => dict_getitem ticket k)) as [->|[X ->]].
  { intros t. apply pure_dict_getitem. }
  - by apply only_allocates_insert.
  - unfold set_lists. simpl. rewrite insert_insert_eq.
    by apply (only_allocates_insert st r' X).
Qed.

Lemma pure_get_formatted_ticket t : pure_m (get_formatted_ticket t).
Proof.
  unfold get_formatted_ticket.
  repeat first
    [ apply pure_ret
    | apply pure_bind; [first [apply pure_dict_getitem | apply pure_lift]|intros ?] ].
Qed.

End frames.

(** X6.  The operations that build a list never touch what exists: whatever
    the arguments and whether the call returns or raises, after
    [sort_tickets], [filter_tickets], [get_priority_tickets] and
    [combine_queues] all tickets are exactly as before and every list that
    existed has its contents; [get_formatted_ticket] leaves the store
    exactly as it was. *)
Theorem reading_operations_frame (st : store) :
  (forall tickets k, only_allocates st (sort_tickets tickets k st).2)
  /\ (forall tickets k v, only_allocates st (filter_tickets tickets k v st).2)
  /\ (forall tickets level, only_allocates st (get_priority_tickets tickets level st).2)
  /\ (forall a b, only_allocates st (combine_queues a b st).2)
  /\ (forall t, (get_formatted_ticket t st).2 = st).
Proof.
  split; [|split; [|split; [|split]]].
  - intros tickets k. apply alloc_sort_tickets.
  - intros tickets k v. apply alloc_filter_tickets.
  - intros tickets level. apply alloc_get_priority_tickets.
  - intros a b. apply alloc_combine_queues.
  - intros t. apply pure_get_formatted_ticket.
Qed.


(** ** No partial mutation *)

Ltac solve_pure :=
  repeat first
    [ apply pure_ret | apply pure_raise | apply pure_lift
    | apply pure_dict_getitem | apply pure_dict_contains
    | apply pure_list_len | apply pure_list_getitem
    | apply pure_read_list | apply pure_read_dict
    | apply pure_try_except
    | apply pure_for_each; intros ?
    | apply pure_bind; [|intros ?]
    | match goal with
      | |- pure_m (if ?b then _ else _) => destruct b
      | |- pure_m (match ?x with _ => _ end) => destruct x
      end ].

Lemma pure_atomic {A} (m : M A) : pure_m m -> atomic_m m.
Proof. intros Hm st _. apply Hm. Qed.

Lemma atomic_bind_pure {A B} (m : M A) (f : A -> M B) :
  pure_m m -> (forall a, atomic_m (f a)) -> atomic_m (m ≫= f).
Proof.
  intros Hm Hf st. unfold mbind, M_bind. specialize (Hm st).
  destruct (m st) as [[a|e|] st1]; simpl in *; subst; [apply Hf|done..].
Qed.

Lemma atomic_bind_ret {A B} (m : M A) (g : A -> B) :
  atomic_m m -> atomic_m (m ≫= fun a => mret (g a)).
Proof.
  intros Hm st. unfold mbind, M_bind. specialize (Hm st).
  destruct (m st) as [[a|e|] st1]; simpl in *.
  - intros Hno. by destruct (Hno (g a)).
  - intros _. by apply Hm.
  - intros _. by apply Hm.
Qed.

Lemma atomic_modify f : atomic_m (modify f).
Proof. intros st Hno. by destruct (Hno tt). Qed.

Lemma atomic_list_append l x : atomic_m (list_append l x).
Proof.
  apply atomic_bind_pure; [apply pure_read_list|]. intros L. apply atomic_modify.
Qed.

Lemma atomic_list_clear l : atomic_m (list_clear l).
Proof.
  apply atomic_bind_pure; [apply pure_read_list|]. intros L. apply atomic_modify.
Qed.

Lemma atomic_dict_setitem t k v : atomic_m (dict_setitem t k v).
Proof.
  apply atomic_bind_pure; [apply pure_read_dict|]. intros d. apply atomic_modify.
Qed.

Lemma atomic_list_pop l i : atomic_m (list_pop l i).
Proof.
  apply atomic_bind_pure; [apply pure_read_list|]. intros L.
  destruct (bool_decide (L = [])); [apply pure_atomic, pure_raise|].
  destruct (norm_index _ i) as [j|]; [|apply pure_atomic, pure_raise].
  destruct (L !! j) as [x|]; [|apply pure_atomic, pure_raise].
  apply (atomic_bind_ret _ (fun _ => x)), atomic_modify.
Qed.

Lemma atomic_add_ticket tickets ticket : atomic_m (add_ticket tickets ticket).
Proof.
  unfold add_ticket.
  apply atomic_bind_pure; [solve_pure|]. intros _.
  apply atomic_bind_pure; [solve_pure|]. intros type.
  destruct (negb _); [apply pure_atomic, pure_raise|].
  apply atomic_bind_pure; [solve_pure|]. intros priority.
  destruct (match int_value priority with None => true | Some p => _ end);
    [apply pure_atomic, pure_raise|].
  apply atomic_bind_pure; [solve_pure|]. intros status.
  destruct (negb _); [apply pure_atomic, pure_raise|].
  apply (atomic_bind_ret _ (fun _ => tickets)), atomic_list_append.
Qed.

Lemma atomic_remove_ticket tickets index : atomic_m (remove_ticket tickets index).
Proof.
  unfold remove_ticket.
  apply atomic_bind_pure; [solve_pure|]. intros n.
  destruct (_ || _); [apply pure_atomic, pure_raise|]. apply atomic_list_pop.
Qed.

Lemma atomic_manage_queue tickets queue op index :
  atomic_m (manage_queue tickets queue op index).
Proof.
  unfold manage_queue.
  destruct (negb _); [apply pure_atomic, pure_raise|].
  destruct (bool_decide (op = "add")).
  { destruct index as [i|]; [|apply pure_atomic, pure_raise].
    apply atomic_bind_pure; [solve_pure|]. intros n.
    destruct (_ || _); [apply pure_atomic, pure_raise|].
    apply atomic_bind_pure; [solve_pure|]. intros m.
    destruct (m >=? 5); [apply pure_atomic, pure_raise|].
    apply atomic_bind_pure; [solve_pure|]. intros t.
    apply (atomic_bind_ret _ (fun _ => RList queue)), atomic_list_append. }
  destruct (bool_decide (op = "remove")).
  { destruct index as [i|]; [|apply pure_atomic, pure_raise].
    apply atomic_bind_pure; [solve_pure|]. intros m.
    destruct (_ || _); [apply pure_atomic, pure_raise|].
    apply (atomic_bind_ret _ RDict), atomic_list_pop. }
  apply (atomic_bind_ret _ (fun _ => RList queue)), atomic_list_clear.
Qed.

Lemma atomic_update_ticket tickets index field v :
  atomic_m (update_ticket tickets index field v).
Proof.
  unfold update_ticket.
  apply atomic_bind_pure; [solve_pure|]. intros n.
  destruct (_ || _); [apply pure_atomic, pure_raise|].
  destruct (negb _); [apply pure_atomic, pure_raise|].
  apply atomic_bind_pure; [solve_pure|]. intros t.
  apply (atomic_bind_ret _ (fun _ => t)).
  destruct (bool_decide (field = "status")).
  { destruct (negb _); [apply pure_atomic, pure_raise|apply atomic_dict_setitem]. }
  destruct (bool_decide (field = "priority")).
  { apply atomic_bind_pure; [solve_pure|]. intros p. apply atomic_dict_setitem. }
  destruct (negb _); [apply pure_atomic, pure_raise|apply atomic_dict_setitem].
Qed.

(** X7.  No partial mutation: whatever the arguments, when [add_ticket],
    [remove_ticket], [manage_queue] or [update_ticket] does not return (it
    raises, whichever the exception), the store is exactly as it was before
    the call. *)
Theorem mutators_atomic :
  (forall tickets ticket st,
     (forall a, (add_ticket tickets ticket st).1 <> Ret a) ->
     (add_ticket tickets ticket st).2 = st)
  /\ (forall tickets index st,
        (forall a, (remove_ticket tickets index st).1 <> Ret a) ->
        (remove_ticket tickets index st).2 = st)
  /\ (forall tickets queue op index st,
        (forall a, (manage_queue tickets queue op index st).1 <> Ret a) ->
        (manage_queue tickets queue op index st).2 = st)
  /\ (forall tickets index field v st,
        (forall a, (update_ticket tickets index field v st).1 <> Ret a) ->
        (update_ticket tickets index field v st).2 = st).
Proof.
  split; [|split; [|split]].
  - intros tickets ticket. apply atomic_add_ticket.
  - intros tickets index. apply atomic_remove_ticket.
  - intros tickets queue op index. apply atomic_manage_queue.
  - intros tickets index field v. apply atomic_update_ticket.
Qed.


(** ** More on [update_ticket] *)

Section update_fields.
Context (st : store) (tickets : nat) (L : list nat).
Hypothesis HL : lists st !! tickets = Some L.

Lemma update_ticket_bad_index i field v :
  i < 0 \/ i >= Z.of_nat (length L) ->
  update_ticket tickets i field v st
  = (Raise (IndexError "Ticket index out of range"), st).
Proof.
  intros Hi. unfold update_ticket.
  erewrite bind_ret by by apply list_len_ok.
  by rewrite out_of_range_true.
Qed.

Lemma update_ticket_bad_field i field v :
  0 <= i < Z.of_nat (length L) -> field ∉ valid_fields ->
  update_ticket tickets i field v st
  = (Raise (ValueError "Invalid field. Must be one of: status, priority, type"), st).
Proof.
  intros Hi Hfield. unfold update_ticket, str_in.
  erewrite bind_ret by by apply list_len_ok.
  rewrite out_of_range_false by done.
  by rewrite bool_decide_eq_false_2.
Qed.

Context (i : Z) (t : nat) (d : dict).
Hypothesis Hi : 0 <= i.
Hypothesis Ht : L !! Z.to_nat i = Some t.

Lemma update_ticket_status_bad v :
  py_in v valid_statuses = false ->
  update_ticket tickets i "status" v st
  = (Raise (ValueError "Invalid status. Must be one of: new, open, resolved, closed"),
     st).
Proof.
  intros Hv. unfold update_ticket, str_in.
  erewrite bind_ret by by apply list_len_ok.
  apply lookup_lt_Some in Ht as Hlt.
  rewrite out_of_range_false by lia.
  rewrite bool_decide_eq_true_2 by repeat constructor. cbn [negb].
  erewrite bind_ret by by eapply list_getitem_ok.
  rewrite bool_decide_eq_true_2 by done. rewrite Hv. cbn [negb].
  by erewrite bind_raise.
Qed.

Lemma update_ticket_type_bad v :
  py_in v valid_types = false ->
  update_ticket tickets i "type" v st
  = (Raise (ValueError
       "Invalid type. Must be one of: technical, billing, general, account, feature"),
     st).
Proof.
  intros Hv. unfold update_ticket, str_in.
  erewrite bind_ret by by apply list_len_ok.
  apply lookup_lt_Some in Ht as Hlt.
  rewrite out_of_range_false by lia.
  rewrite bool_decide_eq_true_2 by repeat constructor. cbn [negb].
  erewrite bind_ret by by eapply list_getitem_ok.
  rewrite !bool_decide_eq_false_2 by done. rewrite Hv. cbn [negb].
  by erewrite bind_raise.
Qed.

Hypothesis Hd : dicts st !! t = Some d.

Lemma update_ticket_status_ok v :
  py_in v valid_statuses = true ->
  update_ticket tickets i "status" v st
  = (Ret t, set_dicts <[t := <["status" := v]> d]> st).
Proof.
  intros Hv. unfold update_ticket, str_in.
  erewrite bind_ret by by apply list_len_ok.
  apply lookup_lt_Some in Ht as Hlt.
  rewrite out_of_range_false by lia.
  rewrite bool_decide_eq_true_2 by repeat constructor. cbn [negb].
  erewrite bind_ret by by eapply list_getitem_ok.
  rewrite bool_decide_eq_true_2 by done. rewrite Hv. cbn [negb].
  by erewrite bind_ret by by eapply dict_setitem_ok.
Qed.

Lemma update_ticket_type_ok v :
  py_in v valid_types = true ->
  update_ticket tickets i "type" v st
  = (Ret t, set_dicts <[t := <["type" := v]> d]> st).
Proof.
  intros Hv. unfold update_ticket, str_in.
  erewrite bind_ret by by apply list_len_ok.
  apply lookup_lt_Some in Ht as Hlt.
  rewrite out_of_range_false by lia.
  rewrite bool_decide_eq_true_2 by repeat constructor. cbn [negb].
  erewrite bind_ret by by eapply list_getitem_ok.
  rewrite !bool_decide_eq_false_2 by done. rewrite Hv. cbn [negb].
  by erewrite bind_ret by by eapply dict_setitem_ok.
Qed.
End update_fields.

Lemma py_in_false v l : py_in v l = false <-> ~ exists s, s ∈ l /\ v = VStr s.
Proof. rewrite <- py_in_spec. by destruct (py_in v l). Qed.

(** X8.  For an index inside the ticket list, [update_ticket] on "status"
    (on "type") with one of the four statuses (five types) sets that field
    of the ticket at the index, changes nothing else and returns the ticket;
    with any other value it raises [ValueError] with the message for that
    field and changes nothing. *)
Theorem update_ticket_status_type_spec (st : store) (tickets : nat) (L : list nat)
    (i : Z) (t : nat) (d : dict) :
  lists st !! tickets = Some L ->
  0 <= i ->
  L !! Z.to_nat i = Some t ->
  dicts st !! t = Some d ->
  (forall s, s ∈ valid_statuses ->
     update_ticket tickets i "status" (VStr s) st
     = (Ret t, set_dicts <[t := <["status" := VStr s]> d]> st))
  /\ (forall v, ~ (exists s, s ∈ valid_statuses /\ v = VStr s) ->
        update_ticket tickets i "status" v st
        = (Raise (ValueError
             "Invalid status. Must be one of: new, open, resolved, closed"), st))
  /\ (forall s, s ∈ valid_types ->
        update_ticket tickets i "type" (VStr s) st
        = (Ret t, set_dicts <[t := <["type" := VStr s]> d]> st))
  /\ (forall v, ~ (exists s, s ∈ valid_types /\ v = VStr s) ->
        update_ticket tickets i "type" v st
        = (Raise (ValueError
             "Invalid type. Must be one of: technical, billing, general, account, feature"),
           st)).
Proof.
  intros HL Hi Ht Hd. split; [|split; [|split]].
  - intros s Hs. eapply update_ticket_status_ok; try done.
    apply py_in_spec. eauto.
  - intros v Hv. eapply update_ticket_status_bad; try done. by apply py_in_false.
  - intros s Hs. eapply update_ticket_type_ok; try done.
    apply py_in_spec. eauto.
  - intros v Hv. eapply update_ticket_type_bad; try done. by apply py_in_false.
Qed.

(** X9.  The order of the checks of [update_ticket]: an index outside the
    ticket list raises [IndexError] whatever the field and the value are;
    with an index inside, a field other than status, priority and type
    (such as "id" or "title") raises [ValueError] with a message that lists
    the three.  Neither changes anything. *)
Theorem update_ticket_guards (st : store) (tickets : nat) (L : list nat) :
  lists st !! tickets = Some L ->
  (forall i field v, i < 0 \/ i >= Z.of_nat (length L) ->
     update_ticket tickets i field v st
     = (Raise (IndexError "Ticket index out of range"), st))
  /\ (forall i field v, 0 <= i < Z.of_nat (length L) -> field ∉ valid_fields ->
        exists msg,
          update_ticket tickets i field v st = (Raise (ValueError msg), st)
          /\ contains "status, priority, type" msg = true).
Proof.
  intros HL. split.
  - intros i field v Hi. by eapply update_ticket_bad_index.
  - intros i field v Hi Hfield. eexists.
    split; [by eapply update_ticket_bad_field|done].
Qed.


(** ** When the mutating operations return *)

Lemma add_ticket_checks st tickets ticket d :
  dicts st !! ticket = Some d ->
  add_ticket tickets ticket st
  = match ticket_error d with
    | Some msg => (Raise (ValueError msg), st)
    | None => (list_append tickets ticket ;; mret tickets) st
    end.
Proof.
  intros Hd. unfold ticket_error.
  destruct (list_find (fun f => d !! f = None) required_fields) as [[i f]|] eqn:Hfind.
  { by eapply add_ticket_missing. }
  apply no_missing_field in Hfind as Hmiss.
  destruct (present_field d "type" Hmiss) as [ty Hty]; [set_solver|].
  destruct (present_field d "priority" Hmiss) as [p Hp]; [set_solver|].
  destruct (present_field d "status" Hmiss) as [s Hs]; [set_solver|].
  rewrite Hty, Hp, Hs. unfold add_ticket.
  erewrite bind_ret by (erewrite check_required_run by done; by rewrite Hfind).
  erewrite bind_ret by by eapply dict_getitem_ok.
  destruct (negb (py_in ty valid_types)); [done|].
  erewrite bind_ret by by eapply dict_getitem_ok.
  fold (priority_rejected p). destruct (priority_rejected p); [done|].
  erewrite bind_ret by by eapply dict_getitem_ok.
  by destruct (negb (py_in s valid_statuses)).
Qed.

Lemma ticket_error_valid d : ticket_error d = None <-> valid_ticket d.
Proof.
  unfold ticket_error, valid_ticket.
  destruct (list_find (fun f => d !! f = None) required_fields) as [[i f]|] eqn:Hfind.
  { split; [done|]. intros [Hmiss _]. apply no_missing_field in Hmiss. congruence. }
  apply no_missing_field in Hfind as Hmiss.
  destruct (present_field d "type" Hmiss) as [ty Hty]; [set_solver|].
  destruct (present_field d "priority" Hmiss) as [p Hp]; [set_solver|].
  destruct (present_field d "status" Hmiss) as [s Hs]; [set_solver|].
  rewrite Hty, Hp, Hs.
  rewrite (type_ok_spec d ty Hty), (priority_ok_spec d p Hp), (status_ok_spec d s Hs).
  destruct (py_in ty valid_types), (priority_rejected p), (py_in s valid_statuses);
    simpl; split; try done; by intros (_ & ? & ? & ?).
Qed.

Lemma add_ticket_returns st tickets ticket r st' :
  add_ticket tickets ticket st = (Ret r, st') ->
  exists L d,
    lists st !! tickets = Some L /\ dicts st !! ticket = Some d /\ valid_ticket d
    /\ r = tickets /\ st' = set_lists <[tickets := L ++ [ticket]]> st.
Proof.
  destruct (dicts st !! ticket) as [d|] eqn:Hd.
  2:{ unfold add_ticket. cbn [for_each required_fields].
      erewrite bind_dangling; [done|]. erewrite bind_dangling; [done|].
      erewrite bind_dangling; [done|]. unfold dict_contains.
      erewrite bind_dangling; [done|]. unfold read_dict. by rewrite Hd. }
  rewrite (add_ticket_checks st tickets ticket d Hd).
  destruct (ticket_error d) as [msg|] eqn:Herr; [done|].
  apply ticket_error_valid in Herr.
  destruct (lists st !! tickets) as [L|] eqn:HL.
  - erewrite bind_ret by by apply list_append_ok.
    intros [= <- <-]. by exists L, d.
  - erewrite bind_dangling; [done|]. unfold list_append.
    erewrite bind_dangling; [done|]. unfold read_list. by rewrite HL.
Qed.

Lemma list_len_dangling st l :
  lists st !! l = None -> list_len l st = (Dangling, st).
Proof.
  intros Hl. unfold list_len. erewrite bind_dangling; [done|].
  unfold read_list. by rewrite Hl.
Qed.

Lemma remove_ticket_returns st tickets i t st' :
  remove_ticket tickets i st = (Ret t, st') ->
  exists L,
    lists st !! tickets = Some L /\ 0 <= i < Z.of_nat (length L)
    /\ L !! Z.to_nat i = Some t
    /\ st' = set_lists <[tickets := delete (Z.to_nat i) L]> st.
Proof.
  unfold remove_ticket.
  destruct (lists st !! tickets) as [L|] eqn:HL.
  2:{ by erewrite bind_dangling by by apply list_len_dangling. }
  erewrite bind_ret by by apply list_len_ok.
  destruct (decide (0 <= i < Z.of_nat (length L))) as [Hi|Hi].
  2:{ by rewrite out_of_range_true by lia. }
  rewrite out_of_range_false by done.
  destruct (lookup_lt_is_Some_2 L (Z.to_nat i)) as [x Hx]; [lia|].
  erewrite list_pop_ok by (done || lia).
  intros [= <- <-]. by exists L.
Qed.

Lemma manage_queue_returns st tickets queue op index r st' :
  manage_queue tickets queue op index st = (Ret r, st') ->
  (op = "add" /\ exists i T Q t,
     index = Some i /\ lists st !! tickets = Some T /\ lists st !! queue = Some Q
     /\ 0 <= i /\ T !! Z.to_nat i = Some t /\ (length Q < 5)%nat
     /\ r = RList queue /\ st' = set_lists <[queue := Q ++ [t]]> st)
  \/ (op = "remove" /\ exists i Q t,
        index = Some i /\ lists st !! queue = Some Q
        /\ 0 <= i /\ Q !! Z.to_nat i = Some t
        /\ r = RDict t /\ st' = set_lists <[queue := delete (Z.to_nat i) Q]> st)
  \/ (op = "clear" /\ exists Q,
        lists st !! queue = Some Q
        /\ r = RList queue /\ st' = set_lists <[queue := []]> st).
Proof.
  destruct (str_in op valid_operations) eqn:Hop.
  2:{ unfold manage_queue. by rewrite Hop. }
  apply valid_operations_inv in Hop as [->|[->| ->]].
  - destruct index as [i|]; [|done].
    destruct (lists st !! tickets) as [T|] eqn:HT.
    2:{ unfold manage_queue, str_in.
        rewrite bool_decide_eq_true_2 by repeat constructor. cbn [negb].
        rewrite bool_decide_eq_true_2 by done.
        by erewrite bind_dangling by by apply list_len_dangling. }
    destruct (decide (0 <= i < Z.of_nat (length T))) as [Hi|Hi].
    2:{ by erewrite (manage_queue_add_range st tickets queue T) by (done || lia). }
    destruct (lists st !! queue) as [Q|] eqn:HQ.
    2:{ unfold manage_queue, str_in.
        rewrite bool_decide_eq_true_2 by repeat constructor. cbn [negb].
        rewrite bool_decide_eq_true_2 by done.
        erewrite bind_ret by by apply list_len_ok.
        rewrite out_of_range_false by done.
        by erewrite bind_dangling by by apply list_len_dangling. }
    destruct (decide (length Q < 5)%nat) as [Hroom|Hfull].
    2:{ by erewrite (manage_queue_add_full st tickets queue T Q) by (done || lia). }
    destruct (lookup_lt_is_Some_2 T (Z.to_nat i)) as [t Ht]; [lia|].
    erewrite (manage_queue_add_ok st tickets queue T Q) by (done || lia).
    intros [= <- <-]. left. split; [done|]. exists i, T, Q, t.
    repeat split; (done || lia).
  - destruct index as [i|]; [|done].
    destruct (lists st !! queue) as [Q|] eqn:HQ.
    2:{ unfold manage_queue, str_in.
        rewrite bool_decide_eq_true_2 by repeat constructor. cbn [negb].
        rewrite bool_decide_eq_false_2 by done.
        rewrite bool_decide_eq_true_2 by done.
        by erewrite bind_dangling by by apply list_len_dangling. }
    destruct (decide (0 <= i < Z.of_nat (length Q))) as [Hi|Hi].
    2:{ by erewrite (manage_queue_remove_range st tickets queue Q) by (done || lia). }
    destruct (lookup_lt_is_Some_2 Q (Z.to_nat i)) as [t Ht]; [lia|].
    erewrite (manage_queue_remove_ok st tickets queue Q) by (done || lia).
    intros [= <- <-]. right. left. split; [done|]. exists i, Q, t.
    repeat split; (done || lia).
  - destruct (lists st !! queue) as [Q|] eqn:HQ.
    2:{ unfold manage_queue, str_in.
        rewrite bool_decide_eq_true_2 by repeat constructor. cbn [negb].
        rewrite !bool_decide_eq_false_2 by done.
        erewrite bind_dangling; [done|]. unfold list_clear.
        erewrite bind_dangling; [done|]. unfold read_list. by rewrite HQ. }
    erewrite (manage_queue_clear st tickets queue Q) by done.
    intros [= <- <-]. right. right. split; [done|]. by exists Q.
Qed.


Lemma update_ticket_at st tickets L i t field v :
  lists st !! tickets = Some L -> 0 <= i -> L !! Z.to_nat i = Some t ->
  field ∈ valid_fields ->
  update_ticket tickets i field v st
  = ((if bool_decide (field = "status") then
        if negb (py_in v valid_statuses)
        then raise (ValueError ("Invalid status. Must be one of: "
                                  +:+ join ", " valid_statuses))
        else dict_setitem t "status" v
      else if bool_decide (field = "priority") then
        priority ← try_except_ValueError
                     (priority ← lift (py_int v);
                      if (priority <? 1) || (priority >? 4)
                      then raise (ValueError "")
                      else mret priority)
                     (raise (ValueError
                               "Priority must be an integer between 1 and 4"));
        dict_setitem t "priority" (VInt priority)
      else
        if negb (py_in v valid_types)
        then raise (ValueError ("Invalid type. Must be one of: "
                                  +:+ join ", " valid_types))
        else dict_setitem t "type" v) ;; mret t) st.
Proof.
  intros HL Hi Ht Hfield. unfold update_ticket, str_in.
  erewrite bind_ret by by apply list_len_ok.
  apply lookup_lt_Some in Ht as Hlt.
  rewrite out_of_range_false by lia.
  rewrite bool_decide_eq_true_2 by done. cbn [negb].
  by erewrite bind_ret by by eapply list_getitem_ok.
Qed.

Lemma dict_setitem_dangling st t k v :
  dicts st !! t = None -> dict_setitem t k v st = (Dangling, st).
Proof.
  intros Hd. unfold dict_setitem. erewrite bind_dangling; [done|].
  unfold read_dict. by rewrite Hd.
Qed.

Lemma valid_fields_inv field :
  field ∈ valid_fields -> field = "status" \/ field = "priority" \/ field = "type".
Proof. unfold valid_fields. rewrite !elem_of_cons, elem_of_nil. tauto. Qed.

(** The coercion of the priority branch, with its range check. *)
Lemma priority_coercion_cases st v :
  (exists n, 1 <= n <= 4 /\ py_int v = inr n
     /\ try_except_ValueError
          (priority ← lift (py_int v);
           if (priority <? 1) || (priority >? 4)
           then raise (ValueError "")
           else mret priority)
          (raise (ValueError "Priority must be an integer between 1 and 4")) st
        = (Ret n, st))
  \/ (exists e,
        try_except_ValueError
          (priority ← lift (py_int v);
           if (priority <? 1) || (priority >? 4)
           then raise (ValueError "")
           else mret priority)
          (raise (ValueError "Priority must be an integer between 1 and 4")) st
        = (Raise e, st)).
Proof.
  unfold try_except_ValueError.
  destruct (py_int v) as [e|n] eqn:Hv; simpl.
  - right. destruct e; eauto.
  - unfold mbind, M_bind, mret, M_ret.
    destruct (Z.ltb_spec n 1), (Z.gtb_spec n 4); simpl; eauto.
    left. exists n. repeat split; (done || lia).
Qed.

Lemma update_ticket_returns st tickets i field v r st' :
  update_ticket tickets i field v st = (Ret r, st') ->
  exists L d v',
    lists st !! tickets = Some L /\ 0 <= i /\ L !! Z.to_nat i = Some r
    /\ dicts st !! r = Some d /\ valid_update field v'
    /\ st' = set_dicts <[r := <[field := v']> d]> st.
Proof.
  destruct (lists st !! tickets) as [L|] eqn:HL.
  2:{ unfold update_ticket.
      by erewrite bind_dangling by by apply list_len_dangling. }
  destruct (decide (0 <= i < Z.of_nat (length L))) as [Hi|Hi].
  2:{ by erewrite (update_ticket_bad_index st tickets L) by (done || lia). }
  destruct (decide (field ∈ valid_fields)) as [Hfield|Hfield].
  2:{ by erewrite (update_ticket_bad_field st tickets L) by done. }
  destruct (lookup_lt_is_Some_2 L (Z.to_nat i)) as [t Ht]; [lia|].
  rewrite (update_ticket_at st tickets L i t field v) by (done || lia).
  apply valid_fields_inv in Hfield as [->|[->| ->]].
  - rewrite bool_decide_eq_true_2 by done.
    destruct (py_in v valid_statuses) eqn:Hv; cbn [negb].
    2:{ by erewrite bind_raise. }
    destruct (dicts st !! t) as [d|] eqn:Hd.
    2:{ by erewrite bind_dangling by by apply dict_setitem_dangling. }
    erewrite bind_ret by by eapply dict_setitem_ok.
    intros [= <- <-]. exists L, d, v. repeat split; try (done || lia).
    left. split; [done|]. by apply py_in_spec.
  - rewrite bool_decide_eq_false_2 by done.
    rewrite bool_decide_eq_true_2 by done.
    destruct (priority_coercion_cases st v) as [(n & Hn & _ & Hrun)|[e Hrun]].
    2:{ erewrite bind_raise; [done|]. by erewrite bind_raise. }
    destruct (dicts st !! t) as [d|] eqn:Hd.
    2:{ erewrite bind_dangling; [done|]. erewrite bind_ret by done.
        by apply dict_setitem_dangling. }
    erewrite bind_ret; last first.
    { erewrite bind_ret by done. by eapply dict_setitem_ok. }
    intros [= <- <-]. exists L, d, (VInt n). repeat split; try (done || lia).
    right. left. split; [done|]. by exists n.
  - rewrite !bool_decide_eq_false_2 by done.
    destruct (py_in v valid_types) eqn:Hv; cbn [negb].
    2:{ by erewrite bind_raise. }
    destruct (dicts st !! t) as [d|] eqn:Hd.
    2:{ by erewrite bind_dangling by by apply dict_setitem_dangling. }
    erewrite bind_ret by by eapply dict_setitem_ok.
    intros [= <- <-]. exists L, d, v. repeat split; try (done || lia).
    right. right. split; [done|]. by apply py_in_spec.
Qed.

(** ** The data-model invariant *)

Lemma all_tickets_set_lists st P f L :
  all_tickets (set_lists f st) P L <-> all_tickets st P L.
Proof. done. Qed.

Lemma store_inv_set_list st P l X :
  store_inv P st -> all_tickets st P X -> store_inv P (set_lists <[l := X]> st).
Proof.
  intros Hinv HX l' L'. simpl. rewrite lookup_insert.
  case_decide; [intros [= <-]; done|]. apply Hinv.
Qed.

Lemma all_tickets_set_dict st P t d' L :
  P d' -> all_tickets st P L -> all_tickets (set_dicts <[t := d']> st) P L.
Proof.
  intros Hd' Hall. unfold all_tickets. eapply Forall_impl; [exact Hall|].
  intros u (d & Hd & HP).
  simpl. destruct (decide (t = u)) as [->|Hne].
  - exists d'. by rewrite lookup_insert_eq.
  - exists d. by rewrite lookup_insert_ne.
Qed.

Lemma store_inv_set_dict st P t d' :
  store_inv P st -> P d' -> store_inv P (set_dicts <[t := d']> st).
Proof.
  intros Hinv Hd' l L HL. apply all_tickets_set_dict; [done|].
  by apply (Hinv l).
Qed.

Lemma all_tickets_app st P L1 L2 :
  all_tickets st P L1 -> all_tickets st P L2 -> all_tickets st P (L1 ++ L2).
Proof. apply Forall_app_2. Qed.

Lemma all_tickets_lookup st P L i t :
  all_tickets st P L -> L !! i = Some t -> exists d, dicts st !! t = Some d /\ P d.
Proof. intros Hall Ht. eapply all_tickets_elem; [done|]. by eapply list_elem_of_lookup_2. Qed.

Lemma valid_update_valid d k v :
  valid_update k v -> valid_ticket d -> valid_ticket (<[k := v]> d).
Proof.
  intros Hupd (Hmiss & (ty & Hty & Hd1) & (p & n & Hd2 & Hn & Hrange) & (s & Hs & Hd3)).
  assert (~ missing_field (<[k:=v]> d)) as Hmiss'.
  { intros (f & Hf & Hnone). apply Hmiss. exists f. split; [done|].
    rewrite lookup_insert in Hnone. by case_decide. }
  split; [done|].
  destruct Hupd as [[-> (s' & Hs' & ->)]|[[-> (m & Hm & ->)]|[-> (s' & Hs' & ->)]]].
  - split; [|split].
    + exists ty. by rewrite lookup_insert_ne.
    + exists p, n. by rewrite lookup_insert_ne.
    + exists s'. by rewrite lookup_insert_eq.
  - split; [|split].
    + exists ty. by rewrite lookup_insert_ne.
    + exists (VInt m), m. by rewrite lookup_insert_eq.
    + exists s. by rewrite lookup_insert_ne.
  - split; [|split].
    + exists s'. by rewrite lookup_insert_eq.
    + exists p, n. by rewrite lookup_insert_ne.
    + exists s. by rewrite lookup_insert_ne.
Qed.

Lemma valid_update_record d k v :
  valid_update k v -> ticket_record d -> ticket_record (<[k := v]> d).
Proof.
  intros Hupd (Hvalid & [i Hi] & [ti Hti]).
  split; [by apply valid_update_valid|].
  assert (k <> "id" /\ k <> "title") as [? ?].
  { by destruct Hupd as [[-> _]|[[-> _]|[-> _]]]. }
  split; [exists i|exists ti]; by rewrite lookup_insert_ne.
Qed.

Lemma atomic_unchanged {A} (m : M A) st o st' :
  atomic_m m -> m st = (o, st') -> (forall a, o <> Ret a) -> st' = st.
Proof. intros Hm Hrun Ho. specialize (Hm st). rewrite Hrun in Hm. by apply Hm. Qed.

Lemma add_ticket_inv st tickets ticket :
  store_inv valid_ticket st -> store_inv valid_ticket (add_ticket tickets ticket st).2.
Proof.
  intros Hinv. destruct (add_ticket tickets ticket st) as [[r|e|] st'] eqn:Hrun.
  - apply add_ticket_returns in Hrun as (L & d & HL & Hd & Hvalid & _ & ->).
    apply store_inv_set_list; [done|].
    apply all_tickets_app; [by eapply Hinv|].
    apply Forall_singleton. by exists d.
  - by rewrite (atomic_unchanged _ _ _ _ (atomic_add_ticket tickets ticket) Hrun).
  - by rewrite (atomic_unchanged _ _ _ _ (atomic_add_ticket tickets ticket) Hrun).
Qed.

Lemma remove_ticket_inv P st tickets i :
  store_inv P st -> store_inv P (remove_ticket tickets i st).2.
Proof.
  intros Hinv. destruct (remove_ticket tickets i st) as [[r|e|] st'] eqn:Hrun.
  - apply remove_ticket_returns in Hrun as (L & HL & _ & _ & ->).
    apply store_inv_set_list; [done|].
    apply Forall_delete. by eapply Hinv.
  - by rewrite (atomic_unchanged _ _ _ _ (atomic_remove_ticket tickets i) Hrun).
  - by rewrite (atomic_unchanged _ _ _ _ (atomic_remove_ticket tickets i) Hrun).
Qed.

Lemma manage_queue_inv P st tickets queue op index :
  store_inv P st -> store_inv P (manage_queue tickets queue op index st).2.
Proof.
  intros Hinv.
  destruct (manage_queue tickets queue op index st) as [[r|e|] st'] eqn:Hrun.
  - apply manage_queue_returns in Hrun
      as [(_ & i & T & Q & t & _ & HT & HQ & _ & Ht & _ & _ & ->)
         |[(_ & i & Q & t & _ & HQ & _ & _ & _ & ->)|(_ & Q & HQ & _ & ->)]].
    + apply store_inv_set_list; [done|].
      apply all_tickets_app; [by eapply Hinv|].
      apply Forall_singleton. eapply all_tickets_lookup; [by apply (Hinv tickets)|done].
    + apply store_inv_set_list; [done|]. apply Forall_delete. by eapply Hinv.
    + apply store_inv_set_list; [done|]. apply Forall_nil_2.
  - by rewrite (atomic_unchanged _ _ _ _
                  (atomic_manage_queue tickets queue op index) Hrun).
  - by rewrite (atomic_unchanged _ _ _ _
                  (atomic_manage_queue tickets queue op index) Hrun).
Qed.

Lemma update_ticket_inv P st tickets i field v :
  (forall d k v', valid_update k v' -> P d -> P (<[k := v']> d)) ->
  store_inv P st -> store_inv P (update_ticket tickets i field v st).2.
Proof.
  intros Hclosed Hinv.
  destruct (update_ticket tickets i field v st) as [[r|e|] st'] eqn:Hrun.
  - apply update_ticket_returns in Hrun
      as (L & d & v' & HL & _ & Hr & Hd & Hupd & ->).
    apply store_inv_set_dict; [done|]. apply Hclosed; [done|].
    destruct (all_tickets_lookup st P L _ r (Hinv _ _ HL) Hr) as (d' & Hd' & HP).
    congruence.
  - by rewrite (atomic_unchanged _ _ _ _
                  (atomic_update_ticket tickets i field v) Hrun).
  - by rewrite (atomic_unchanged _ _ _ _
                  (atomic_update_ticket tickets i field v) Hrun).
Qed.

(** X10.  The invariant of the data model.  If every list of the store
    holds only valid tickets (all five fields, a known type, an integer
    priority from 1 to 4, a known status), then so it is after [add_ticket],
    [remove_ticket], [manage_queue] and [update_ticket], whatever their
    arguments and whether they return or raise.  The last three also keep
    every list holding only ticket records (valid tickets whose id and title
    are strings). *)
Theorem mutators_keep_invariant (st : store) :
  store_inv valid_ticket st ->
  (forall tickets ticket, store_inv valid_ticket (add_ticket tickets ticket st).2)
  /\ (forall tickets i, store_inv valid_ticket (remove_ticket tickets i st).2)
  /\ (forall tickets queue op index,
        store_inv valid_ticket (manage_queue tickets queue op index st).2)
  /\ (forall tickets i field v,
        store_inv valid_ticket (update_ticket tickets i field v st).2)
  /\ (store_inv ticket_record st ->
      (forall tickets i, store_inv ticket_record (remove_ticket tickets i st).2)
      /\ (forall tickets queue op index,
            store_inv ticket_record (manage_queue tickets queue op index st).2)
      /\ (forall tickets i field v,
            store_inv ticket_record (update_ticket tickets i field v st).2)).
Proof.
  intros Hinv. split; [|split; [|split; [|split]]].
  - intros tickets ticket. by apply add_ticket_inv.
  - intros tickets i. by apply remove_ticket_inv.
  - intros tickets queue op index. by apply manage_queue_inv.
  - intros tickets i field v. apply update_ticket_inv; [|done].
    intros d k v'. apply valid_update_valid.
  - intros Hrec. split; [|split].
    + intros tickets i. by apply remove_ticket_inv.
    + intros tickets queue op index. by apply manage_queue_inv.
    + intros tickets i field v. apply update_ticket_inv; [|done].
      intros d k v'. apply valid_update_record.
Qed.


Lemma filterM_sublist {A} (cond : A -> M bool) L st X st' :
  filterM cond L st = (Ret X, st') -> X `sublist_of` L.
Proof.
  revert st X st'. induction L as [|x L IH]; intros st X st'.
  - intros [= <- _]. constructor.
  - cbn [filterM]. unfold mbind, M_bind.
    destruct (cond x st) as [[b|e|] st1]; [|done..].
    destruct (filterM cond L st1) as [[r|e|] st2] eqn:Hrest; [|done..].
    intros [= <- _]. apply IH in Hrest.
    destruct b; by constructor.
Qed.

Lemma all_tickets_sublist st P X L :
  X `sublist_of` L -> all_tickets st P L -> all_tickets st P X.
Proof.
  intros Hsub Hall. apply Forall_forall. intros t Ht.
  eapply all_tickets_elem; [done|]. by eapply elem_of_sublist.
Qed.

Lemma elem_of_zip_snd {A B} (ks : list A) (L : list B) k t :
  (k, t) ∈ zip ks L -> t ∈ L.
Proof.
  revert L. induction ks as [|k' ks IH]; intros [|t' L]; simpl;
    try by intros ?%elem_of_nil.
  intros [[= -> ->]|Hin]%elem_of_cons; [left|right; by apply IH].
Qed.

(** A comprehension either does not return and changes nothing, or returns
    a new list that holds some of the elements of the list it reads. *)
Lemma list_comprehension_cases st l (cond : nat -> M bool) :
  (forall t, pure_m (cond t)) ->
  ((forall r, (list_comprehension l cond st).1 <> Ret r)
   /\ (list_comprehension l cond st).2 = st)
  \/ (exists L X r,
        lists st !! l = Some L /\ X `sublist_of` L /\ lists st !! r = None
        /\ list_comprehension l cond st = (Ret r, set_lists <[r := X]> st)).
Proof.
  intros Hcond. unfold list_comprehension, mbind, M_bind, read_list.
  destruct (lists st !! l) as [L|] eqn:HL; [|by left].
  pose proof (pure_filterM cond L Hcond st) as Hpure.
  destruct (filterM cond L st) as [[X|e|] st1] eqn:Hfilter; simpl in Hpure; subst;
    [|by left..].
  right. destruct (list_new_fresh st X) as (r & Hnew & Hr).
  exists L, X, r. repeat split; try done. by eapply filterM_sublist.
Qed.

Lemma list_comprehension_inv P st l (cond : nat -> M bool) :
  (forall t, pure_m (cond t)) ->
  store_inv P st -> store_inv P (list_comprehension l cond st).2.
Proof.
  intros Hcond Hinv.
  destruct (list_comprehension_cases st l cond Hcond)
    as [[_ ->]|(L & X & r & HL & Hsub & _ & ->)]; [done|].
  apply store_inv_set_list; [done|].
  eapply all_tickets_sublist; [done|]. by eapply Hinv.
Qed.

Lemma bind_pure_inv {A B} P (m : M A) (f : A -> M B) st :
  pure_m m -> store_inv P st -> (forall a, store_inv P (f a st).2) ->
  store_inv P ((m ≫= f) st).2.
Proof.
  intros Hm Hinv Hf. unfold mbind, M_bind. specialize (Hm st).
  destruct (m st) as [[a|e|] st1]; simpl in *; subst; [apply Hf|done..].
Qed.

Lemma filter_tickets_inv P st tickets k v :
  store_inv P st -> store_inv P (filter_tickets tickets k v st).2.
Proof.
  intros Hinv. unfold filter_tickets.
  destruct (negb _); [done|].
  destruct (bool_decide (k = "keyword")).
  { apply bind_pure_inv; [solve_pure|done|]. intros kw.
    apply list_comprehension_inv; [|done]. intros t. solve_pure. }
  destruct (bool_decide (k = "priority")).
  { apply bind_pure_inv; [solve_pure|done|]. intros w.
    apply list_comprehension_inv; [|done]. intros t. solve_pure. }
  apply list_comprehension_inv; [|done]. intros t. solve_pure.
Qed.

Lemma get_priority_tickets_inv P st tickets level :
  store_inv P st -> store_inv P (get_priority_tickets tickets level st).2.
Proof.
  intros Hinv. unfold get_priority_tickets.
  destruct (match int_value level with None => true | Some p => _ end); [done|].
  apply list_comprehension_inv; [|done]. intros t. solve_pure.
Qed.

Lemma combine_queues_inv P st a b :
  store_inv P st -> store_inv P (combine_queues a b st).2.
Proof.
  intros Hinv. unfold combine_queues, list_concat, mbind, M_bind, read_list.
  destruct (lists st !! a) as [A|] eqn:HA; [|done].
  destruct (lists st !! b) as [B|] eqn:HB; [|done].
  destruct (list_new_fresh st (A ++ B)) as (r & -> & _).
  apply store_inv_set_list; [done|].
  apply all_tickets_app; by eapply Hinv.
Qed.

Lemma sort_tickets_inv P st tickets k :
  store_inv P st -> store_inv P (sort_tickets tickets k st).2.
Proof.
  intros Hinv. unfold sort_tickets. destruct (negb _); [done|].
  destruct (list_copy_cases st tickets) as [(L & r & HL & Hr & Hcopy)|[Hno Hst]].
  2:{ destruct (bind_cases (list_copy tickets)
                  (fun r => list_sort r (fun ticket => dict_getitem ticket k) ;; mret r) st)
        as [(r & st1 & Hcopy & _)|[_ ->]].
      - destruct (Hno r). by rewrite Hcopy.
      - by rewrite Hst. }
  erewrite bind_ret by done.
  assert (store_inv P (set_lists <[r:=L]> st)) as Hinv1.
  { apply store_inv_set_list; [done|]. by eapply Hinv. }
  unfold list_sort, mbind, M_bind, read_list. simpl. rewrite lookup_insert_eq.
  pose proof (pure_mapM (fun ticket => dict_getitem ticket k) L
                (fun t => pure_dict_getitem t k) (set_lists <[r:=L]> st)) as Hpure.
  destruct (mapM _ L _) as [[ks|e|] st1]; simpl in Hpure; subst; [|done..].
  destruct (sortable ks); [|done]. simpl.
  apply store_inv_set_list; [done|].
  assert ((stable_sort (zip ks L)).*2 ⊆ L) as Hsub.
  { intros t Ht. apply list_elem_of_fmap in Ht as ([kt t'] & -> & Hin).
    rewrite stable_sort_perm in Hin. simpl.
    by apply elem_of_zip_snd in Hin. }
  apply Forall_forall. intros t Ht. apply Hsub in Ht.
  eapply all_tickets_elem; [|done]. by eapply Hinv.
Qed.

(** X11.  The operations that build a list keep the invariant too: if every
    list of the store holds only tickets with a property (valid tickets,
    ticket records), then so it is after [sort_tickets], [filter_tickets],
    [get_priority_tickets] and [combine_queues], whatever their arguments
    and outcome; in particular the lists they return hold only such
    tickets. *)
Theorem builders_keep_invariant (P : dict -> Prop) (st : store) :
  store_inv P st ->
  (forall tickets k, store_inv P (sort_tickets tickets k st).2)
  /\ (forall tickets k v, store_inv P (filter_tickets tickets k v st).2)
  /\ (forall tickets level, store_inv P (get_priority_tickets tickets level st).2)
  /\ (forall a b, store_inv P (combine_queues a b st).2).
Proof.
  intros Hinv. split; [|split; [|split]].
  - intros tickets k. by apply sort_tickets_inv.
  - intros tickets k v. by apply filter_tickets_inv.
  - intros tickets level. by apply get_priority_tickets_inv.
  - intros a b. by apply combine_queues_inv.
Qed.


(** ** Round trips and sharing *)

Lemma set_lists_insert_id st l L :
  lists st !! l = Some L -> set_lists <[l := L]> st = st.
Proof. intros Hl. destruct st as [ds ls]. unfold set_lists. simpl in *. by rewrite insert_id. Qed.

Lemma set_lists_insert_insert st l L1 L2 :
  set_lists <[l := L2]> (set_lists <[l := L1]> st) = set_lists <[l := L2]> st.
Proof. unfold set_lists. simpl. by rewrite insert_insert_eq. Qed.

Lemma delete_last {A} (L : list A) x : delete (length L) (L ++ [x]) = L.
Proof. rewrite delete_middle. apply app_nil_r. Qed.

Lemma lookup_last {A} (L : list A) x : (L ++ [x]) !! length L = Some x.
Proof. by rewrite list_lookup_middle. Qed.

(** X12.  Adding and taking back.  After a valid ticket was added with
    [add_ticket], [remove_ticket] at the last index returns that very ticket
    and the store is again exactly as before the two calls; the same holds
    for the queue: after [manage_queue] "add" of an index of the ticket
    list, "remove" at the last queue index returns the ticket at that index
    of the ticket list and restores the store. *)
Theorem add_then_remove (st : store) (tickets : nat) (L : list nat) :
  lists st !! tickets = Some L ->
  (forall ticket d,
     dicts st !! ticket = Some d -> valid_ticket d ->
     (add_ticket tickets ticket ;;
      remove_ticket tickets (Z.of_nat (length L))) st = (Ret ticket, st))
  /\ (forall queue Q i t,
        lists st !! queue = Some Q -> (length Q < 5)%nat ->
        0 <= i -> L !! Z.to_nat i = Some t ->
        (manage_queue tickets queue "add" (Some i) ;;
         manage_queue tickets queue "remove" (Some (Z.of_nat (length Q)))) st
        = (Ret (RDict t), st)).
Proof.
  intros HL. split.
  - intros ticket d Hd Hvalid.
    erewrite bind_ret; last first.
    { rewrite (add_ticket_checks st tickets ticket d Hd).
      apply ticket_error_valid in Hvalid. rewrite Hvalid.
      by erewrite bind_ret by by apply list_append_ok. }
    unfold remove_ticket.
    erewrite bind_ret by (apply list_len_ok; simpl; apply lookup_insert_eq).
    rewrite out_of_range_false by (rewrite length_app; simpl; lia).
    erewrite list_pop_ok; [|simpl; apply lookup_insert_eq|lia|].
    2:{ rewrite Nat2Z.id. apply lookup_last. }
    rewrite Nat2Z.id, delete_last, set_lists_insert_insert.
    by rewrite set_lists_insert_id.
  - intros queue Q i t HQ Hroom Hi Ht.
    erewrite bind_ret by by eapply manage_queue_add_ok.
    assert (lists (set_lists <[queue:=Q ++ [t]]> st) !! queue = Some (Q ++ [t])) as HQ'
      by (simpl; apply lookup_insert_eq).
    erewrite (manage_queue_remove_ok _ tickets queue (Q ++ [t])); [|done|lia|].
    2:{ rewrite Nat2Z.id. apply lookup_last. }
    rewrite Nat2Z.id, delete_last, set_lists_insert_insert.
    by rewrite set_lists_insert_id.
Qed.

(** X13.  The queue shares tickets with the ticket list: after
    [manage_queue] "add" of index [i], a status update of [tickets[i]]
    through [update_ticket] is what the new queue entry shows; the queue
    holds the ticket itself, not a copy. *)
Theorem queue_shares_tickets (st : store) (tickets queue : nat) (T Q : list nat)
    (i : Z) (t : nat) (d : dict) (s : string) :
  lists st !! tickets = Some T ->
  lists st !! queue = Some Q ->
  (length Q < 5)%nat ->
  0 <= i ->
  T !! Z.to_nat i = Some t ->
  dicts st !! t = Some d ->
  s ∈ valid_statuses ->
  (manage_queue tickets queue "add" (Some i) ;;
   update_ticket tickets i "status" (VStr s) ;;
   entry ← list_getitem queue (Z.of_nat (length Q));
   dict_getitem entry "status") st
  = (Ret (VStr s),
     set_dicts <[t := <["status" := VStr s]> d]> (set_lists <[queue := Q ++ [t]]> st)).
Proof.
  intros HT HQ Hroom Hi Ht Hd Hs.
  erewrite bind_ret by by eapply manage_queue_add_ok.
  set (st1 := set_lists <[queue := Q ++ [t]]> st).
  assert (exists T1, lists st1 !! tickets = Some T1 /\ T1 !! Z.to_nat i = Some t)
    as (T1 & HT1 & Ht1).
  { subst st1. simpl. destruct (decide (queue = tickets)) as [->|Hne].
    - exists (Q ++ [t]). rewrite lookup_insert_eq. split; [done|].
      assert (T = Q) as -> by congruence. by apply lookup_app_l_Some.
    - exists T. by rewrite lookup_insert_ne. }
  erewrite bind_ret; last first.
  { eapply (update_ticket_status_ok st1 tickets T1); try done.
    apply py_in_spec. eauto. }
  set (st2 := set_dicts _ st1).
  erewrite bind_ret; last first.
  { eapply (list_getitem_ok st2 queue (Q ++ [t])); [|lia|].
    - subst st2 st1. simpl. apply lookup_insert_eq.
    - rewrite Nat2Z.id. apply lookup_last. }
  eapply dict_getitem_ok.
  - subst st2. simpl. apply lookup_insert_eq.
  - apply lookup_insert_eq.
Qed.


(** ** More on sorting *)

Lemma lex_le_antisym s t : lex_le s t -> lex_le t s -> s = t.
Proof.
  intros Hst. induction Hst as [t|c s c' t Hlt|c s t Hst IH]; intros Hts.
  - by inversion Hts.
  - inversion Hts; subst; lia.
  - inversion Hts; subst; [lia|]. f_equal. by apply IH.
Qed.

Lemma value_le_not_ltb a b : value_le a b -> key_ltb b a = false.
Proof.
  unfold value_le, key_ltb, py_lt.
  destruct a as [|x|n|s], b as [|y|m|t]; simpl; try done;
    try (intros H; apply Z.ltb_ge; lia).
  intros Hle. destruct (String.ltb t s) eqn:Hlt; [|done].
  apply string_ltb_le in Hlt as [Hle' Hne].
  destruct Hne. by apply lex_le_antisym.
Qed.

Lemma stable_sort_sorted_id (l : list (value * nat)) :
  Sorted keys_le l -> stable_sort l = l.
Proof.
  induction 1 as [|x l Hsorted IH Hhd]; [done|].
  simpl. rewrite IH. destruct Hhd as [|y l' Hxy]; [done|].
  simpl. by rewrite (value_le_not_ltb _ _ Hxy).
Qed.

Lemma Sorted_keyed g (L : list nat) :
  Sorted (fun t u => value_le (g t) (g u)) L -> Sorted keys_le (keyed g <$> L).
Proof.
  induction 1 as [|t L Hsorted IH Hhd]; [constructor|].
  rewrite fmap_cons. constructor; [done|].
  destruct Hhd; [constructor|]. rewrite fmap_cons. by constructor.
Qed.

Lemma sorted_by_sorted_id g (L : list nat) :
  Sorted (fun t u => value_le (g t) (g u)) L -> sorted_by g L = L.
Proof.
  intros Hsorted. unfold sorted_by.
  rewrite zip_keyed, stable_sort_sorted_id by by apply Sorted_keyed.
  apply keyed_snd.
Qed.

Lemma field_le_key_of_le st k t u :
  field_le st k t u -> value_le (key_of st k t) (key_of st k u).
Proof.
  unfold key_of, field_le.
  by destruct (field_of st k t) as [a|], (field_of st k u) as [b|].
Qed.

Lemma sort_tickets_records st tickets L k :
  lists st !! tickets = Some L -> all_tickets st ticket_record L ->
  k ∈ valid_keys ->
  returns_new_list (sort_tickets tickets k st) st (sorted_by (key_of st k) L).
Proof.
  intros HL Hall Hk. apply sort_tickets_run; try done.
  - intros t Ht. by eapply record_key_field.
  - by eapply record_keys_sortable.
Qed.

(** X15.  Sorting what is sorted changes no order.  On ticket records and
    a valid key, [sort_tickets] of a list that is already in ascending order
    of the field returns a new list with the same contents in the same
    order; in particular, sorting the result of a sort by the same key
    returns the same sequence again. *)
Theorem sort_tickets_idempotent (st : store) (tickets : nat) (L : list nat)
    (k : string) :
  lists st !! tickets = Some L ->
  all_tickets st ticket_record L ->
  k ∈ valid_keys ->
  (Sorted (field_le st k) L -> returns_new_list (sort_tickets tickets k st) st L)
  /\ exists r st1 L1,
       sort_tickets tickets k st = (Ret r, st1)
       /\ lists st1 !! r = Some L1
       /\ returns_new_list (sort_tickets r k st1) st1 L1.
Proof.
  intros HL Hall Hk.
  pose proof (sort_tickets_records st tickets L k HL Hall Hk) as Hrun.
  split.
  - intros Hsorted. rewrite sorted_by_sorted_id in Hrun; [done|].
    eapply Sorted_mono; [|done]. intros t u. apply field_le_key_of_le.
  - destruct Hrun as (r & Hrun & Hr).
    exists r, (set_lists <[r := sorted_by (key_of st k) L]> st),
      (sorted_by (key_of st k) L).
    split; [done|]. split; [simpl; apply lookup_insert_eq|].
    set (L1 := sorted_by (key_of st k) L).
    set (st1 := set_lists <[r := L1]> st).
    assert (all_tickets st1 ticket_record L1) as Hall1.
    { apply Forall_forall. intros t Ht. subst L1. rewrite sorted_by_perm in Ht.
      by eapply all_tickets_elem. }
    pose proof (sort_tickets_records st1 r L1 k) as Hrun1.
    rewrite sorted_by_sorted_id in Hrun1.
    + apply Hrun1; try done. subst st1. simpl. apply lookup_insert_eq.
    + subst L1. apply sorted_by_sorted.
      intros t u Ht Hu. by eapply (record_keys_same_kind st L).
Qed.

Lemma mapM_raise {A B} st (f : A -> M B) L1 x L2 e :
  (forall y, y ∈ L1 -> exists b, f y st = (Ret b, st)) ->
  f x st = (Raise e, st) ->
  mapM f (L1 ++ x :: L2) st = (Raise e, st).
Proof.
  intros Hok Hx. induction L1 as [|y L1 IH]; simpl.
  - by erewrite bind_raise.
  - destruct (Hok y) as [b Hb]; [left|].
    erewrite bind_ret by done.
    erewrite bind_raise; [done|]. apply IH. intros z Hz. apply Hok. by right.
Qed.

(** X16.  [sort_tickets] with a valid key on a list in which some ticket
    lacks that field raises [KeyError] for the field (met at the first such
    ticket); the list that was passed keeps its contents and no ticket
    changes. *)
Theorem sort_tickets_missing_key (st : store) (tickets : nat) (L1 L2 : list nat)
    (t : nat) (d : dict) (k : string) :
  lists st !! tickets = Some (L1 ++ t :: L2) ->
  k ∈ valid_keys ->
  (forall u, u ∈ L1 -> is_Some (field_of st k u)) ->
  dicts st !! t = Some d ->
  d !! k = None ->
  (sort_tickets tickets k st).1 = Raise (KeyError k)
  /\ lists (sort_tickets tickets k st).2 !! tickets = Some (L1 ++ t :: L2)
  /\ dicts (sort_tickets tickets k st).2 = dicts st.
Proof.
  intros HL Hk Hfield Hd Hmiss.
  destruct (list_new_fresh st (L1 ++ t :: L2)) as (r & Hnew & Hr).
  assert (sort_tickets tickets k st
          = (Raise (KeyError k), set_lists <[r := L1 ++ t :: L2]> st)) as ->.
  { unfold sort_tickets, str_in.
    rewrite bool_decide_eq_true_2 by done. cbn [negb].
    erewrite bind_ret; last first.
    { unfold list_copy. by erewrite bind_ret by by apply read_list_ok. }
    erewrite bind_raise; [done|]. unfold list_sort.
    erewrite bind_ret by (apply read_list_ok; simpl; apply lookup_insert_eq).
    erewrite bind_raise; [done|]. apply mapM_raise.
    - intros u Hu. eexists. by apply (key_of_run (set_lists <[r:=_]> st)), Hfield.
    - by eapply dict_getitem_missing. }
  split; [done|]. split; [|done]. simpl.
  rewrite lookup_insert_ne; [done|]. congruence.
Qed.

(** X14.  [add_ticket] does not check the id.  A valid ticket whose id is
    not a string is accepted, and once it stands in a list beside a ticket
    record, [sort_tickets] by "id" raises [TypeError] there: the keys
    cannot be compared. *)
Theorem add_ticket_unchecked_id (st : store) (tickets ticket : nat) (L : list nat)
    (d : dict) (v : value) :
  lists st !! tickets = Some L ->
  all_tickets st ticket_record L ->
  L <> [] ->
  dicts st !! ticket = Some d ->
  valid_ticket d ->
  d !! "id" = Some v ->
  str_value v = None ->
  add_ticket tickets ticket st
    = (Ret tickets, set_lists <[tickets := L ++ [ticket]]> st)
  /\ ((add_ticket tickets ticket ;; sort_tickets tickets "id") st).1 = Raise TypeError.
Proof.
  intros HL Hall Hne Hd Hvalid Hid Hv.
  assert (add_ticket tickets ticket st
          = (Ret tickets, set_lists <[tickets := L ++ [ticket]]> st)) as Hadd.
  { rewrite (add_ticket_checks st tickets ticket d Hd).
    apply ticket_error_valid in Hvalid. rewrite Hvalid.
    by erewrite bind_ret by by apply list_append_ok. }
  split; [done|]. erewrite bind_ret by done.
  set (st1 := set_lists <[tickets := L ++ [ticket]]> st).
  destruct (list_new_fresh st1 (L ++ [ticket])) as (r & Hnew & Hr).
  unfold sort_tickets, str_in.
  rewrite bool_decide_eq_true_2 by repeat constructor. cbn [negb].
  erewrite bind_ret; last first.
  { unfold list_copy. erewrite bind_ret; [done|].
    apply read_list_ok. subst st1. simpl. apply lookup_insert_eq. }
  erewrite bind_raise; [done|]. unfold list_sort.
  erewrite bind_ret by (apply read_list_ok; simpl; apply lookup_insert_eq).
  erewrite bind_ret; last first.
  { apply (mapM_pure _ _ (key_of st "id")). intros t Ht.
    apply (key_of_run (set_lists <[r:=_]> st1)).
    apply elem_of_app in Ht as [Ht|Ht%list_elem_of_singleton].
    - destruct (record_field_of st L t "id" Hall Ht) as [s Hs];
        [repeat constructor|done|]. eauto.
    - subst t. unfold field_of. simpl. rewrite Hd. simpl. eauto. }
  assert (sortable (key_of st "id" <$> L ++ [ticket]) = false) as ->; [|done].
  destruct L as [|t L]; [done|].
  destruct (record_field_of st (t :: L) t "id" Hall) as [s Hs];
    [left|repeat constructor|done|].
  unfold sortable. rewrite fmap_app, !forallb_app. simpl.
  assert (key_of st "id" t = VStr s) as -> by (unfold key_of; by rewrite Hs).
  assert (key_of st "id" ticket = v) as ->.
  { unfold key_of, field_of. rewrite Hd. simpl. by rewrite Hid. }
  rewrite length_app. simpl.
  rewrite bool_decide_eq_false_2 by lia. simpl.
  rewrite Hv, (bool_decide_eq_false_2 (is_Some None)) by (by intros [? ?]).
  simpl. apply andb_false_r.
Qed.


(** ** Composition with [combine_queues] *)

(** X17.  Filtering distributes over combining.  For two lists of ticket
    records, [filter_tickets] by "type" or "status" on the result of
    [combine_queues] returns the matches of the first list followed by the
    matches of the second, and [get_priority_tickets] on it returns the
    tickets of that priority of the first list followed by those of the
    second. *)
Theorem filter_after_combine (st : store) (a b : nat) (A B : list nat) :
  lists st !! a = Some A ->
  lists st !! b = Some B ->
  all_tickets st ticket_record A ->
  all_tickets st ticket_record B ->
  exists c st1,
    combine_queues a b st = (Ret c, st1)
    /\ lists st1 !! c = Some (A ++ B)
    /\ (forall k v, k = "type" \/ k = "status" ->
          returns_new_list (filter_tickets c k v st1) st1
            (with_field st k v A ++ with_field st k v B))
    /\ (forall n, 1 <= n <= 4 ->
          returns_new_list (get_priority_tickets c (VInt n) st1) st1
            (with_priority st n A ++ with_priority st n B)).
Proof.
  intros HA HB HallA HallB.
  destruct (list_new_fresh st (A ++ B)) as (c & Hnew & Hc).
  exists c, (set_lists <[c := A ++ B]> st).
  assert (lists (set_lists <[c := A ++ B]> st) !! c = Some (A ++ B)) as Hc'
    by (simpl; apply lookup_insert_eq).
  assert (all_tickets (set_lists <[c := A ++ B]> st) ticket_record (A ++ B)) as Hall
    by by apply all_tickets_app.
  split; [|split; [done|split]].
  - unfold combine_queues, list_concat.
    erewrite bind_ret by by apply read_list_ok.
    by erewrite bind_ret by by apply read_list_ok.
  - intros k v Hk.
    pose proof (filter_tickets_field _ c (A ++ B) k v Hc' Hall Hk) as Hrun.
    unfold with_field in *. by rewrite filter_app in Hrun.
  - intros n Hn.
    pose proof (get_priority_tickets_ok _ c (A ++ B) (VInt n) n Hc' Hall eq_refl Hn)
      as Hrun.
    unfold with_priority in *. by rewrite filter_app in Hrun.
Qed.

(** ** More on [get_formatted_ticket] *)

Lemma norm_index_none (len i : Z) :
  i < - len \/ i >= len -> norm_index len i = None.
Proof.
  intros H. unfold norm_index. destruct (Z.ltb_spec i 0).
  - destruct (Z.leb_spec 0 (i + len)); [lia|done].
  - destruct (Z.leb_spec 0 i), (Z.ltb_spec i len); simpl; (done || lia).
Qed.

Section formatting.
Context (st : store) (t : nat) (d : dict).
Hypothesis Hd : dicts st !! t = Some d.

Lemma get_formatted_ticket_run id title type p n label status :
  d !! "id" = Some id -> d !! "title" = Some title -> d !! "type" = Some type ->
  d !! "priority" = Some p -> int_value p = Some n ->
  seq_getitem priority_indicators (n - 1) = inr label ->
  d !! "status" = Some (VStr status) ->
  get_formatted_ticket t st = (Ret (ticket_line id title type label p status), st).
Proof.
  intros Hid Htitle Htype Hp Hn Hlabel Hstatus. unfold get_formatted_ticket.
  erewrite bind_ret by by eapply dict_getitem_ok.
  erewrite bind_ret by (unfold py_pred; by rewrite Hn).
  erewrite bind_ret by by rewrite Hlabel.
  erewrite bind_ret by by eapply dict_getitem_ok.
  erewrite bind_ret by done.
  erewrite bind_ret by by eapply dict_getitem_ok.
  erewrite bind_ret by by eapply dict_getitem_ok.
  erewrite bind_ret by by eapply dict_getitem_ok.
  by erewrite bind_ret by by eapply dict_getitem_ok.
Qed.

Lemma get_formatted_ticket_no_priority :
  d !! "priority" = None ->
  get_formatted_ticket t st = (Raise (KeyError "priority"), st).
Proof.
  intros Hp. unfold get_formatted_ticket.
  erewrite bind_raise; [done|]. by eapply dict_getitem_missing.
Qed.

Lemma get_formatted_ticket_priority_type p :
  d !! "priority" = Some p -> int_value p = None ->
  get_formatted_ticket t st = (Raise TypeError, st).
Proof.
  intros Hp Hn. unfold get_formatted_ticket.
  erewrite bind_ret by by eapply dict_getitem_ok.
  erewrite bind_raise; [done|]. unfold py_pred. by rewrite Hn.
Qed.

Lemma get_formatted_ticket_index p n :
  d !! "priority" = Some p -> int_value p = Some n -> n < -3 \/ n > 4 ->
  get_formatted_ticket t st = (Raise (IndexError "list index out of range"), st).
Proof.
  intros Hp Hn Hrange. unfold get_formatted_ticket.
  erewrite bind_ret by by eapply dict_getitem_ok.
  erewrite bind_ret by (unfold py_pred; by rewrite Hn).
  erewrite bind_raise; [done|]. unfold seq_getitem.
  by rewrite norm_index_none by (simpl; lia).
Qed.

Lemma get_formatted_ticket_no_status p n label :
  d !! "priority" = Some p -> int_value p = Some n ->
  seq_getitem priority_indicators (n - 1) = inr label ->
  d !! "status" = None ->
  get_formatted_ticket t st = (Raise (KeyError "status"), st).
Proof.
  intros Hp Hn Hlabel Hstatus. unfold get_formatted_ticket.
  erewrite bind_ret by by eapply dict_getitem_ok.
  erewrite bind_ret by (unfold py_pred; by rewrite Hn).
  erewrite bind_ret by by rewrite Hlabel.
  erewrite bind_raise; [done|]. by eapply dict_getitem_missing.
Qed.

Lemma get_formatted_ticket_status_type p n label v :
  d !! "priority" = Some p -> int_value p = Some n ->
  seq_getitem priority_indicators (n - 1) = inr label ->
  d !! "status" = Some v -> str_value v = None ->
  get_formatted_ticket t st = (Raise AttributeError, st).
Proof.
  intros Hp Hn Hlabel Hstatus Hv. unfold get_formatted_ticket.
  erewrite bind_ret by by eapply dict_getitem_ok.
  erewrite bind_ret by (unfold py_pred; by rewrite Hn).
  erewrite bind_ret by by rewrite Hlabel.
  erewrite bind_ret by by eapply dict_getitem_ok.
  erewrite bind_raise; [done|]. by destruct v.
Qed.
End formatting.

Lemma label_in_range n :
  1 <= n <= 4 -> seq_getitem priority_indicators (n - 1) = inr (priority_label n).
Proof.
  intros Hn.
  assert (n = 1 \/ n = 2 \/ n = 3 \/ n = 4) as [->|[->|[->| ->]]] by lia;
    reflexivity.
Qed.

Lemma label_wrapped n :
  -3 <= n <= 0 ->
  seq_getitem priority_indicators (n - 1) = inr (priority_label (n + 4)).
Proof.
  intros Hn.
  assert (n = -3 \/ n = -2 \/ n = -1 \/ n = 0) as [->|[->|[->| ->]]] by lia;
    reflexivity.
Qed.

(** X18.  On a ticket record, [get_formatted_ticket] never fails: it
    returns the line "id | title | type | Priority: LABEL (priority) |
    Status: STATUS", where the label is CRITICAL, HIGH, MEDIUM or LOW for
    priority 1, 2, 3 or 4 and the status is upper-cased, and it leaves the
    store as it was. *)
Theorem get_formatted_ticket_record (st : store) (t : nat) (d : dict) :
  dicts st !! t = Some d ->
  ticket_record d ->
  exists id title type p n status,
    d !! "id" = Some (VStr id) /\ d !! "title" = Some (VStr title)
    /\ d !! "type" = Some (VStr type) /\ d !! "priority" = Some p
    /\ int_value p = Some n /\ 1 <= n <= 4 /\ d !! "status" = Some (VStr status)
    /\ get_formatted_ticket t st
       = (Ret (id +:+ " | " +:+ title +:+ " | " +:+ type +:+ " | Priority: "
               +:+ priority_label n +:+ " (" +:+ py_str p +:+ ") | Status: "
               +:+ upper status), st).
Proof.
  intros Hd ((_ & (ty & _ & Hty) & (p & n & Hp & Hn & Hrange) & (s & _ & Hs))
             & [id Hid] & [title Htitle]).
  exists id, title, ty, p, n, s. repeat split; try (done || lia).
  by apply (get_formatted_ticket_run st t d Hd (VStr id) (VStr title) (VStr ty)
              p n (priority_label n) s); [..|apply label_in_range|].
Qed.

(** X19.  For a ticket with an integer priority [n], a string status and
    the other three fields present, [get_formatted_ticket] returns exactly
    when [n] lies between -3 and 4.  A priority from -3 to 0 is rendered
    with the label that the negative index selects from the end of the label
    list (0 as LOW, -1 as MEDIUM, -2 as HIGH, -3 as CRITICAL); a priority
    below -3 or above 4 raises [IndexError]. *)
Theorem get_formatted_ticket_priority_range (st : store) (t : nat) (d : dict)
    (id title type : value) (n : Z) (status : string) :
  dicts st !! t = Some d ->
  d !! "id" = Some id ->
  d !! "title" = Some title ->
  d !! "type" = Some type ->
  d !! "priority" = Some (VInt n) ->
  d !! "status" = Some (VStr status) ->
  (1 <= n <= 4 ->
     get_formatted_ticket t st
     = (Ret (ticket_line id title type (priority_label n) (VInt n) status), st))
  /\ (-3 <= n <= 0 ->
        get_formatted_ticket t st
        = (Ret (ticket_line id title type (priority_label (n + 4)) (VInt n) status),
           st))
  /\ (n < -3 \/ n > 4 ->
        get_formatted_ticket t st
        = (Raise (IndexError "list index out of range"), st)).
Proof.
  intros Hd Hid Htitle Htype Hp Hstatus. split; [|split].
  - intros Hn. eapply get_formatted_ticket_run; try done. by apply label_in_range.
  - intros Hn. eapply get_formatted_ticket_run; try done. by apply label_wrapped.
  - intros Hn. by eapply get_formatted_ticket_index.
Qed.

(** X20.  How [get_formatted_ticket] fails on a dict that is no ticket
    record, in the order in which it reads the fields: without a priority it
    raises [KeyError] "priority"; with a priority that is no integer (a
    string, [None]) it raises [TypeError]; with a printable priority but no
    status it raises [KeyError] "status", and with a status that is not a
    string it raises [AttributeError].  The store is left as it was. *)
Theorem get_formatted_ticket_failures (st : store) (t : nat) (d : dict) :
  dicts st !! t = Some d ->
  (d !! "priority" = None ->
     get_formatted_ticket t st = (Raise (KeyError "priority"), st))
  /\ (forall p, d !! "priority" = Some p -> int_value p = None ->
        get_formatted_ticket t st = (Raise TypeError, st))
  /\ (forall p n, d !! "priority" = Some p -> int_value p = Some n ->
        -3 <= n <= 4 -> d !! "status" = None ->
        get_formatted_ticket t st = (Raise (KeyError "status"), st))
  /\ (forall p n v, d !! "priority" = Some p -> int_value p = Some n ->
        -3 <= n <= 4 -> d !! "status" = Some v -> str_value v = None ->
        get_formatted_ticket t st = (Raise AttributeError, st)).
Proof.
  intros Hd.
  assert (forall n, -3 <= n <= 4 ->
            exists label, seq_getitem priority_indicators (n - 1) = inr label)
    as Hlabel.
  { intros n Hn. destruct (decide (1 <= n)).
    - eexists. apply label_in_range. lia.
    - eexists. apply label_wrapped. lia. }
  split; [|split; [|split]].
  - by apply get_formatted_ticket_no_priority.
  - intros p. by apply get_formatted_ticket_priority_type.
  - intros p n Hp Hn Hrange Hstatus. destruct (Hlabel n Hrange) as [label Hl].
    by eapply get_formatted_ticket_no_status.
  - intros p n v Hp Hn Hrange Hstatus Hv. destruct (Hlabel n Hrange) as [label Hl].
    by eapply get_formatted_ticket_status_type.
Qed.


(** ** [initialize_data] on any store *)

Lemma dict_new_fresh st d :
  exists t, dict_new d st = (Ret t, set_dicts <[t := d]> st) /\ dicts st !! t = None.
Proof.
  exists (fresh (dom (dicts st))). split; [done|].
  apply not_elem_of_dom, is_fresh.
Qed.

(** X21.  [initialize_data] makes new objects whatever the store already
    holds: it returns three different new lists, the ticket list with five
    new tickets, the escalated list with two and an empty queue; the seven
    tickets are different objects and are ticket records with the ids T001
    to T005, E001 and E002; and every list and ticket that existed before
    the call is unchanged. *)
Theorem initialize_data_fresh (st : store) :
  exists tickets escalated queue T E st',
    initialize_data st = (Ret (tickets, escalated, queue), st')
    /\ lists st' !! tickets = Some T
    /\ lists st' !! escalated = Some E
    /\ lists st' !! queue = Some []
    /\ length T = 5%nat /\ length E = 2%nat
    /\ NoDup (T ++ E)
    /\ NoDup [tickets; escalated; queue]
    /\ (forall l, l ∈ [tickets; escalated; queue] -> lists st !! l = None)
    /\ (forall t, t ∈ T ++ E -> dicts st !! t = None)
    /\ all_tickets st' ticket_record (T ++ E)
    /\ (fun t => field_of st' "id" t) <$> (T ++ E)
       = [Some (VStr "T001"); Some (VStr "T002"); Some (VStr "T003");
          Some (VStr "T004"); Some (VStr "T005"); Some (VStr "E001");
          Some (VStr "E002")]
    /\ dicts st ⊆ dicts st' /\ lists st ⊆ lists st'.
Proof.
  unfold initialize_data.
  destruct (dict_new_fresh st
              (ticket_dict "T001" "Payment not processing" "billing" 2 "open"))
    as (t1 & R1 & F1).
  erewrite bind_ret by exact R1. set (s1 := set_dicts _ st) in *.
  destruct (dict_new_fresh s1 (ticket_dict "T002" "Reset password" "account" 3 "new"))
    as (t2 & R2 & F2).
  erewrite bind_ret by exact R2. set (s2 := set_dicts _ s1) in *.
  destruct (dict_new_fresh s2
              (ticket_dict "T003" "Application crashes" "technical" 1 "open"))
    as (t3 & R3 & F3).
  erewrite bind_ret by exact R3. set (s3 := set_dicts _ s2) in *.
  destruct (dict_new_fresh s3 (ticket_dict "T004" "Add dark mode" "feature" 4 "new"))
    as (t4 & R4 & F4).
  erewrite bind_ret by exact R4. set (s4 := set_dicts _ s3) in *.
  destruct (dict_new_fresh s4 (ticket_dict "T005" "Renewal failed" "billing" 2 "open"))
    as (t5 & R5 & F5).
  erewrite bind_ret by exact R5. set (s5 := set_dicts _ s4) in *.
  destruct (list_new_fresh s5 [t1; t2; t3; t4; t5]) as (l1 & R6 & F6).
  erewrite bind_ret by exact R6. set (s6 := set_lists _ s5) in *.
  destruct (dict_new_fresh s6
              (ticket_dict "E001" "Security breach" "technical" 1 "new"))
    as (e1 & R7 & F7).
  erewrite bind_ret by exact R7. set (s7 := set_dicts _ s6) in *.
  destruct (dict_new_fresh s7 (ticket_dict "E002" "Double-charged" "billing" 1 "new"))
    as (e2 & R8 & F8).
  erewrite bind_ret by exact R8. set (s8 := set_dicts _ s7) in *.
  destruct (list_new_fresh s8 [e1; e2]) as (l2 & R9 & F9).
  erewrite bind_ret by exact R9. set (s9 := set_lists _ s8) in *.
  destruct (list_new_fresh s9 []) as (l3 & R10 & F10).
  erewrite bind_ret by exact R10. set (s10 := set_lists _ s9) in *.
  clear R1 R2 R3 R4 R5 R6 R7 R8 R9 R10.
  subst s10 s9 s8 s7 s6 s5 s4 s3 s2 s1. simpl in *.
  rewrite !lookup_insert_None in *. destruct_and!.
  exists l1, l2, l3, [t1; t2; t3; t4; t5], [e1; e2]. eexists.
  split; [reflexivity|]. simpl.
  split; [by simplify_map_eq|]. split; [by simplify_map_eq|].
  split; [by simplify_map_eq|]. split; [done|]. split; [done|].
  split.
  { repeat (apply NoDup_cons; split;
              [intros Hin;
               repeat (apply elem_of_cons in Hin as [?|Hin]; [congruence|]);
               by apply elem_of_nil in Hin|]).
    apply NoDup_nil_2. }
  split.
  { repeat (apply NoDup_cons; split;
              [intros Hin;
               repeat (apply elem_of_cons in Hin as [?|Hin]; [congruence|]);
               by apply elem_of_nil in Hin|]).
    apply NoDup_nil_2. }
  split.
  { intros l Hl. repeat (apply elem_of_cons in Hl as [->|Hl]; [tauto|]).
    by apply elem_of_nil in Hl. }
  split.
  { intros t Ht. repeat (apply elem_of_cons in Ht as [->|Ht]; [tauto|]).
    by apply elem_of_nil in Ht. }
  split.
  { repeat apply Forall_cons_2; [..|apply Forall_nil_2];
      (eexists; split; [by simplify_map_eq|]);
      (apply ticket_dict_record; [repeat constructor|lia|repeat constructor]). }
  split.
  { unfold field_of. simpl. by simplify_map_eq. }
  split.
  - repeat (etrans; [|apply insert_subseteq; by simplify_map_eq]). done.
  - repeat (etrans; [|apply insert_subseteq; by simplify_map_eq]). done.
Qed.


(** ** The console *)

Section wp_rules.
Context {A B : Type}.
Implicit Types (Q : A -> world -> Prop) (E : exn -> world -> Prop) (F : world -> Prop).

Lemma wp_ret (a : A) Q E F w : Q a w -> wp (mret a) Q E F w.
Proof. done. Qed.

Lemma wp_bind (m : IO A) (f : A -> IO B) (R : B -> world -> Prop) E F w :
  wp m (fun a w' => wp (f a) R E F w') E F w -> wp (m ≫= f) R E F w.
Proof.
  unfold wp, mbind, IO_bind. by destruct (m w) as [[a|e| | |] w'].
Qed.

Lemma wp_mono (m : IO A) Q Q' E E' F F' w :
  wp m Q E F w ->
  (forall a w', Q a w' -> Q' a w') ->
  (forall e w', E e w' -> E' e w') ->
  (forall w', F w' -> F' w') ->
  wp m Q' E' F' w.
Proof.
  unfold wp. destruct (m w) as [[a|e| | |] w']; eauto.
Qed.

Lemma wp_run (m : M A) Q E F w :
  mwp m (fun a st' => Q a (set_store st' w)) (fun e st' => E e (set_store st' w))
    (w_store w) ->
  wp (run m) Q E F w.
Proof.
  unfold wp, mwp, run. by destruct (m (w_store w)) as [[a|e|] st'].
Qed.

Lemma wp_try (body : IO A) catch (handler : string -> IO A) Q E F w :
  wp body Q
    (fun e w' =>
       match catch e with
       | Some msg => wp (handler msg) Q E F w'
       | None => E e w'
       end) F w ->
  wp (io_try body catch handler) Q E F w.
Proof.
  unfold wp, io_try. destruct (body w) as [[a|e| | |] w']; try done.
  by destruct (catch e).
Qed.
End wp_rules.

Lemma wp_print s (Q : unit -> world -> Prop) E F w :
  Q tt (write (Printed s) w) -> wp (io_print s) Q E F w.
Proof. done. Qed.

Lemma wp_input prompt (Q : string -> world -> Prop) E F w :
  match w_input w with
  | line :: rest =>
      Q line {| w_store := w_store w; w_input := rest;
                w_output := w_output w ++ [Prompted prompt] |}
  | [] => F (write (Prompted prompt) w)
  end ->
  wp (io_input prompt) Q E F w.
Proof. unfold wp, io_input. by destruct (w_input w). Qed.

Lemma wp_int s (Q : Z -> world -> Prop) (E : exn -> world -> Prop) F w :
  (forall n, int_of_string s = Some n -> Q n w) ->
  (int_of_string s = None -> forall msg, E (ValueError msg) w) ->
  wp (io_int s) Q E F w.
Proof.
  intros HQ HE. unfold wp, io_int, run, lift, py_int.
  destruct w as [st ins outs]. simpl.
  destruct (int_of_string s) as [n|]; simpl; [by apply HQ|by apply HE].
Qed.

Lemma wp_for_each {A} (l : list A) (body : A -> IO unit) (I : world -> Prop) E F w :
  (forall x w', x ∈ l -> I w' -> wp (body x) (fun _ w'' => I w'') E F w') ->
  I w -> wp (io_for_each l body) (fun _ w' => I w') E F w.
Proof.
  revert w. induction l as [|x l IH]; intros w Hbody HI; [done|].
  cbn [io_for_each]. apply wp_bind.
  eapply wp_mono; [apply Hbody; [left|done]| |done..].
  intros [] w' HI'. apply IH; [|done].
  intros y w'' Hy. apply Hbody. by right.
Qed.

(** What a loop writes whose body prints one line and changes nothing. *)
Lemma io_for_each_prints {A} (l : list A) (body : A -> IO unit) (line : A -> string)
    st w :
  (forall x w', x ∈ l -> w_store w' = st ->
     body x w' = (IORet tt, write (Printed (line x)) w')) ->
  w_store w = st ->
  io_for_each l body w
  = (IORet tt,
     {| w_store := w_store w; w_input := w_input w;
        w_output := w_output w ++ (Printed <$> (line <$> l)) |}).
Proof.
  revert w. induction l as [|x l IH]; intros w Hbody Hst.
  - simpl. rewrite app_nil_r. by destruct w.
  - cbn [io_for_each]. unfold mbind, IO_bind. rewrite Hbody by (done || left).
    rewrite IH by (done || intros; apply Hbody; (done || by right)).
    simpl. by rewrite <- app_assoc.
Qed.

Lemma run_ret {A} (m : M A) a w :
  m (w_store w) = (Ret a, w_store w) -> run m w = (IORet a, w).
Proof. intros Hm. unfold run. rewrite Hm. by destruct w. Qed.

Lemma io_bind_ret {A B} (m : IO A) (f : A -> IO B) w a w' :
  m w = (IORet a, w') -> (m ≫= f) w = f a w'.
Proof. intros Hm. unfold mbind, IO_bind. by rewrite Hm. Qed.

Lemma formatted_record st t d :
  dicts st !! t = Some d -> ticket_record d ->
  exists line, get_formatted_ticket t st = (Ret line, st).
Proof.
  intros Hd ((_ & (ty & _ & Hty) & (p & n & Hp & Hn & Hrange) & (s & _ & Hs))
             & [id Hid] & [title Htitle]).
  eexists.
  by apply (get_formatted_ticket_run st t d Hd (VStr id) (VStr title) (VStr ty)
              p n (priority_label n) s); [..|apply label_in_range|].
Qed.

Lemma formatted_line_run st t line w :
  get_formatted_ticket t st = (Ret line, st) -> w_store w = st ->
  (run (get_formatted_ticket t) ≫= fun line => io_print line) w
  = (IORet tt, write (Printed (default "" (formatted st t))) w).
Proof.
  intros Hrun Hst. subst st. erewrite io_bind_ret by by apply run_ret.
  unfold formatted. by rewrite Hrun.
Qed.

Lemma display_data_run w data L data_type :
  lists (w_store w) !! data = Some L ->
  all_tickets (w_store w) ticket_record L ->
  display_data data data_type w
  = (IORet tt,
     {| w_store := w_store w; w_input := w_input w;
        w_output :=
          w_output w ++
          (if bool_decide (L = []) then [Printed "No tickets to display."]
           else header_of data_type
                ++ (Printed <$> ((fun t => default "" (formatted (w_store w) t)) <$> L))) |}).
Proof.
  intros HL Hall. unfold display_data.
  erewrite io_bind_ret by (apply run_ret; by apply read_list_ok).
  case_bool_decide as Hempty; [done|].
  assert (forall w0, w_store w0 = w_store w ->
            io_for_each L (fun ticket =>
              line ← run (get_formatted_ticket ticket); io_print line) w0
            = (IORet tt,
               {| w_store := w_store w0; w_input := w_input w0;
                  w_output := w_output w0 ++
                    (Printed <$> ((fun t => default "" (formatted (w_store w) t)) <$> L)) |}))
    as Hloop.
  { intros w0 Hw0. apply (io_for_each_prints L _ _ (w_store w)); [|done].
    intros t w' Ht Hw'.
    destruct (all_tickets_elem _ _ _ _ Hall Ht) as (d & Hd & Hrec).
    destruct (formatted_record _ _ _ Hd Hrec) as [line Hline].
    by apply (formatted_line_run _ _ line). }
  unfold header_of.
  repeat case_bool_decide;
    (erewrite io_bind_ret by done); rewrite Hloop by done; simpl;
    by rewrite <- ?app_assoc, ?app_nil_r.
Qed.


(** X22.  [display_data] only prints.  For a list of ticket records it
    returns with the store and the input untouched; for an empty list it
    prints the single line "No tickets to display."; otherwise it prints
    the header of the kind of data (none for an unknown kind) and then, in
    order, for each ticket the line that [get_formatted_ticket] returns for
    it. *)
Theorem display_data_spec (w : world) (data : nat) (L : list nat) (data_type : string) :
  lists (w_store w) !! data = Some L ->
  all_tickets (w_store w) ticket_record L ->
  exists printed,
    display_data data data_type w
    = (IORet tt,
       {| w_store := w_store w; w_input := w_input w;
          w_output := w_output w ++ printed |})
    /\ (L = [] -> printed = [Printed "No tickets to display."])
    /\ (L <> [] ->
        exists lines,
          printed = header_of data_type ++ (Printed <$> lines)
          /\ Forall2 (fun t line =>
                        get_formatted_ticket t (w_store w) = (Ret line, w_store w))
               L lines).
Proof.
  intros HL Hall. eexists. split; [by apply display_data_run|].
  split; intros Hempty.
  - by rewrite bool_decide_eq_true_2.
  - rewrite bool_decide_eq_false_2 by done. eexists. split; [done|].
    apply Forall2_fmap_r, Forall2_same_length_lookup_2; [done|].
    intros i t t' Ht Ht'. assert (t' = t) as -> by congruence.
    destruct (all_tickets_lookup _ _ _ _ _ Hall Ht) as (d & Hd & Hrec).
    destruct (formatted_record _ _ _ Hd Hrec) as [line Hline].
    unfold compose, formatted. by rewrite Hline.
Qed.

(** ** Safety of the store operations on ticket records *)

Lemma mwp_mono {A} (m : M A) (Q Q' : A -> store -> Prop) (E E' : exn -> store -> Prop) st :
  mwp m Q E st ->
  (forall a st', Q a st' -> Q' a st') ->
  (forall e st', E e st' -> E' e st') ->
  mwp m Q' E' st.
Proof. unfold mwp. destruct (m st) as [[a|e|] st']; eauto. Qed.

Lemma mwp_ret_eq {A} (m : M A) (Q : A -> store -> Prop) E st a st' :
  m st = (Ret a, st') -> Q a st' -> mwp m Q E st.
Proof. intros Hm HQ. unfold mwp. by rewrite Hm. Qed.

Lemma mwp_raise_eq {A} (m : M A) (Q : A -> store -> Prop) (E : exn -> store -> Prop)
    st e st' :
  m st = (Raise e, st') -> E e st' -> mwp m Q E st.
Proof. intros Hm HE. unfold mwp. by rewrite Hm. Qed.

Lemma grows_refl st : grows st st.
Proof. by intros l. Qed.

Lemma grows_trans st1 st2 st3 : grows st1 st2 -> grows st2 st3 -> grows st1 st3.
Proof. intros H1 H2 l Hl. by apply H2, H1. Qed.

Lemma grows_set_list st l X : grows st (set_lists <[l := X]> st).
Proof.
  intros l' Hl'. simpl. rewrite lookup_insert. by case_decide.
Qed.

Lemma grows_set_dict st f : grows st (set_dicts f st).
Proof. by intros l. Qed.

Lemma is_ValueError_intro msg : is_ValueError (ValueError msg).
Proof. by exists msg. Qed.

Section safe_operations.
Context (st : store).
Hypothesis Hinv : store_inv ticket_record st.

Lemma mwp_add_ticket tickets ticket L d :
  lists st !! tickets = Some L -> dicts st !! ticket = Some d ->
  (valid_ticket d -> ticket_record d) ->
  mwp (add_ticket tickets ticket)
    (fun _ st' => store_inv ticket_record st' /\ grows st st')
    (fun e st' => is_ValueError e /\ st' = st) st.
Proof.
  intros HL Hd Hrec. unfold mwp.
  rewrite (add_ticket_checks st tickets ticket d Hd).
  destruct (ticket_error d) as [msg|] eqn:Herr.
  { split; [apply is_ValueError_intro|done]. }
  apply ticket_error_valid in Herr.
  erewrite bind_ret by by apply list_append_ok.
  split; [|apply grows_set_list].
  apply store_inv_set_list; [done|].
  apply all_tickets_app; [by eapply Hinv|].
  apply Forall_singleton. exists d. auto.
Qed.

Lemma mwp_remove_ticket tickets i L :
  lists st !! tickets = Some L ->
  mwp (remove_ticket tickets i)
    (fun t st' => store_inv ticket_record st' /\ grows st st'
                  /\ exists d, dicts st' !! t = Some d /\ ticket_record d)
    (fun e st' => (exists msg, e = IndexError msg) /\ st' = st) st.
Proof.
  intros HL. unfold mwp, remove_ticket.
  erewrite bind_ret by by apply list_len_ok.
  destruct (decide (0 <= i < Z.of_nat (length L))) as [Hi|Hi].
  2:{ rewrite out_of_range_true by lia. split; [eauto|done]. }
  rewrite out_of_range_false by done.
  destruct (lookup_lt_is_Some_2 L (Z.to_nat i)) as [t Ht]; [lia|].
  erewrite list_pop_ok by (done || lia).
  split; [|split; [apply grows_set_list|]].
  - apply store_inv_set_list; [done|]. apply Forall_delete. by eapply Hinv.
  - eapply all_tickets_lookup; [by apply (Hinv tickets L)|done].
Qed.

Lemma mwp_sort_tickets tickets k L :
  lists st !! tickets = Some L ->
  mwp (sort_tickets tickets k)
    (fun r st' => store_inv ticket_record st' /\ grows st st'
                  /\ is_Some (lists st' !! r))
    (fun e st' => is_ValueError e /\ st' = st) st.
Proof.
  intros HL. unfold mwp.
  assert (all_tickets st ticket_record L) as Hall by by eapply Hinv.
  destruct (decide (k ∈ valid_keys)) as [Hk|Hk].
  - destruct (sort_tickets_records st tickets L k HL Hall Hk) as (r & -> & Hr).
    split; [|split; [apply grows_set_list|]].
    + apply store_inv_set_list; [done|].
      apply Forall_forall. intros t Ht. rewrite sorted_by_perm in Ht.
      by eapply all_tickets_elem.
    + simpl. rewrite lookup_insert_eq. eauto.
  - rewrite sort_tickets_bad_key by done.
    split; [apply is_ValueError_intro|done].
Qed.

Lemma new_list_safe (res : outcome nat * store) X :
  returns_new_list res st X -> all_tickets st ticket_record X ->
  match res with
  | (Ret r, st') => store_inv ticket_record st' /\ grows st st'
                    /\ is_Some (lists st' !! r)
  | _ => False
  end.
Proof.
  intros (r & -> & Hr) HX.
  split; [by apply store_inv_set_list|]. split; [apply grows_set_list|].
  simpl. rewrite lookup_insert_eq. eauto.
Qed.

Lemma mwp_filter_tickets tickets k value L :
  lists st !! tickets = Some L ->
  mwp (filter_tickets tickets k (VStr value))
    (fun r st' => store_inv ticket_record st' /\ grows st st'
                  /\ is_Some (lists st' !! r))
    (fun e st' => is_ValueError e /\ st' = st) st.
Proof.
  intros HL. unfold mwp.
  assert (all_tickets st ticket_record L) as Hall by by eapply Hinv.
  assert (forall P : nat -> Prop, forall HP : forall x, Decision (P x),
            all_tickets st ticket_record (filter P L)) as Hfilter.
  { intros P HP. eapply all_tickets_sublist; [apply sublist_filter|done]. }
  destruct (decide (k ∈ valid_filters)) as [Hk|Hk].
  2:{ rewrite filter_tickets_bad_type by done.
      split; [apply is_ValueError_intro|done]. }
  unfold valid_filters in Hk. rewrite !elem_of_cons, elem_of_nil in Hk.
  destruct Hk as [->|[->|[->|[->|[]]]]].
  - pose proof (filter_tickets_field st tickets L "type" (VStr value) HL Hall
                  (or_introl eq_refl)) as Hrun.
    apply new_list_safe in Hrun; [|apply Hfilter].
    by destruct (filter_tickets _ _ _ _) as [[r|e|] st'].
  - pose proof (filter_tickets_field st tickets L "status" (VStr value) HL Hall
                  (or_intror eq_refl)) as Hrun.
    apply new_list_safe in Hrun; [|apply Hfilter].
    by destruct (filter_tickets _ _ _ _) as [[r|e|] st'].
  - destruct (int_of_string value) as [n|] eqn:Hn.
    + pose proof (filter_tickets_priority_text st tickets L value n HL Hall Hn) as Hrun.
      apply new_list_safe in Hrun; [|apply Hfilter].
      by destruct (filter_tickets _ _ _ _) as [[r|e|] st'].
    + rewrite filter_tickets_priority_bad by done.
      split; [apply is_ValueError_intro|done].
  - pose proof (filter_tickets_keyword st tickets L value HL Hall) as Hrun.
    apply new_list_safe in Hrun; [|apply Hfilter].
    by destruct (filter_tickets _ _ _ _) as [[r|e|] st'].
Qed.

Lemma mwp_get_priority_tickets tickets n L :
  lists st !! tickets = Some L -> 1 <= n <= 4 ->
  mwp (get_priority_tickets tickets (VInt n))
    (fun r st' => store_inv ticket_record st' /\ grows st st'
                  /\ is_Some (lists st' !! r))
    (fun _ _ => False) st.
Proof.
  intros HL Hn. unfold mwp.
  assert (all_tickets st ticket_record L) as Hall by by eapply Hinv.
  pose proof (get_priority_tickets_ok st tickets L (VInt n) n HL Hall eq_refl Hn)
    as Hrun.
  apply new_list_safe in Hrun.
  - by destruct (get_priority_tickets _ _ _) as [[r|e|] st'].
  - eapply all_tickets_sublist; [apply sublist_filter|done].
Qed.

Lemma mwp_combine_queues a b A B :
  lists st !! a = Some A -> lists st !! b = Some B ->
  mwp (combine_queues a b)
    (fun r st' => store_inv ticket_record st' /\ grows st st'
                  /\ is_Some (lists st' !! r))
    (fun _ _ => False) st.
Proof.
  intros HA HB. unfold mwp.
  assert (returns_new_list (combine_queues a b st) st (A ++ B)) as Hrun.
  { unfold combine_queues, list_concat.
    erewrite bind_ret by by apply read_list_ok.
    erewrite bind_ret by by apply read_list_ok.
    apply list_new_returns. }
  apply new_list_safe in Hrun.
  - by destruct (combine_queues _ _ _) as [[r|e|] st'].
  - apply all_tickets_app; by eapply Hinv.
Qed.

Lemma mwp_list_new :
  mwp (list_new [])
    (fun r st' => store_inv ticket_record st' /\ grows st st'
                  /\ is_Some (lists st' !! r))
    (fun _ _ => False) st.
Proof.
  unfold mwp. pose proof (list_new_returns st []) as Hrun.
  apply new_list_safe in Hrun; [|apply Forall_nil_2].
  by destruct (list_new _ _) as [[r|e|] st'].
Qed.

Lemma mwp_manage_queue_add tickets queue i T Q :
  lists st !! tickets = Some T -> lists st !! queue = Some Q ->
  mwp (manage_queue tickets queue "add" (Some i))
    (fun _ st' => store_inv ticket_record st' /\ grows st st')
    (fun e st' => (is_ValueError e \/ exists msg, e = IndexError msg) /\ st' = st) st.
Proof.
  intros HT HQ. unfold mwp.
  destruct (decide (0 <= i < Z.of_nat (length T))) as [Hi|Hi].
  2:{ erewrite (manage_queue_add_range st tickets queue T) by (done || lia).
      split; [right; eauto|done]. }
  destruct (decide (length Q < 5)%nat) as [Hroom|Hfull].
  2:{ erewrite (manage_queue_add_full st tickets queue T Q) by (done || lia).
      split; [left; apply is_ValueError_intro|done]. }
  destruct (lookup_lt_is_Some_2 T (Z.to_nat i)) as [t Ht]; [lia|].
  erewrite (manage_queue_add_ok st tickets queue T Q) by (done || lia).
  split; [|apply grows_set_list].
  apply store_inv_set_list; [done|].
  apply all_tickets_app; [by eapply Hinv|].
  apply Forall_singleton. eapply all_tickets_lookup; [by apply (Hinv tickets T)|done].
Qed.

Lemma mwp_manage_queue_remove tickets queue i Q :
  lists st !! queue = Some Q ->
  mwp (manage_queue tickets queue "remove" (Some i))
    (fun r st' => store_inv ticket_record st' /\ grows st st'
                  /\ exists t d, r = RDict t /\ dicts st' !! t = Some d
                                 /\ ticket_record d)
    (fun e st' => (exists msg, e = IndexError msg) /\ st' = st) st.
Proof.
  intros HQ. unfold mwp.
  destruct (decide (0 <= i < Z.of_nat (length Q))) as [Hi|Hi].
  2:{ erewrite (manage_queue_remove_range st tickets queue Q) by (done || lia).
      split; [eauto|done]. }
  destruct (lookup_lt_is_Some_2 Q (Z.to_nat i)) as [t Ht]; [lia|].
  erewrite (manage_queue_remove_ok st tickets queue Q) by (done || lia).
  split; [|split; [apply grows_set_list|]].
  - apply store_inv_set_list; [done|]. apply Forall_delete. by eapply Hinv.
  - destruct (all_tickets_lookup st ticket_record Q _ t (Hinv _ _ HQ) Ht)
      as (d & Hd & Hrec).
    by exists t, d.
Qed.

Lemma mwp_manage_queue_clear tickets queue Q :
  lists st !! queue = Some Q ->
  mwp (manage_queue tickets queue "clear" None)
    (fun _ st' => store_inv ticket_record st' /\ grows st st')
    (fun _ _ => False) st.
Proof.
  intros HQ. unfold mwp.
  erewrite (manage_queue_clear st tickets queue Q) by done.
  split; [|apply grows_set_list].
  apply store_inv_set_list; [done|]. apply Forall_nil_2.
Qed.

Lemma mwp_update_ticket tickets i field value L :
  lists st !! tickets = Some L ->
  mwp (update_ticket tickets i field (VStr value))
    (fun t st' => store_inv ticket_record st' /\ grows st st'
                  /\ exists d, dicts st' !! t = Some d /\ ticket_record d)
    (fun e st' => (is_ValueError e \/ exists msg, e = IndexError msg) /\ st' = st) st.
Proof.
  intros HL. unfold mwp.
  destruct (decide (0 <= i < Z.of_nat (length L))) as [Hi|Hi].
  2:{ rewrite (update_ticket_bad_index st tickets L) by (done || lia).
      split; [right; eauto|done]. }
  destruct (decide (field ∈ valid_fields)) as [Hfield|Hfield].
  2:{ rewrite (update_ticket_bad_field st tickets L) by done.
      split; [left; apply is_ValueError_intro|done]. }
  destruct (lookup_lt_is_Some_2 L (Z.to_nat i)) as [t Ht]; [lia|].
  destruct (all_tickets_lookup st ticket_record L _ t (Hinv _ _ HL) Ht)
    as (d & Hd & Hrec).
  assert (forall v', valid_update field v' ->
            store_inv ticket_record (set_dicts <[t := <[field := v']> d]> st)
            /\ grows st (set_dicts <[t := <[field := v']> d]> st)
            /\ exists d', dicts (set_dicts <[t := <[field := v']> d]> st) !! t = Some d'
                          /\ ticket_record d') as Hok.
  { intros v' Hv'.
    assert (ticket_record (<[field := v']> d)) as Hrec'
      by by apply valid_update_record.
    split; [by apply store_inv_set_dict|]. split; [apply grows_set_dict|].
    eexists. split; [simpl; apply lookup_insert_eq|done]. }
  apply valid_fields_inv in Hfield as [->|[->| ->]].
  - destruct (py_in (VStr value) valid_statuses) eqn:Hv.
    + rewrite (update_ticket_status_ok st tickets L HL i t d) by (done || lia).
      apply Hok. left. split; [done|]. by apply py_in_spec.
    + rewrite (update_ticket_status_bad st tickets L HL i t) by (done || lia).
      split; [left; apply is_ValueError_intro|done].
  - rewrite (update_ticket_priority_run st tickets L i t d) by (done || lia).
    simpl. destruct (int_of_string value) as [n|].
    + destruct ((n <? 1) || (n >? 4)) eqn:Hn.
      * split; [left; apply is_ValueError_intro|done].
      * apply Hok. right. left. split; [done|]. exists n. split; [lia|done].
    + split; [left; apply is_ValueError_intro|done].
  - destruct (py_in (VStr value) valid_types) eqn:Hv.
    + rewrite (update_ticket_type_ok st tickets L HL i t d) by (done || lia).
      apply Hok. right. right. split; [done|]. by apply py_in_spec.
    + rewrite (update_ticket_type_bad st tickets L HL i t) by (done || lia).
      split; [left; apply is_ValueError_intro|done].
Qed.
End safe_operations.


(** ** Safety of the main loop *)

Lemma all_tickets_dict_new st P t d L :
  dicts st !! t = None -> all_tickets st P L ->
  all_tickets (set_dicts <[t := d]> st) P L.
Proof.
  intros Hfresh Hall. eapply Forall_impl; [exact Hall|].
  intros t' (d' & Hd' & HP). exists d'. split; [|done].
  simpl. rewrite lookup_insert_ne; [done|]. congruence.
Qed.

Lemma store_inv_dict_new st P t d :
  dicts st !! t = None -> store_inv P st -> store_inv P (set_dicts <[t := d]> st).
Proof.
  intros Hfresh Hinv l L HL. apply all_tickets_dict_new; [done|]. by apply (Hinv l).
Qed.

Lemma main_inv_grows t e q st st' :
  main_inv t e q st -> store_inv ticket_record st' -> grows st st' ->
  main_inv t e q st'.
Proof. intros (_ & Ht & He & Hq) Hinv Hgrow. repeat split; auto. Qed.

Lemma main_inv_dict_new t e q st t' d :
  main_inv t e q st -> dicts st !! t' = None ->
  main_inv t e q (set_dicts <[t' := d]> st).
Proof.
  intros Hmain Hfresh. eapply main_inv_grows; [done| |apply grows_set_dict].
  apply store_inv_dict_new; [done|]. apply Hmain.
Qed.

Lemma valid_ticket_dict id title type priority status :
  valid_ticket (ticket_dict id title type priority status) ->
  ticket_record (ticket_dict id title type priority status).
Proof. intros Hvalid. split; [done|]. split; [by exists id|by exists title]. Qed.

Section console_rules.
Context (E : exn -> world -> Prop) (F : world -> Prop)
  (st : store) (ins : list string).

Lemma wp_getitem_record t d k out (R : value -> world -> Prop) :
  dicts st !! t = Some d -> ticket_record d -> k = "id" \/ k = "title" ->
  (forall v, R v (World st ins out)) ->
  wp (run (dict_getitem t k)) R E F (World st ins out).
Proof.
  intros Hd (_ & [id Hid] & [title Htitle]) Hk HR.
  apply wp_run. unfold mwp. cbn [w_store].
  destruct Hk as [->| ->]; erewrite dict_getitem_ok by done; apply HR.
Qed.

Lemma wp_formatted t d out (R : string -> world -> Prop) :
  dicts st !! t = Some d -> ticket_record d ->
  (forall line, R line (World st ins out)) ->
  wp (run (get_formatted_ticket t)) R E F (World st ins out).
Proof.
  intros Hd Hrec HR. destruct (formatted_record st t d Hd Hrec) as [line Hline].
  apply wp_run. unfold mwp. cbn [w_store]. rewrite Hline. apply HR.
Qed.

Lemma wp_read_list l L out (R : list nat -> world -> Prop) :
  lists st !! l = Some L -> R L (World st ins out) ->
  wp (run (read_list l)) R E F (World st ins out).
Proof.
  intros HL HR. apply wp_run. unfold mwp. cbn [w_store].
  by erewrite read_list_ok by done.
Qed.

Lemma wp_display_data data data_type L out (R : unit -> world -> Prop) :
  lists st !! data = Some L -> all_tickets st ticket_record L ->
  (forall out', R tt (World st ins out')) ->
  wp (display_data data data_type) R E F (World st ins out).
Proof.
  intros HL Hall HR. unfold wp.
  rewrite (display_data_run (World st ins out) data L data_type) by done.
  apply HR.
Qed.

Lemma wp_print_indexed l L out (R : unit -> world -> Prop) :
  lists st !! l = Some L -> all_tickets st ticket_record L ->
  (forall out', R tt (World st ins out')) ->
  wp (print_indexed l) R E F (World st ins out).
Proof.
  intros HL Hall HR. unfold print_indexed.
  apply wp_bind, (wp_read_list l L); [done|].
  eapply wp_mono;
    [apply (wp_for_each _ _ (fun w' => w_store w' = st /\ w_input w' = ins))
    | |done..].
  - intros [i t] [st' ins' out'] Hit [Hst Hins]. simpl in Hst, Hins. subst st' ins'.
    apply elem_of_lookup_imap in Hit as (i' & t' & Heq & Ht). injection Heq as -> ->.
    destruct (all_tickets_lookup _ _ _ _ _ Hall Ht) as (d & Hd & Hrec).
    apply wp_bind, (wp_getitem_record t' d); [done|done|by left|]. intros id.
    apply wp_bind, (wp_getitem_record t' d); [done|done|by right|]. intros title.
    by apply wp_print.
  - done.
  - intros [] [st' ins' out'] [Hst Hins]. simpl in Hst, Hins. subst st' ins'.
    apply HR.
Qed.
End console_rules.


Ltac wp_norm := unfold write, set_store; cbn [w_store w_input w_output].

Ltac wp_say := apply wp_bind, wp_print; wp_norm.

Tactic Notation "wp_ask" ident(line) :=
  lazymatch goal with
  | |- wp _ _ _ _ (World _ ?i _) => destruct i as [|line ?]
  end; [by apply wp_bind, wp_input|apply wp_bind, wp_input; wp_norm].

Ltac wp_bad_number H :=
  intros msg; split; [apply is_ValueError_intro|];
  match type of H with
  | int_of_string ?s = None => exists s; split; [repeat constructor|exact H]
  end.

Tactic Notation "wp_num" ident(n) ident(H) :=
  apply wp_bind, wp_int; [intros n H|intros H; wp_bad_number H].

Ltac wp_done :=
  apply wp_ret; unfold iteration_post; wp_norm;
  split; [|split; [by repeat apply suffix_cons_r|split; [simpl; lia|]]];
  [|first [done|intros _; split; [by left|apply last_snoc]]].

Ltac wp_caught := simpl; apply wp_print; wp_norm.

Lemma main_iteration_safe tickets escalated active_queue st ins out :
  main_inv tickets escalated active_queue st ->
  wp (main_iteration tickets escalated active_queue)
    (iteration_post active_queue ins)
    (fun e _ => bad_number ins e)
    (fun w' => w_input w' = [])
    (World st ins out).
Proof.
  intros Hmain. pose proof Hmain as (Hinv & [T HT] & [Es HE] & [Q HQ]).
  pose proof (Hinv _ _ HT) as HTrec.
  pose proof (Hinv _ _ HE) as HErec.
  pose proof (Hinv _ _ HQ) as HQrec.
  unfold main_iteration.
  do 9 wp_say. wp_ask choice.
  destruct (bool_decide (choice = "1")).
  { (* 1. View Tickets *)
    apply wp_bind, (wp_display_data _ _ _ _ _ _ T); [done..|]. intros out'.
    by wp_done. }
  destruct (bool_decide (choice = "2")).
  { (* 2. Add/Remove Ticket *)
    wp_ask op. apply wp_bind.
    destruct (bool_decide (lower op = "add")).
    { wp_ask id. wp_ask title. wp_ask ticket_type. wp_ask priority.
      wp_num n Hn. wp_ask status.
      apply wp_bind, wp_run. unfold mwp. wp_norm.
      destruct (dict_new_fresh st (ticket_dict id title ticket_type n status))
        as (t & -> & Hfresh).
      pose proof (main_inv_dict_new _ _ _ _ t
                    (ticket_dict id title ticket_type n status) Hmain Hfresh)
        as Hmain1.
      apply wp_try, wp_bind, wp_run. wp_norm.
      eapply mwp_mono;
        [apply (mwp_add_ticket _ (proj1 Hmain1) tickets t T
                  (ticket_dict id title ticket_type n status));
           [done|simpl; apply lookup_insert_eq|apply valid_ticket_dict]
        |intros _ st' [Hinv' Hgrow]|intros e st' [[msg ->] ->]].
      - apply wp_print. wp_norm. wp_done. by eapply main_inv_grows.
      - wp_caught. by wp_done. }
    destruct (bool_decide (lower op = "remove")).
    { apply wp_bind, (wp_print_indexed _ _ _ _ _ T); [done..|]. intros out'.
      wp_ask index. wp_num i Hi.
      apply wp_try, wp_bind, wp_run. wp_norm.
      eapply mwp_mono;
        [by apply (mwp_remove_ticket _ Hinv tickets i T)
        |intros t st' (Hinv' & Hgrow & d & Hd & Hrec)
        |intros e st' [[msg ->] ->]].
      - apply wp_bind, (wp_getitem_record _ _ _ _ t d); [done|done|by left|].
        intros vid.
        apply wp_bind, (wp_getitem_record _ _ _ _ t d); [done|done|by right|].
        intros vtitle. apply wp_print. wp_norm. wp_done. by eapply main_inv_grows.
      - wp_caught. by wp_done. }
    by wp_done. }
  destruct (bool_decide (choice = "3")).
  { (* 3. Sort Tickets *)
    wp_ask key. apply wp_bind, wp_try, wp_bind, wp_run. wp_norm.
    eapply mwp_mono;
      [by apply (mwp_sort_tickets _ Hinv tickets key T)
      |intros r st' (Hinv' & Hgrow & [R HR])|intros e st' [[msg ->] ->]].
    - apply (wp_display_data _ _ _ _ _ _ R); [done|by eapply Hinv'|]. intros out'.
      wp_done. by eapply main_inv_grows.
    - wp_caught. by wp_done. }
  destruct (bool_decide (choice = "4")).
  { (* 4. Filter Tickets *)
    wp_ask filter_type. wp_ask value. apply wp_bind, wp_try, wp_bind, wp_run. wp_norm.
    eapply mwp_mono;
      [by apply (mwp_filter_tickets _ Hinv tickets filter_type value T)
      |intros r st' (Hinv' & Hgrow & [R HR])|intros e st' [[msg ->] ->]].
    - apply (wp_display_data _ _ _ _ _ _ R); [done|by eapply Hinv'|]. intros out'.
      wp_done. by eapply main_inv_grows.
    - wp_caught. by wp_done. }
  destruct (bool_decide (choice = "5")).
  { (* 5. Queue Operations *)
    do 5 wp_say. wp_ask queue_op. apply wp_bind.
    destruct (bool_decide (queue_op = "1")).
    { apply wp_bind, (wp_print_indexed _ _ _ _ _ T); [done..|]. intros out'.
      wp_ask index. wp_num i Hi.
      apply wp_try, wp_bind, wp_run. wp_norm.
      eapply mwp_mono;
        [by apply (mwp_manage_queue_add _ Hinv tickets active_queue i T Q)
        |intros _ st' [Hinv' Hgrow]
        |intros e st' [[[msg ->]|[msg ->]] ->]].
      - apply wp_print. wp_norm. wp_done. by eapply main_inv_grows.
      - wp_caught. by wp_done.
      - wp_caught. by wp_done. }
    destruct (bool_decide (queue_op = "2")).
    { apply wp_bind, (wp_print_indexed _ _ _ _ _ Q); [done..|]. intros out'.
      apply wp_bind, (wp_read_list _ _ _ _ _ Q); [done|].
      destruct (bool_decide (Q = [])).
      { apply wp_print. wp_norm. by wp_done. }
      wp_ask index. wp_num i Hi.
      apply wp_try, wp_bind, wp_run. wp_norm.
      eapply mwp_mono;
        [by apply (mwp_manage_queue_remove _ Hinv tickets active_queue i Q)
        |intros r st' (Hinv' & Hgrow & t & d & -> & Hd & Hrec)
        |intros e st' [[msg ->] ->]].
      - apply wp_bind, (wp_getitem_record _ _ _ _ t d); [done|done|by left|].
        intros vid.
        apply wp_bind, (wp_getitem_record _ _ _ _ t d); [done|done|by right|].
        intros vtitle. apply wp_print. wp_norm. wp_done. by eapply main_inv_grows.
      - wp_caught. by wp_done. }
    destruct (bool_decide (queue_op = "3")).
    { apply (wp_display_data _ _ _ _ _ _ Q); [done..|]. intros out'. by wp_done. }
    destruct (bool_decide (queue_op = "4")).
    { apply wp_bind, wp_run. wp_norm.
      eapply mwp_mono;
        [by apply (mwp_manage_queue_clear _ Hinv tickets active_queue Q)
        |intros _ st' [Hinv' Hgrow]|done].
      apply wp_print. wp_norm. wp_done. by eapply main_inv_grows. }
    by wp_done. }
  destruct (bool_decide (choice = "6")).
  { (* 6. Process Escalated *)
    apply wp_bind, (wp_read_list _ _ _ _ _ Es); [done|]. wp_say.
    apply wp_bind, wp_run. wp_norm.
    eapply mwp_mono;
      [by apply (mwp_combine_queues _ Hinv tickets escalated T Es)
      |intros combined st' (Hinv' & Hgrow & [C HC])|done].
    pose proof (main_inv_grows _ _ _ _ _ Hmain Hinv' Hgrow) as Hmain'.
    apply wp_bind, (wp_read_list _ _ _ _ _ C); [done|]. wp_say.
    apply wp_bind, (wp_display_data _ _ _ _ _ _ C); [done|by eapply Hinv'|].
    intros out'. wp_ask confirm.
    destruct (bool_decide (lower confirm = "y")); [|by wp_done].
    apply wp_bind, wp_run. wp_norm.
    eapply mwp_mono;
      [by apply (mwp_list_new _ Hinv')
      |intros escalated' st'' (Hinv'' & Hgrow' & Hnew)|done].
    wp_say. wp_done.
    split; [done|]. split; [apply Hgrow'; eauto|]. split; [done|].
    apply Hgrow', Hmain'. }
  destruct (bool_decide (choice = "7")).
  { (* 7. Update Ticket *)
    apply wp_bind, (wp_print_indexed _ _ _ _ _ T); [done..|]. intros out'.
    wp_ask index. wp_num i Hi. wp_ask field. wp_ask value.
    apply wp_bind, wp_try, wp_bind, wp_run. wp_norm.
    eapply mwp_mono;
      [by apply (mwp_update_ticket _ Hinv tickets i field value T)
      |intros t st' (Hinv' & Hgrow & d & Hd & Hrec)
      |intros e st' [[[msg ->]|[msg ->]] ->]].
    - apply wp_bind, (wp_getitem_record _ _ _ _ t d); [done|done|by left|].
      intros vid.
      apply wp_bind, (wp_getitem_record _ _ _ _ t d); [done|done|by right|].
      intros vtitle. wp_say.
      apply wp_bind, (wp_formatted _ _ _ _ t d); [done..|]. intros line.
      apply wp_print. wp_norm. wp_done. by eapply main_inv_grows.
    - wp_caught. by wp_done.
    - wp_caught. by wp_done. }
  case_bool_decide as Hexit.
  { (* 0. Exit *)
    subst choice.
    wp_say. by wp_done. }
  wp_say. by wp_done.
Qed.

Lemma main_loop_safe fuel :
  forall tickets escalated active_queue st ins out,
    main_inv tickets escalated active_queue st ->
    (length ins < fuel)%nat ->
    wp (main_loop fuel tickets escalated active_queue)
      (fun _ w' => "0" ∈ ins /\ last (w_output w') = Some farewell)
      (fun e _ => bad_number ins e)
      (fun w' => w_input w' = [])
      (World st ins out).
Proof.
  induction fuel as [|fuel IH]; intros tickets escalated active_queue st ins out
    Hmain Hfuel; [lia|].
  cbn [main_loop]. apply wp_bind.
  eapply wp_mono; [by apply main_iteration_safe| |done..].
  intros [[tickets' escalated'] running] [st' ins' out']
    (Hmain' & Hsuffix & Hless & Hstop).
  simpl in Hmain', Hsuffix, Hless, Hstop.
  assert (forall s, s ∈ ins' -> s ∈ ins) as Hsub.
  { intros s Hs. destruct Hsuffix as [k ->]. apply elem_of_app. by right. }
  destruct running; [|by apply Hstop].
  eapply wp_mono; [apply IH; [done|lia]| | |done].
  - intros _ w' [Hzero Hlast]. auto.
  - intros e _ (He & s & Hs & Hnone). split; [done|]. exists s. auto.
Qed.

Lemma mwp_bind {A B} (m : M A) (f : A -> M B) (Q : B -> store -> Prop) E st :
  mwp m (fun a st' => mwp (f a) Q E st') E st -> mwp (m ≫= f) Q E st.
Proof. unfold mwp, mbind, M_bind. by destruct (m st) as [[a|e|] st']. Qed.

Lemma mwp_dict_new_record st d X :
  store_inv ticket_record st -> ticket_record d ->
  all_tickets st ticket_record X ->
  mwp (dict_new d)
    (fun t st' => store_inv ticket_record st' /\ grows st st'
                  /\ all_tickets st' ticket_record (X ++ [t]))
    (fun _ _ => False) st.
Proof.
  intros Hinv Hrec HX. unfold mwp.
  destruct (dict_new_fresh st d) as (t & -> & Hfresh).
  split; [by apply store_inv_dict_new|]. split; [apply grows_set_dict|].
  apply all_tickets_app; [by apply all_tickets_dict_new|].
  apply Forall_singleton. exists d. split; [|done]. simpl. apply lookup_insert_eq.
Qed.

Lemma mwp_list_new_records st X Y :
  store_inv ticket_record st -> all_tickets st ticket_record X ->
  all_tickets st ticket_record Y ->
  mwp (list_new X)
    (fun l st' => store_inv ticket_record st' /\ grows st st'
                  /\ is_Some (lists st' !! l)
                  /\ all_tickets st' ticket_record Y)
    (fun _ _ => False) st.
Proof.
  intros Hinv HX HY. unfold mwp.
  destruct (list_new_fresh st X) as (l & -> & Hfresh).
  split; [by apply store_inv_set_list|]. split; [apply grows_set_list|].
  split; [|done]. simpl. rewrite lookup_insert_eq. eauto.
Qed.

Lemma initialize_data_inv st :
  store_inv ticket_record st ->
  mwp initialize_data
    (fun '(tickets, escalated, queue) st' => main_inv tickets escalated queue st')
    (fun _ _ => False) st.
Proof.
  intros Hinv. unfold initialize_data.
  assert (forall s X (Q : nat -> store -> Prop) id title type priority status,
            store_inv ticket_record s -> all_tickets s ticket_record X ->
            type ∈ valid_types -> 1 <= priority <= 4 -> status ∈ valid_statuses ->
            (forall t s', store_inv ticket_record s' -> grows s s' ->
                          all_tickets s' ticket_record (X ++ [t]) -> Q t s') ->
            mwp (dict_new (ticket_dict id title type priority status)) Q
              (fun _ _ => False) s) as Hnew.
  { intros s X Q id title type priority status Hs_inv HX Hty Hp Hs HQ.
    eapply mwp_mono;
      [apply (mwp_dict_new_record s _ X); [done|by apply ticket_dict_record|done]
      |intros t s' (? & ? & ?); by apply HQ|done]. }
  apply mwp_bind.
  eapply (Hnew st []);
    [done|apply Forall_nil_2|repeat constructor|lia|repeat constructor|].
  intros t1 s1 I1 G1 A1. apply mwp_bind.
  eapply (Hnew s1); [exact I1|exact A1|repeat constructor|lia|repeat constructor|].
  intros t2 s2 I2 G2 A2. apply mwp_bind.
  eapply (Hnew s2); [exact I2|exact A2|repeat constructor|lia|repeat constructor|].
  intros t3 s3 I3 G3 A3. apply mwp_bind.
  eapply (Hnew s3); [exact I3|exact A3|repeat constructor|lia|repeat constructor|].
  intros t4 s4 I4 G4 A4. apply mwp_bind.
  eapply (Hnew s4); [exact I4|exact A4|repeat constructor|lia|repeat constructor|].
  intros t5 s5 I5 G5 A5. apply mwp_bind.
  eapply mwp_mono;
    [apply (mwp_list_new_records s5 [t1; t2; t3; t4; t5] []);
       [done|exact A5|apply Forall_nil_2]
    |intros tickets s6 (I6 & G6 & L6 & A6)|done].
  apply mwp_bind.
  eapply (Hnew s6); [exact I6|exact A6|repeat constructor|lia|repeat constructor|].
  intros e1 s7 I7 G7 A7. apply mwp_bind.
  eapply (Hnew s7); [exact I7|exact A7|repeat constructor|lia|repeat constructor|].
  intros e2 s8 I8 G8 A8. apply mwp_bind.
  eapply mwp_mono;
    [apply (mwp_list_new_records s8 [e1; e2] []); [done|exact A8|apply Forall_nil_2]
    |intros escalated s9 (I9 & G9 & L9 & A9)|done].
  apply mwp_bind.
  eapply mwp_mono;
    [apply (mwp_list_new_records s9 [] []); [done|apply Forall_nil_2..]
    |intros queue s10 (I10 & G10 & L10 & A10)|done].
  unfold mwp. simpl. split; [done|]. split; [|split; [|done]].
  - apply G10, G9, G8, G7, L6.
  - apply G10, L9.
Qed.

(** X23.  Started on an empty store, [main] stops whatever the lines of the
    input are, and in one of three ways.  It returns, after reading the
    line "0" and with the farewell as the last line written; or [input]
    finds the input used up; or it raises a [ValueError], and then a line
    of the input is no number for [int].  No [KeyError], [IndexError] or
    [TypeError] leaves it, and the fuel of the loop, one more than the
    number of lines, is never used up. *)
Theorem main_outcomes (ins : list string) :
  exists w',
    (main (World empty_store ins []) = (IORet tt, w')
     /\ "0" ∈ ins /\ last (w_output w') = Some farewell)
    \/ (main (World empty_store ins []) = (IOEof, w') /\ w_input w' = [])
    \/ (exists msg s,
          main (World empty_store ins []) = (IORaise (ValueError msg), w')
          /\ s ∈ ins /\ int_of_string s = None).
Proof.
  assert (wp main
            (fun _ w' => "0" ∈ ins /\ last (w_output w') = Some farewell)
            (fun e _ => bad_number ins e)
            (fun w' => w_input w' = [])
            (World empty_store ins [])) as Hwp.
  { unfold main. apply wp_bind, wp_run. wp_norm.
    eapply mwp_mono; [by apply initialize_data_inv| |done].
    intros [[tickets escalated] active_queue] st Hmain.
    pose proof Hmain as (Hinv & [T HT] & _).
    wp_say. apply wp_bind, (wp_read_list _ _ _ _ _ T); [done|]. wp_say.
    apply wp_bind, wp_run. wp_norm.
    eapply mwp_mono;
      [by apply (mwp_get_priority_tickets _ Hinv tickets 1 T)
      |intros critical st' (Hinv' & Hgrow & [C HC])|done].
    apply wp_bind, (wp_read_list _ _ _ _ _ C); [done|]. wp_say.
    apply main_loop_safe; [by eapply main_inv_grows|lia]. }
  unfold wp in Hwp.
  destruct (main (World empty_store ins [])) as [[[]|e| | |] w']; try done;
    exists w'.
  - by left.
  - right. right. destruct Hwp as ([msg ->] & s & Hs & Hnone). by exists msg, s.
  - right. by left.
Qed.


(** ** The properties at concrete inputs *)

Lemma seed_tickets : lists seed_store !! 0%nat = Some [0; 1; 2; 3; 4]%nat.
Proof. vm_compute. reflexivity. Qed.

Lemma seed_escalated : lists seed_store !! 1%nat = Some [5; 6]%nat.
Proof. vm_compute. reflexivity. Qed.

Lemma seed_queue : lists seed_store !! 2%nat = Some [].
Proof. vm_compute. reflexivity. Qed.

Lemma seed_first :
  dicts seed_store !! 0%nat
  = Some (ticket_dict "T001" "Payment not processing" "billing" 2 "open").
Proof. vm_compute. reflexivity. Qed.

Lemma seed_sixth :
  dicts seed_store !! 5%nat
  = Some (ticket_dict "E001" "Security breach" "technical" 1 "new").
Proof. vm_compute. reflexivity. Qed.

Lemma store_inv_empty P : store_inv P empty_store.
Proof. intros l L HL. simpl in HL. by rewrite lookup_empty in HL. Qed.

Lemma store_inv_mono (P Q : dict -> Prop) st :
  (forall d, P d -> Q d) -> store_inv P st -> store_inv Q st.
Proof.
  intros HPQ Hinv l L HL. eapply Forall_impl; [by apply (Hinv l)|].
  intros t (d & Hd & HP). exists d. auto.
Qed.

Lemma seed_inv : store_inv ticket_record seed_store.
Proof.
  pose proof (initialize_data_inv empty_store (store_inv_empty _)) as Hrun.
  unfold mwp in Hrun. unfold seed_store.
  destruct (initialize_data empty_store) as [[[[t e] q]| |] st']; [|done..].
  apply Hrun.
Qed.

Lemma seed_inv_valid : store_inv valid_ticket seed_store.
Proof. apply (store_inv_mono ticket_record); [by intros d [Hd _]|apply seed_inv]. Qed.

Lemma seed_first_record :
  ticket_record (ticket_dict "T001" "Payment not processing" "billing" 2 "open").
Proof. apply ticket_dict_record; [repeat constructor|lia|repeat constructor]. Qed.

Lemma seed_sixth_valid :
  valid_ticket (ticket_dict "E001" "Security breach" "technical" 1 "new").
Proof. apply ticket_dict_record; [repeat constructor|lia|repeat constructor]. Qed.

Lemma get_priority_tickets_spec_witness :
  lists seed_store !! 0%nat = Some [0; 1; 2; 3; 4]%nat
  /\ all_tickets seed_store ticket_record [0; 1; 2; 3; 4]%nat
  /\ returns_new_list (get_priority_tickets 0%nat (VInt 1) seed_store) seed_store
       (with_priority seed_store 1 [0; 1; 2; 3; 4]%nat).
Proof.
  split; [exact seed_tickets|]. split; [exact seed_records|].
  apply (proj1 (get_priority_tickets_spec seed_store 0%nat _ (VInt 1)
                  seed_tickets seed_records) 1); [reflexivity|lia].
Defined.

Lemma priority_selection_agrees_witness :
  lists seed_store !! 0%nat = Some [0; 1; 2; 3; 4]%nat
  /\ all_tickets seed_store ticket_record [0; 1; 2; 3; 4]%nat
  /\ returns_new_list (filter_tickets 0%nat "priority" (VStr (pretty 2)) seed_store)
       seed_store (with_priority seed_store 2 [0; 1; 2; 3; 4]%nat).
Proof.
  split; [exact seed_tickets|]. split; [exact seed_records|].
  apply (proj1 (priority_selection_agrees seed_store 0%nat _ 2
                  seed_tickets seed_records)). lia.
Defined.

Lemma seed_ascii_titles : ascii_titles seed_store [0; 1; 2; 3; 4]%nat.
Proof.
  intros t title Ht.
  repeat (apply elem_of_cons in Ht as [->|Ht];
          [vm_compute; by intros [= <-]|]).
  by apply elem_of_nil in Ht.
Qed.

Lemma filter_tickets_keyword_spec_witness :
  lists seed_store !! 0%nat = Some [0; 1; 2; 3; 4]%nat
  /\ all_tickets seed_store ticket_record [0; 1; 2; 3; 4]%nat
  /\ ascii_titles seed_store [0; 1; 2; 3; 4]%nat
  /\ is_ascii "pass" = true
  /\ exists sel : nat -> bool,
       returns_new_list (filter_tickets 0%nat "keyword" (VStr "pass") seed_store)
         seed_store (filter (fun t => sel t = true) [0; 1; 2; 3; 4]%nat)
       /\ (forall t, sel t = true <-> title_has seed_store "pass" t).
Proof.
  split; [exact seed_tickets|]. split; [exact seed_records|].
  split; [exact seed_ascii_titles|]. split; [reflexivity|].
  exact (proj1 (filter_tickets_keyword_spec seed_store 0%nat _
                  seed_tickets seed_records seed_ascii_titles) "pass" eq_refl).
Defined.

Lemma filter_tickets_keyword_case_witness :
  lists seed_store !! 0%nat = Some [0; 1; 2; 3; 4]%nat
  /\ all_tickets seed_store ticket_record [0; 1; 2; 3; 4]%nat
  /\ is_ascii "Pass" = true
  /\ exists X,
       returns_new_list (filter_tickets 0%nat "keyword" (VStr "Pass") seed_store)
         seed_store X
       /\ returns_new_list
            (filter_tickets 0%nat "keyword" (VStr (upper "Pass")) seed_store)
            seed_store X
       /\ returns_new_list
            (filter_tickets 0%nat "keyword" (VStr (lower "Pass")) seed_store)
            seed_store X.
Proof.
  split; [exact seed_tickets|]. split; [exact seed_records|].
  split; [reflexivity|].
  exact (filter_tickets_keyword_case seed_store 0%nat _ "Pass"
           seed_tickets seed_records eq_refl).
Defined.

Lemma update_ticket_status_type_spec_witness :
  lists seed_store !! 0%nat = Some [0; 1; 2; 3; 4]%nat
  /\ 0 <= 0
  /\ [0; 1; 2; 3; 4]%nat !! Z.to_nat 0 = Some 0%nat
  /\ dicts seed_store !! 0%nat
     = Some (ticket_dict "T001" "Payment not processing" "billing" 2 "open")
  /\ update_ticket 0%nat 0 "status" (VStr "closed") seed_store
     = (Ret 0%nat,
        set_dicts
          <[0%nat := <["status" := VStr "closed"]>
                       (ticket_dict "T001" "Payment not processing" "billing" 2 "open")]>
          seed_store).
Proof.
  split; [exact seed_tickets|]. split; [lia|]. split; [reflexivity|].
  split; [exact seed_first|].
  apply (proj1 (update_ticket_status_type_spec seed_store 0%nat _ 0 0%nat _
                  seed_tickets (Z.le_refl 0) eq_refl seed_first)).
  repeat constructor.
Defined.

Lemma update_ticket_guards_witness :
  lists seed_store !! 0%nat = Some [0; 1; 2; 3; 4]%nat
  /\ update_ticket 0%nat 9 "status" (VStr "open") seed_store
     = (Raise (IndexError "Ticket index out of range"), seed_store).
Proof.
  split; [exact seed_tickets|].
  apply (proj1 (update_ticket_guards seed_store 0%nat _ seed_tickets)).
  simpl. lia.
Defined.

Lemma mutators_keep_invariant_witness :
  store_inv valid_ticket seed_store
  /\ store_inv valid_ticket (add_ticket 0%nat 5%nat seed_store).2.
Proof.
  split; [exact seed_inv_valid|].
  exact (proj1 (mutators_keep_invariant seed_store seed_inv_valid) 0%nat 5%nat).
Defined.

Lemma builders_keep_invariant_witness :
  store_inv ticket_record seed_store
  /\ store_inv ticket_record (sort_tickets 0%nat "priority" seed_store).2.
Proof.
  split; [exact seed_inv|].
  exact (proj1 (builders_keep_invariant ticket_record seed_store seed_inv)
           0%nat "priority").
Defined.

Lemma add_then_remove_witness :
  lists seed_store !! 0%nat = Some [0; 1; 2; 3; 4]%nat
  /\ dicts seed_store !! 5%nat
     = Some (ticket_dict "E001" "Security breach" "technical" 1 "new")
  /\ valid_ticket (ticket_dict "E001" "Security breach" "technical" 1 "new")
  /\ (add_ticket 0%nat 5%nat ;;
      remove_ticket 0%nat (Z.of_nat (length [0; 1; 2; 3; 4]%nat))) seed_store
     = (Ret 5%nat, seed_store).
Proof.
  split; [exact seed_tickets|]. split; [exact seed_sixth|].
  split; [exact seed_sixth_valid|].
  exact (proj1 (add_then_remove seed_store 0%nat _ seed_tickets) 5%nat _
           seed_sixth seed_sixth_valid).
Defined.

Lemma queue_shares_tickets_witness :
  lists seed_store !! 0%nat = Some [0; 1; 2; 3; 4]%nat
  /\ lists seed_store !! 2%nat = Some []
  /\ dicts seed_store !! 0%nat
     = Some (ticket_dict "T001" "Payment not processing" "billing" 2 "open")
  /\ (manage_queue 0%nat 2%nat "add" (Some 0) ;;
      update_ticket 0%nat 0 "status" (VStr "closed") ;;
      entry ← list_getitem 2%nat (Z.of_nat (length (@nil nat)));
      dict_getitem entry "status") seed_store
     = (Ret (VStr "closed"),
        set_dicts
          <[0%nat := <["status" := VStr "closed"]>
                       (ticket_dict "T001" "Payment not processing" "billing" 2 "open")]>
          (set_lists <[2%nat := [] ++ [0%nat]]> seed_store)).
Proof.
  split; [exact seed_tickets|]. split; [exact seed_queue|].
  split; [exact seed_first|].
  apply (queue_shares_tickets seed_store 0%nat 2%nat _ [] 0 0%nat _ "closed"
           seed_tickets seed_queue);
    [simpl; lia|lia|reflexivity|exact seed_first|repeat constructor].
Defined.


Lemma odd_id_valid :
  valid_ticket (<["id" := VInt 7]> (ticket_dict "7" "Numbered" "general" 3 "new")).
Proof.
  split; [|split; [|split]].
  - intros (f & Hf & Hnone). unfold required_fields in Hf.
    rewrite !elem_of_cons, elem_of_nil in Hf.
    by destruct Hf as [->|[->|[->|[->|[->|[]]]]]].
  - exists "general". split; [repeat constructor|reflexivity].
  - exists (VInt 3), 3. split; [reflexivity|]. split; [reflexivity|lia].
  - exists "new". split; [repeat constructor|reflexivity].
Qed.

Lemma odd_id_records : all_tickets odd_id_store ticket_record [0%nat].
Proof.
  apply Forall_singleton. eexists. split; [reflexivity|].
  apply ticket_dict_record; [repeat constructor|lia|repeat constructor].
Qed.

Lemma add_ticket_unchecked_id_witness :
  lists odd_id_store !! 0%nat = Some [0%nat]
  /\ all_tickets odd_id_store ticket_record [0%nat]
  /\ [0%nat] <> []
  /\ dicts odd_id_store !! 1%nat
     = Some (<["id" := VInt 7]> (ticket_dict "7" "Numbered" "general" 3 "new"))
  /\ valid_ticket (<["id" := VInt 7]> (ticket_dict "7" "Numbered" "general" 3 "new"))
  /\ (<["id" := VInt 7]> (ticket_dict "7" "Numbered" "general" 3 "new")) !! "id"
     = Some (VInt 7)
  /\ str_value (VInt 7) = None
  /\ add_ticket 0%nat 1%nat odd_id_store
     = (Ret 0%nat, set_lists <[0%nat := [0%nat] ++ [1%nat]]> odd_id_store)
  /\ ((add_ticket 0%nat 1%nat ;; sort_tickets 0%nat "id") odd_id_store).1
     = Raise TypeError.
Proof.
  assert ([0%nat] <> []) as Hne by discriminate.
  split; [reflexivity|]. split; [exact odd_id_records|]. split; [exact Hne|].
  split; [reflexivity|]. split; [exact odd_id_valid|]. split; [reflexivity|].
  split; [reflexivity|].
  exact (add_ticket_unchecked_id odd_id_store 0%nat 1%nat [0%nat] _ (VInt 7)
           eq_refl odd_id_records Hne eq_refl odd_id_valid eq_refl eq_refl).
Defined.

Lemma sort_tickets_idempotent_witness :
  lists seed_store !! 0%nat = Some [0; 1; 2; 3; 4]%nat
  /\ all_tickets seed_store ticket_record [0; 1; 2; 3; 4]%nat
  /\ "priority" ∈ valid_keys
  /\ exists r st1 L1,
       sort_tickets 0%nat "priority" seed_store = (Ret r, st1)
       /\ lists st1 !! r = Some L1
       /\ returns_new_list (sort_tickets r "priority" st1) st1 L1.
Proof.
  assert ("priority" ∈ valid_keys) as Hk by (repeat constructor).
  split; [exact seed_tickets|]. split; [exact seed_records|]. split; [exact Hk|].
  exact (proj2 (sort_tickets_idempotent seed_store 0%nat _ "priority"
                  seed_tickets seed_records Hk)).
Defined.

Lemma partial_first_priority :
  forall u, u ∈ [0%nat] -> is_Some (field_of partial_store "priority" u).
Proof. intros u Hu. apply list_elem_of_singleton in Hu as ->. by eexists. Qed.

Lemma sort_tickets_missing_key_witness :
  lists partial_store !! 0%nat = Some ([0%nat] ++ 1%nat :: [])
  /\ "priority" ∈ valid_keys
  /\ (forall u, u ∈ [0%nat] -> is_Some (field_of partial_store "priority" u))
  /\ dicts partial_store !! 1%nat
     = Some (delete "status"
               (delete "priority" (ticket_dict "P002" "No priority" "general" 3 "new")))
  /\ delete "status"
       (delete "priority" (ticket_dict "P002" "No priority" "general" 3 "new"))
     !! "priority" = None
  /\ (sort_tickets 0%nat "priority" partial_store).1 = Raise (KeyError "priority")
  /\ lists (sort_tickets 0%nat "priority" partial_store).2 !! 0%nat
     = Some ([0%nat] ++ 1%nat :: [])
  /\ dicts (sort_tickets 0%nat "priority" partial_store).2 = dicts partial_store.
Proof.
  assert ("priority" ∈ valid_keys) as Hk by (repeat constructor).
  split; [reflexivity|]. split; [exact Hk|]. split; [exact partial_first_priority|].
  split; [reflexivity|]. split; [reflexivity|].
  exact (sort_tickets_missing_key partial_store 0%nat [0%nat] [] 1%nat _ "priority"
           eq_refl Hk partial_first_priority eq_refl eq_refl).
Defined.

Lemma seed_escalated_records : all_tickets seed_store ticket_record [5; 6]%nat.
Proof. exact (seed_inv _ _ seed_escalated). Qed.

Lemma filter_after_combine_witness :
  lists seed_store !! 0%nat = Some [0; 1; 2; 3; 4]%nat
  /\ lists seed_store !! 1%nat = Some [5; 6]%nat
  /\ all_tickets seed_store ticket_record [0; 1; 2; 3; 4]%nat
  /\ all_tickets seed_store ticket_record [5; 6]%nat
  /\ exists c st1,
       combine_queues 0%nat 1%nat seed_store = (Ret c, st1)
       /\ returns_new_list (get_priority_tickets c (VInt 1) st1) st1
            (with_priority seed_store 1 [0; 1; 2; 3; 4]%nat
             ++ with_priority seed_store 1 [5; 6]%nat).
Proof.
  split; [exact seed_tickets|]. split; [exact seed_escalated|].
  split; [exact seed_records|]. split; [exact seed_escalated_records|].
  destruct (filter_after_combine seed_store 0%nat 1%nat _ _ seed_tickets
              seed_escalated seed_records seed_escalated_records)
    as (c & st1 & Hrun & _ & _ & Hpriority).
  exists c, st1. split; [exact Hrun|]. apply Hpriority. lia.
Defined.

Lemma get_formatted_ticket_record_witness :
  dicts seed_store !! 0%nat
  = Some (ticket_dict "T001" "Payment not processing" "billing" 2 "open")
  /\ ticket_record (ticket_dict "T001" "Payment not processing" "billing" 2 "open")
  /\ exists line, get_formatted_ticket 0%nat seed_store = (Ret line, seed_store).
Proof.
  split; [exact seed_first|]. split; [exact seed_first_record|].
  destruct (get_formatted_ticket_record seed_store 0%nat _ seed_first
              seed_first_record)
    as (id & title & type & p & n & status & _ & _ & _ & _ & _ & _ & _ & Hrun).
  eexists. exact Hrun.
Defined.

Lemma get_formatted_ticket_priority_range_witness :
  dicts stray_store !! 0%nat = Some (ticket_dict "X001" "Zero" "general" 0 "open")
  /\ ticket_dict "X001" "Zero" "general" 0 "open" !! "id" = Some (VStr "X001")
  /\ ticket_dict "X001" "Zero" "general" 0 "open" !! "title" = Some (VStr "Zero")
  /\ ticket_dict "X001" "Zero" "general" 0 "open" !! "type" = Some (VStr "general")
  /\ ticket_dict "X001" "Zero" "general" 0 "open" !! "priority" = Some (VInt 0)
  /\ ticket_dict "X001" "Zero" "general" 0 "open" !! "status" = Some (VStr "open")
  /\ get_formatted_ticket 0%nat stray_store
     = (Ret (ticket_line (VStr "X001") (VStr "Zero") (VStr "general")
               (priority_label (0 + 4)) (VInt 0) "open"), stray_store).
Proof.
  assert (dicts stray_store !! 0%nat
          = Some (ticket_dict "X001" "Zero" "general" 0 "open")) as Hd
    by (vm_compute; reflexivity).
  split; [exact Hd|]. do 5 (split; [reflexivity|]).
  apply (proj1 (proj2 (get_formatted_ticket_priority_range stray_store 0%nat _
                         (VStr "X001") (VStr "Zero") (VStr "general") 0 "open"
                         Hd eq_refl eq_refl eq_refl eq_refl eq_refl))).
  lia.
Defined.

Lemma get_formatted_ticket_failures_witness :
  dicts partial_store !! 1%nat
  = Some (delete "status"
            (delete "priority" (ticket_dict "P002" "No priority" "general" 3 "new")))
  /\ get_formatted_ticket 1%nat partial_store
     = (Raise (KeyError "priority"), partial_store).
Proof.
  split; [reflexivity|].
  apply (proj1 (get_formatted_ticket_failures partial_store 1%nat _ eq_refl)).
  reflexivity.
Defined.

Lemma display_data_spec_witness :
  lists (w_store (World seed_store [] [])) !! 0%nat = Some [0; 1; 2; 3; 4]%nat
  /\ all_tickets (w_store (World seed_store [] [])) ticket_record [0; 1; 2; 3; 4]%nat
  /\ exists printed,
       display_data 0%nat "tickets" (World seed_store [] [])
       = (IORet tt, World seed_store [] ([] ++ printed)).
Proof.
  split; [exact seed_tickets|]. split; [exact seed_records|].
  destruct (display_data_spec (World seed_store [] []) 0%nat _ "tickets"
              seed_tickets seed_records) as (printed & Hrun & _).
  exists printed. exact Hrun.
Defined.
